(** * AudioBookRequest: request lifecycle, completed-download processor and
      library reorganizer

    Shallow embedding of
      - [app/routers/api/downloads.py]  (create_download, delete_download,
        start_download_source) and
      - [app/internal/processing/processor.py]  (smart_copy,
        process_completed_download, reorganize_existing_book)
    followed by the properties of the specification that concern them.

    Conventions.
      - Python [str] is [string]; only the ASCII part of [str.lower] is
        modelled.
      - [download_progress] is a Python float; its values are modelled as exact
        rationals ([Q]), so [0.90 + idx / total * 0.02] is the rational
        number of that name.
      - The database session is a record of tables; the request table is a
        list of rows, the catalog a finite map keyed by asin
        ([session.get(Audiobook, asin)]).
      - The file system is a finite map from resolved paths (lists of
        components) to nodes, with an inode table for file contents so that
        hard links share their content.  Paths are resolved lexically, the
        way [os.path.abspath] does; symbolic links are not modelled.
      - Collaborators that live outside the embedded files (scanner,
        metadata generators, name patterns, HTTP) are fields of a record of
        collaborators and are quantified over. *)

From Stdlib Require Import Ascii String QArith Lqa.
From stdpp Require Import gmap strings list fin_maps sorting.
Close Scope Q_scope.
Open Scope string_scope.
Open Scope list_scope.

(** ** Python string operations *)

Definition startswith (s p : string) : bool := String.prefix p s.

Definition endswith (s suf : string) : bool :=
  let n := String.length s in
  let m := String.length suf in
  if (m <=? n)%nat then String.eqb (String.substring (n - m) m s) suf else false.

(** [sub in s] for strings: [sub] occurs at some position of [s]. *)
Fixpoint str_in (sub s : string) : bool :=
  match s with
  | EmptyString => String.eqb sub ""
  | String _ s' => String.prefix sub s || str_in sub s'
  end.

Definition lower_ascii (c : ascii) : ascii :=
  let n := nat_of_ascii c in
  if ((65 <=? n) && (n <=? 90))%nat then ascii_of_nat (n + 32) else c.

Fixpoint lower (s : string) : string :=
  match s with
  | EmptyString => EmptyString
  | String c s' => String (lower_ascii c) (lower s')
  end.

(** [s.split(sep)] for a one-character separator: never the empty list. *)
Fixpoint split_on (sep : ascii) (s : string) : list string :=
  match s with
  | EmptyString => [""]
  | String c s' =>
      if Ascii.eqb c sep then "" :: split_on sep s'
      else match split_on sep s' with
           | [] => [String c ""]
           | w :: ws => String c w :: ws
           end
  end.

(** [sep.join(l)] *)
Fixpoint str_join (sep : string) (l : list string) : string :=
  match l with
  | [] => ""
  | [x] => x
  | x :: xs => x +:+ sep +:+ str_join sep xs
  end.

(** Decimal digits of a number, as [str(n)] / format [d] prints them. *)
Definition digit (n : nat) : ascii := ascii_of_nat (48 + n mod 10).

Fixpoint digits_from (fuel n : nat) (acc : string) : string :=
  match fuel with
  | O => acc
  | S fuel' =>
      let acc' := String (digit n) acc in
      if (n / 10 =? 0)%nat then acc' else digits_from fuel' (n / 10) acc'
  end.

Definition str_of_nat (n : nat) : string := digits_from (S n) n "".

Fixpoint zeros (k : nat) : string :=
  match k with O => "" | S k' => String "0" (zeros k') end.

(** Format spec [{n:0{width}d}]: at least [width] characters, padded on the
    left with zeros. *)
Definition format_0d (width n : nat) : string :=
  let s := str_of_nat n in
  zeros (width - String.length s) +:+ s.

(** ** Part labels

    processor.py 233-237 (process_completed_download):
      padding = 3 if len(audio_files_to_process) >= 100 else 2
      total_files = len(audio_files_to_process)
      part_str = f"Part {idx:0{padding}d}" if total_files > 1 else "" *)
Definition padding_of (n_files : nat) : nat := if (100 <=? n_files)%nat then 3 else 2.

Definition part_str_process (total_files idx : nat) : string :=
  let padding := padding_of total_files in
  if (1 <? total_files)%nat then "Part " +:+ format_0d padding idx else "".

(** processor.py 376-379 (reorganize_existing_book):
      padding = 3 if len(audio_files) >= 100 else 2
      part_str = f"Part {idx:0{padding}d}" if len(audio_files) > 1 else "" *)
Definition part_str_reorganize (audio_files : list string) (idx : nat) : string :=
  let padding := if (100 <=? length audio_files)%nat then 3 else 2 in
  if (1 <? length audio_files)%nat then "Part " +:+ format_0d padding idx else "".

(** The digits a label is expected to show. *)
Definition two_digits (i : nat) : string :=
  String (digit (i / 10)) (String (digit i) "").

Definition three_digits (i : nat) : string :=
  String (digit (i / 100)) (String (digit (i / 10)) (String (digit i) "")).

(** [enumerate(l, 1)] *)
Definition enumerate1 {A} (l : list A) : list (nat * A) :=
  combine (seq 1 (length l)) l.

(** ** Data model (app.internal.models)

    The model classes are declared outside the embedded files; the records
    below carry the attributes that the embedded code reads and writes. *)

Record Audiobook := mkAudiobook {
  book_asin : string;
  title : string;
  subtitle : option string;
  authors : list string;
  series : list string;
  series_index : option string;
  release_year : option nat;          (* release_date.year *)
  cover_image : option string;
  downloaded : bool
}.

Record AudiobookRequest := mkAudiobookRequest {
  asin : string;
  user_username : string;
  processing_status : string;
  download_progress : Q;
  torrent_hash : option string;
  download_state : option string;
  mam_id : option string
}.

Inductive ImportSessionStatus := scanning | completed | failed.

Record LibraryImportSession := mkLibraryImportSession {
  import_id : nat;
  root_path : string;
  status : ImportSessionStatus
}.

Inductive RequestLogLevel := info | error.

Record RequestLogEvent := mkRequestLogEvent {
  log_asin : string;
  log_username : string;
  log_message : string;
  log_level : RequestLogLevel
}.

Record User := mkUser {
  username : string;
  password : string;
  group : string;
  root : bool
}.

(** Settings read through the configuration objects
    ([media_management_config], [download_client_config], [quality_config],
    [abs_config], [prowlarr_config]); they are stored in the database. *)
Record Settings := mkSettings {
  library_path : option string;
  file_pattern : string;
  qbit_complete_action : string;
  qbit_enabled : bool;
  auto_download : bool;
  abs_is_valid : bool;
  source_ttl : nat
}.

(** The database as seen through a [Session]. *)
Record Session := mkSession {
  audiobooks : gmap string Audiobook;
  requests : list AudiobookRequest;
  import_sessions : list LibraryImportSession;
  request_logs : list RequestLogEvent;
  users : gmap string User;
  settings : Settings
}.

Definition set_audiobooks (s : Session) (v : gmap string Audiobook) : Session :=
  mkSession v (requests s) (import_sessions s) (request_logs s) (users s) (settings s).
Definition set_requests (s : Session) (v : list AudiobookRequest) : Session :=
  mkSession (audiobooks s) v (import_sessions s) (request_logs s) (users s) (settings s).
Definition set_import_sessions (s : Session) (v : list LibraryImportSession) : Session :=
  mkSession (audiobooks s) (requests s) v (request_logs s) (users s) (settings s).
Definition set_request_logs (s : Session) (v : list RequestLogEvent) : Session :=
  mkSession (audiobooks s) (requests s) (import_sessions s) v (users s) (settings s).
Definition set_users (s : Session) (v : gmap string User) : Session :=
  mkSession (audiobooks s) (requests s) (import_sessions s) (request_logs s) v (settings s).

Definition set_processing_status (r : AudiobookRequest) (v : string) : AudiobookRequest :=
  mkAudiobookRequest (asin r) (user_username r) v (download_progress r)
    (torrent_hash r) (download_state r) (mam_id r).
Definition set_download_progress (r : AudiobookRequest) (v : Q) : AudiobookRequest :=
  mkAudiobookRequest (asin r) (user_username r) (processing_status r) v
    (torrent_hash r) (download_state r) (mam_id r).
Definition set_torrent_hash (r : AudiobookRequest) (v : option string) : AudiobookRequest :=
  mkAudiobookRequest (asin r) (user_username r) (processing_status r)
    (download_progress r) v (download_state r) (mam_id r).
Definition set_download_state (r : AudiobookRequest) (v : option string) : AudiobookRequest :=
  mkAudiobookRequest (asin r) (user_username r) (processing_status r)
    (download_progress r) (torrent_hash r) v (mam_id r).

Definition set_downloaded (b : Audiobook) (v : bool) : Audiobook :=
  mkAudiobook (book_asin b) (title b) (subtitle b) (authors b) (series b)
    (series_index b) (release_year b) (cover_image b) v.
Definition set_series_index (b : Audiobook) (v : option string) : Audiobook :=
  mkAudiobook (book_asin b) (title b) (subtitle b) (authors b) (series b)
    v (release_year b) (cover_image b) (downloaded b).
Definition set_series (b : Audiobook) (v : list string) : Audiobook :=
  mkAudiobook (book_asin b) (title b) (subtitle b) (authors b) v
    (series_index b) (release_year b) (cover_image b) (downloaded b).

(** Modelled from the spec: the defaults of [AudiobookRequest(asin=...,
    user_username=...)] (the class is declared in app.internal.models): a
    request is created in [pending] with progress 0.0 and no torrent hash,
    download state or alternate metadata key. *)
Definition new_AudiobookRequest (a u : string) : AudiobookRequest :=
  mkAudiobookRequest a u "pending" 0%Q None None None.

(** Modelled from the spec: [log_request_event] (app.internal.request_logs)
    appends one event to the append-only audit trail. *)
Definition log_request_event (s : Session) (a u msg : string)
    (lvl : RequestLogLevel) : Session :=
  set_request_logs s (request_logs s ++ [mkRequestLogEvent a u msg lvl]).

(** The row of a request object: a request is loaded by asin with [first()],
    so [session.add(obj); session.commit()] on a loaded object writes it back
    to the first row with its asin.  Other rows keep their place. *)
Fixpoint write_back (obj : AudiobookRequest) (rows : list AudiobookRequest)
    : list AudiobookRequest :=
  match rows with
  | [] => []
  | r :: rows' =>
      if String.eqb (asin r) (asin obj) then obj :: rows'
      else r :: write_back obj rows'
  end.

Definition commit_request (s : Session) (obj : AudiobookRequest) : Session :=
  set_requests s (write_back obj (requests s)).

Definition commit_book (s : Session) (b : Audiobook) : Session :=
  set_audiobooks s (<[book_asin b := b]> (audiobooks s)).

(** system_user.py: get_system_user *)
Definition get_system_user (s : Session) : Session * User :=
  match users s !! "system" with
  | Some user => (s, user)
  | None =>
      let user := mkUser "system" "" "admin" true in
      (set_users s (<["system" := user]> (users s)), user)
  end.

(** Outcome of an endpoint: a value or a raised [HTTPException]. *)
Inductive response (A : Type) :=
  | Returned (a : A)
  | HTTPException (status_code : nat) (detail : string).
Arguments Returned {A} a.
Arguments HTTPException {A} status_code detail.

(** ** Torrent client and source cache

    Modelled from the spec: the torrent client ([QbittorrentClient],
    app.internal.download_clients) offers [list() -> [{hash, tags, state}]]
    and [remove(hashes, delete_files)]; a client that cannot be reached
    raises.  The tags of a torrent are one string; a torrent may lack the
    key, which [t.get("tags", "")] reads as the empty string. *)
Record Torrent := mkTorrent {
  hash : string;
  tags : option string
}.

Record Qbittorrent := mkQbittorrent {
  reachable : bool;
  torrents : list Torrent;
  files_deleted : list string      (* hashes removed together with their files *)
}.

Definition get_torrents (q : Qbittorrent) : option (list Torrent) :=
  if reachable q then Some (torrents q) else None.

Definition delete_torrents (q : Qbittorrent) (hashes : list string)
    (delete_files : bool) : Qbittorrent :=
  let gone t := existsb (String.eqb (hash t)) hashes in
  mkQbittorrent (reachable q)
    (filter (fun t => gone t = false) (torrents q))
    (if delete_files
     then files_deleted q ++ map hash (filter (fun t => gone t = true) (torrents q))
     else files_deleted q).

Record ProwlarrSource := mkProwlarrSource {
  guid : string;
  indexer_id : Z;
  source_title : string
}.

(** Modelled from the spec: [prowlarr_source_cache] (app.internal.prowlarr.util).
    A cache entry is [(key, fetched_at, results)]; it expires after the
    time-to-live; a flush invalidates all entries at once. *)
Record CacheEntry := mkCacheEntry {
  fetched_at : nat;
  results : list ProwlarrSource
}.

Record SourceCache := mkSourceCache {
  clock : nat;
  entries : gmap string CacheEntry
}.

Definition expired (c : SourceCache) (ttl : nat) (e : CacheEntry) : bool :=
  (fetched_at e + ttl <? clock c)%nat.

Definition cache_get (c : SourceCache) (ttl : nat) (key : string)
    : option (list ProwlarrSource) :=
  match entries c !! key with
  | Some e => if expired c ttl e then None else Some (results e)
  | None => None
  end.

Definition flush_prowlarr_cache (c : SourceCache) : SourceCache :=
  mkSourceCache (clock c) ∅.

(** ** downloads.py *)

Record DownloadSourceBody := mkDownloadSourceBody {
  body_guid : string;
  body_indexer_id : Z;
  body_collection : bool;
  body_collection_label : option string
}.

Record DownloadJob := mkDownloadJob {
  job_asin : string;
  job_title : string;
  job_subtitle : option string;
  job_status : string;
  job_progress : Q;
  job_torrent_hash : option string;
  job_download_state : option string;
  job_downloaded : bool
}.

Definition _job_view (book : Audiobook) (req : option AudiobookRequest) : DownloadJob :=
  mkDownloadJob (book_asin book) (title book) (subtitle book)
    (match req with Some r => processing_status r | None => "not_queued" end)
    (match req with Some r => download_progress r | None => 0%Q end)
    (match req with Some r => torrent_hash r | None => None end)
    (match req with Some r => download_state r | None => None end)
    (downloaded book).

Definition _get_request (session : Session) (a : string) : option AudiobookRequest :=
  find (fun r => String.eqb (asin r) a) (requests session).

(** The state the endpoints of downloads.py act on. *)
Record App := mkApp {
  app_session : Session;
  app_qbit : Qbittorrent;
  app_cache : SourceCache
}.

Inductive StartOutcome :=
  | Started (success : bool)
  | ProwlarrMisconfigured (msg : string).

(** Collaborators of downloads.py that are defined elsewhere. *)
Record DownloadsEnv := mkDownloadsEnv {
  get_region_from_settings : string;
  audible_regions : string -> bool;            (* region is a known key *)
  get_book_by_asin : string -> string -> option Audiobook;
  library_contains_asin : Session -> string -> bool;
  build_prowlarr_query : Session -> Audiobook -> string;
  start_download :
    App -> string -> Z -> User -> AudiobookRequest -> ProwlarrSource ->
    bool -> option string -> App * StartOutcome
}.

Inductive BackgroundTask :=
  | background_start_query (a : string) (requester : User) (auto : bool)
  | background_abs_trigger_scan.

(** downloads.py 75-152 *)
Definition create_download (E : DownloadsEnv) (session0 : Session)
    (a : string) (region : option string)
    : Session * response DownloadJob * list BackgroundTask :=
  let '(session, user) := get_system_user session0 in
  let region := match region with Some r => r | None => get_region_from_settings E end in
  if negb (audible_regions E region) then
    (session, HTTPException 400 "Invalid region", [])
  else
  match get_book_by_asin E a region with
  | None => (session, HTTPException 404 "Book not found", [])
  | Some fetched =>
    let existing_library_book := audiobooks session !! a in
    let '(session, book) :=
      match existing_library_book with
      | Some b => (session, b)
      | None => (commit_book session fetched, fetched)
      end in
    let in_library_on_disk := library_contains_asin E session a in
    let tracked_not_downloaded :=
      match existing_library_book with
      | Some b => negb (downloaded b)
      | None => false
      end in
    if in_library_on_disk && negb tracked_not_downloaded then
      (session, HTTPException 400 "Book already exists in library folder", [])
    else if match existing_library_book with
            | Some b => downloaded b
            | None => false
            end then
      (session, HTTPException 400 "Book already in library", [])
    else
      let existing_request := _get_request session a in
      let session :=
        match existing_request with
        | Some r =>
            let r := set_processing_status r "pending" in
            let r := set_download_progress r 0%Q in
            let r := set_torrent_hash r None in
            let r := set_download_state r None in
            let session := commit_request session r in
            log_request_event session a (username user) "Download re-opened." info
        | None =>
            let book_request := new_AudiobookRequest a (username user) in
            let session := set_requests session (requests session ++ [book_request]) in
            log_request_event session a (username user) "Download created." info
        end in
      let tasks :=
        if auto_download (settings session)
        then [background_start_query a user true] else [] in
      (session, Returned (_job_view book (_get_request session a)), tasks)
  end.

(** The body of the loop over the client's torrents in [delete_download]
    (downloads.py 202-204). *)
Definition remove_tagged (a : string) (delete_files : bool)
    (q : Qbittorrent) (t : Torrent) : Qbittorrent :=
  if str_in ("asin:" +:+ a) (default "" (tags t))
  then delete_torrents q [hash t] delete_files
  else q.

(** downloads.py 184-224.  [delete_files_q] overrides [delete_files] when
    given.  An exception while talking to the client is logged and
    swallowed. *)
Definition delete_download (app : App) (a : string) (delete_files : bool)
    (delete_files_q : option bool) : App * response nat * list BackgroundTask :=
  let session := app_session app in
  let delete_files :=
    match delete_files_q with Some b => b | None => delete_files end in
  let qbit :=
    if qbit_enabled (settings session) then
      match get_torrents (app_qbit app) with
      | Some ts =>
          fold_left (remove_tagged a delete_files) ts (app_qbit app)
      | None => app_qbit app
      end
    else app_qbit app in
  let session :=
    set_requests session
      (filter (fun r => String.eqb (asin r) a = false) (requests session)) in
  let tasks :=
    if delete_files && abs_is_valid (settings session)
    then [background_abs_trigger_scan] else [] in
  (mkApp session qbit (app_cache app), Returned 204%nat, tasks).

(** downloads.py 273-343 *)
Definition start_download_source (E : DownloadsEnv) (app0 : App) (a : string)
    (body : DownloadSourceBody) : App * response nat * list BackgroundTask :=
  let '(session, user) := get_system_user (app_session app0) in
  let app := mkApp session (app_qbit app0) (app_cache app0) in
  let book_request :=
    find (fun r =>
            String.eqb (asin r) a &&
            match audiobooks session !! asin r with
            | Some b => negb (downloaded b)
            | None => false
            end)
         (requests session) in
  match book_request with
  | None =>
      (app, HTTPException 404 "Active download for this audiobook not found.", [])
  | Some book_request =>
      let book := audiobooks session !! a in
      let cache_key :=
        match book with Some b => build_prowlarr_query E session b | None => "" end in
      let sources := cache_get (app_cache app) (source_ttl (settings session)) cache_key in
      let source :=
        match sources with
        | Some (s :: l) =>
            find (fun s => String.eqb (guid s) (body_guid body) &&
                           Z.eqb (indexer_id s) (body_indexer_id body))
                 (s :: l)
        | _ => None
        end in
      match source with
      | None =>
          (app, HTTPException 404 "Source not found in cache for this book.", [])
      | Some source =>
          match start_download E app (body_guid body) (body_indexer_id body) user
                  book_request source (body_collection body)
                  (body_collection_label body) with
          | (app, ProwlarrMisconfigured msg) => (app, HTTPException 500 msg, [])
          | (app, Started false) =>
              (app, HTTPException 500 "Failed to start download", [])
          | (app, Started true) =>
              (app, Returned 204%nat,
               if abs_is_valid (settings (app_session app))
               then [background_abs_trigger_scan] else [])
          end
      end
  end.

(** ** Sample states *)

Definition tagged_B0012 : App :=
  mkApp
    (mkSession ∅
       [new_AudiobookRequest "B001" "system"; new_AudiobookRequest "B0012" "system"]
       [] [] ∅
       (mkSettings (Some "/lib") "{title}" "copy" true false false 60))
    (mkQbittorrent true [mkTorrent "h2" (Some "asin:B0012")] [])
    (mkSourceCache 0 ∅).

(** What [create_download] does to a request it found (downloads.py 116-119). *)
Definition reopened (r : AudiobookRequest) : AudiobookRequest :=
  set_download_state
    (set_torrent_hash
       (set_download_progress (set_processing_status r "pending") 0%Q) None) None.

(** States of the application reached from an empty request table by the
    operations that write the request table: [create_download],
    [delete_download], and the write-back of a loaded request object that
    the processor and the download start perform on commit. *)
Inductive app_reachable (E : DownloadsEnv) : App -> Prop :=
  | reach_empty app :
      requests (app_session app) = [] -> app_reachable E app
  | reach_create app a region :
      app_reachable E app ->
      app_reachable E (mkApp (create_download E (app_session app) a region).1.1
                     (app_qbit app) (app_cache app))
  | reach_delete app a df dfq :
      app_reachable E app -> app_reachable E (delete_download app a df dfq).1.1
  | reach_commit app obj :
      app_reachable E app ->
      app_reachable E (mkApp (commit_request (app_session app) obj)
                     (app_qbit app) (app_cache app)).

(** The sentence of the specification on [AlreadyInLibrary], read as it is
    written: the call is rejected with a 400 exactly when the catalog record
    is marked downloaded and the book is on disk.  ([on_disk] is what
    [library_contains_asin] answers at line 100.) *)
Definition session_at_line_100 (E : DownloadsEnv) (session0 : Session)
    (a : string) (fetched : Audiobook) : Session :=
  let session := (get_system_user session0).1 in
  match audiobooks session !! a with
  | Some _ => session
  | None => commit_book session fetched
  end.

Definition rejected_400 {A} (r : response A) : Prop :=
  exists detail, r = HTTPException 400 detail.

Definition already_in_library_as_stated (E : DownloadsEnv) (session0 : Session)
    (a : string) (region : string) : Prop :=
  forall fetched,
    audible_regions E region = true ->
    get_book_by_asin E a region = Some fetched ->
    let on_disk := library_contains_asin E (session_at_line_100 E session0 a fetched) a in
    let marked_downloaded :=
      match audiobooks session0 !! a with
      | Some b => downloaded b
      | None => false
      end in
    rejected_400 (create_download E session0 a (Some region)).1.2 <->
    (marked_downloaded = true /\ on_disk = true).

Definition sample_book (a : string) (d : bool) : Audiobook :=
  mkAudiobook a "Y" None ["X"] [] None (Some 2020) None d.

Definition sample_settings : Settings :=
  mkSettings (Some "/lib") "{title}" "copy" true false false 60.

(** A catalog in which B001 is marked downloaded, and collaborators for which
    the library folder holds nothing. *)
Definition downloaded_not_on_disk : Session :=
  mkSession {["B001" := sample_book "B001" true]} [] [] [] ∅ sample_settings.

Definition nothing_on_disk : DownloadsEnv :=
  mkDownloadsEnv "us" (fun _ => true)
    (fun a _ => Some (sample_book a false))
    (fun _ _ => false)
    (fun _ b => title b)
    (fun app _ _ _ _ _ _ _ => (app, Started true)).

(** A finished request for B001 that is queued again, and a cache whose only
    entry was fetched at time 10 with a time-to-live of 60, read at time 100. *)
Definition stale_request : AudiobookRequest :=
  mkAudiobookRequest "B001" "system" "completed" 1%Q (Some "abc") (Some "uploading") None.

Definition requeue_session : Session :=
  mkSession {["B001" := sample_book "B001" false]} [stale_request] [] [] ∅ sample_settings.

Definition expired_cache_app : App :=
  mkApp requeue_session (mkQbittorrent true [] [])
    (mkSourceCache 100 {["Y" := mkCacheEntry 10 [mkProwlarrSource "g" 1%Z "Y"]]}).

Definition sample_body : DownloadSourceBody := mkDownloadSourceBody "g" 1%Z false None.

(** The cache key [start_download_source] derives (downloads.py 300-301),
    after [get_system_user] has run. *)
Definition rederived_cache_key (E : DownloadsEnv) (app : App) (a : string) : string :=
  let session := (get_system_user (app_session app)).1 in
  match audiobooks session !! a with
  | Some b => build_prowlarr_query E session b
  | None => ""
  end.

(** ** Paths (posixpath) *)

Definition isabs (p : string) : bool := startswith p "/".

(** [os.path.join(a, b)] *)
Definition path_join (a b : string) : string :=
  if isabs b then b
  else if String.eqb a "" || endswith a "/" then a +:+ b
  else a +:+ "/" +:+ b.

(** One component of [normpath] on an absolute path: empty and "."
    components are dropped, ".." drops the last component kept so far (and
    is itself dropped at the root). *)
Definition norm_step (acc : list string) (comp : string) : list string :=
  if String.eqb comp "" || String.eqb comp "." then acc
  else if String.eqb comp ".." then removelast acc
  else acc ++ [comp].

(** The components of [os.path.abspath(p)], with [cwd] the components of the
    working directory. *)
Definition resolve (cwd : list string) (p : string) : list string :=
  fold_left norm_step (split_on "/" p) (if isabs p then [] else cwd).

(** [normpath] keeps exactly two leading slashes. *)
Definition double_slash (p : string) : bool :=
  startswith p "//" && negb (startswith p "///").

(** [os.path.abspath(p)]: the string "/" (or "//") followed by the
    components joined with "/" is represented by the flag and the
    components. *)
Definition abspath (cwd : list string) (p : string) : bool * list string :=
  (double_slash p, resolve cwd p).

Definition abspath_eqb (x y : bool * list string) : bool :=
  Bool.eqb x.1 y.1 && bool_decide (x.2 = y.2).

(** Head (with its final slash) and tail of a path at its last slash. *)
Fixpoint split_last (p : string) : string * string :=
  match p with
  | EmptyString => ("", "")
  | String c p' =>
      let (h, t) := split_last p' in
      if Ascii.eqb c "/" then (String c h, t)
      else if String.eqb h "" then ("", String c t)
      else (String c h, t)
  end.

Fixpoint rstrip_slash (s : string) : string :=
  match s with
  | EmptyString => ""
  | String c s' =>
      let r := rstrip_slash s' in
      if String.eqb r "" && Ascii.eqb c "/" then "" else String c r
  end.

(** [os.path.dirname], [os.path.basename] *)
Definition dirname (p : string) : string :=
  let h := (split_last p).1 in
  if String.eqb (rstrip_slash h) "" then h else rstrip_slash h.

Definition basename (p : string) : string := (split_last p).2.

(** Text before the last "." and the text from it on. *)
Fixpoint split_last_dot (s : string) : string * string :=
  match s with
  | EmptyString => ("", "")
  | String c s' =>
      let (h, t) := split_last_dot s' in
      if String.eqb t "" then
        if Ascii.eqb c "." then ("", String c s') else (String c h, "")
      else (String c h, t)
  end.

Fixpoint all_dots (s : string) : bool :=
  match s with
  | EmptyString => true
  | String c s' => Ascii.eqb c "." && all_dots s'
  end.

(** [os.path.splitext(p)[1]]: the extension of the last component, none when
    only dots precede the last dot. *)
Definition splitext_ext (p : string) : string :=
  let (h, t) := split_last_dot (basename p) in
  if all_dots h then "" else t.

(** [os.path.relpath(path, start)] from the resolved components. *)
Fixpoint common_prefix_length (a b : list string) : nat :=
  match a, b with
  | x :: a', y :: b' => if String.eqb x y then S (common_prefix_length a' b') else 0
  | _, _ => 0
  end.

Definition relpath (cwd : list string) (path start : string) : string :=
  let start_list := resolve cwd start in
  let path_list := resolve cwd path in
  let i := common_prefix_length start_list path_list in
  let rel_list := (repeat ".." (length start_list - i) ++ drop i path_list)%list in
  match rel_list with
  | [] => "."
  | _ => str_join "/" rel_list
  end.

Definition audio_extensions : list string :=
  [".m4b"; ".mp3"; ".m4a"; ".flac"; ".wav"; ".ogg"; ".opus"; ".aac"; ".wma"].

(** [any(file.lower().endswith(ext) for ext in [...])] *)
Definition is_audio (file : string) : bool :=
  existsb (endswith (lower file)) audio_extensions.

(** ** File system

    A node is a directory or a file with an inode; contents live in the inode
    table, so the hard links of a file share them.  The root directory is
    the empty list of components and always exists. *)

Inductive node := Dir | File (ino : nat).

Record FS := mkFS {
  cwd : list string;
  tree : gmap (list string) node;
  data : gmap nat string;
  next_ino : nat;
  (* whether a link to the file at the first resolved path can be made at
     the second: both on one device, on a file system that has hard links *)
  can_link : list string -> list string -> bool
}.

Inductive exn :=
  | FileNotFoundError | FileExistsError | IsADirectoryError
  | NotADirectoryError | PermissionError | SameFileError | OSError | ShutilError.

Definition is_dir_node (n : node) : bool :=
  match n with Dir => true | File _ => false end.

Definition set_tree (fs : FS) (t : gmap (list string) node) : FS :=
  mkFS (cwd fs) t (data fs) (next_ino fs) (can_link fs).

Definition node_at (fs : FS) (comps : list string) : option node :=
  match comps with
  | [] => Some Dir
  | _ => tree fs !! comps
  end.

(** What a system call finds at path [p]; the empty path names nothing. *)
Definition stat (fs : FS) (p : string) : option node :=
  if String.eqb p "" then None else node_at fs (resolve (cwd fs) p).

Definition exists_ (fs : FS) (p : string) : bool :=
  match stat fs p with Some _ => true | None => false end.

Definition isdir (fs : FS) (p : string) : bool :=
  match stat fs p with Some Dir => true | _ => false end.

Definition parent_is_dir (fs : FS) (comps : list string) : bool :=
  match comps with
  | [] => false
  | _ => match node_at fs (removelast comps) with Some Dir => true | _ => false end
  end.

Definition content (fs : FS) (i : nat) : string := default "" (data fs !! i).

(** Entries of the directory with components [comps], by name. *)
Definition child_name (comps k : list string) : option string :=
  if bool_decide (k <> [] /\ removelast k = comps) then last k else None.

Definition entries_of (fs : FS) (comps : list string) : list (string * node) :=
  omap (fun kn => (fun name => (name, kn.2)) <$> child_name comps kn.1)
       (map_to_list (tree fs)).

(** [os.scandir(p)]: the names of the sub-directories and of the other
    entries of [p]; [None] when [p] cannot be listed. *)
Definition scandir (fs : FS) (p : string) : option (list string * list string) :=
  match stat fs p with
  | Some Dir =>
      let es := entries_of fs (resolve (cwd fs) p) in
      Some (map fst (filter (fun e => is_dir_node e.2 = true) es),
            map fst (filter (fun e => is_dir_node e.2 = false) es))
  | _ => None
  end.

(** [os.listdir(p)] *)
Definition listdir (fs : FS) (p : string) : option (list string) :=
  match stat fs p with
  | Some Dir => Some (map fst (entries_of fs (resolve (cwd fs) p)))
  | _ => None
  end.

(** [os.makedirs(p, exist_ok=True)] on the resolved path: every missing
    directory from the root down is created; a file in the way raises; the
    empty path raises. *)
Fixpoint makedirs_from (base rest : list string) (t : gmap (list string) node)
    : gmap (list string) node * option exn :=
  match rest with
  | [] => (t, None)
  | c :: rest' =>
      let p := base ++ [c] in
      match t !! p with
      | Some Dir => makedirs_from p rest' t
      | Some (File _) =>
          (t, Some (match rest' with [] => FileExistsError | _ => NotADirectoryError end))
      | None => makedirs_from p rest' (<[p := Dir]> t)
      end
  end.

Definition os_makedirs (fs : FS) (p : string) : FS * option exn :=
  if String.eqb p "" then (fs, Some FileNotFoundError)
  else
    let (t, e) := makedirs_from [] (resolve (cwd fs) p) (tree fs) in
    (set_tree fs t, e).

(** [os.link(src, dst)]: besides a source that is no file, a destination
    that exists and a missing parent directory, the link is refused with an
    [OSError] where the file system cannot make it (another device, no hard
    links). *)
Definition os_link (fs : FS) (src dst : string) : FS * option exn :=
  match stat fs src with
  | Some (File i) =>
      match stat fs dst with
      | Some _ => (fs, Some FileExistsError)
      | None =>
          let d := resolve (cwd fs) dst in
          if negb (String.eqb dst "") && parent_is_dir fs d
          then
            if can_link fs (resolve (cwd fs) src) d
            then (set_tree fs (<[d := File i]> (tree fs)), None)
            else (fs, Some OSError)
          else (fs, Some FileNotFoundError)
      end
  | Some Dir => (fs, Some PermissionError)
  | None => (fs, Some FileNotFoundError)
  end.

(** [os.remove(p)] *)
Definition os_remove (fs : FS) (p : string) : FS * option exn :=
  match stat fs p with
  | Some (File _) => (set_tree fs (delete (resolve (cwd fs) p) (tree fs)), None)
  | Some Dir => (fs, Some IsADirectoryError)
  | None => (fs, Some FileNotFoundError)
  end.

(** Writing [bytes] to the file at [p], as [open(p, "wb")] and a write do:
    an existing file keeps its inode, a new one gets a fresh inode. *)
Definition write_file (fs : FS) (p : string) (bytes : string) : FS * option exn :=
  match stat fs p with
  | Some (File j) =>
      (mkFS (cwd fs) (tree fs) (<[j := bytes]> (data fs)) (next_ino fs) (can_link fs),
       None)
  | Some Dir => (fs, Some IsADirectoryError)
  | None =>
      let d := resolve (cwd fs) p in
      if negb (String.eqb p "") && parent_is_dir fs d
      then (mkFS (cwd fs) (<[d := File (next_ino fs)]> (tree fs))
              (<[next_ino fs := bytes]> (data fs)) (S (next_ino fs)) (can_link fs),
            None)
      else (fs, Some FileNotFoundError)
  end.

(** [shutil.copy2(src, dst)]: into the directory when [dst] is one; the
    same file raises [SameFileError]; the source is opened before the
    destination. *)
Definition shutil_copy2 (fs : FS) (src dst : string) : FS * option exn :=
  let dst := if isdir fs dst then path_join dst (basename src) else dst in
  match stat fs src with
  | Some (File i) =>
      match stat fs dst with
      | Some (File j) =>
          if (i =? j)%nat then (fs, Some SameFileError)
          else write_file fs dst (content fs i)
      | _ => write_file fs dst (content fs i)
      end
  | Some Dir => (fs, Some IsADirectoryError)
  | None => (fs, Some FileNotFoundError)
  end.

(** [os.rmdir(p)] *)
Definition os_rmdir (fs : FS) (p : string) : FS * option exn :=
  match stat fs p with
  | Some Dir =>
      let d := resolve (cwd fs) p in
      match d, entries_of fs d with
      | _ :: _, [] => (set_tree fs (delete d (tree fs)), None)
      | _, _ => (fs, Some OSError)
      end
  | Some (File _) => (fs, Some NotADirectoryError)
  | None => (fs, Some FileNotFoundError)
  end.

(** [shutil.move(src, dst)] of a file within one file system: into the
    directory when [dst] is one (raising when the name is taken there),
    otherwise a rename that replaces an existing file and does nothing when
    both names are links to one file. *)
Definition shutil_move (fs : FS) (src dst : string) : FS * option exn :=
  let into_dir := isdir fs dst in
  let real_dst := if into_dir then path_join dst (basename src) else dst in
  if into_dir && exists_ fs real_dst then (fs, Some ShutilError)
  else
    match stat fs src with
    | Some (File i) =>
        let s := resolve (cwd fs) src in
        let d := resolve (cwd fs) real_dst in
        match stat fs real_dst with
        | Some Dir => (fs, Some IsADirectoryError)
        | Some (File j) =>
            if (i =? j)%nat then (fs, None)
            else (set_tree fs (<[d := File i]> (delete s (tree fs))), None)
        | None =>
            if negb (String.eqb real_dst "") && parent_is_dir fs d
            then (set_tree fs (<[d := File i]> (delete s (tree fs))), None)
            else (fs, Some FileNotFoundError)
        end
    | Some Dir => (fs, Some OSError)
    | None => (fs, Some FileNotFoundError)
    end.

(** ** smart_copy (processor.py 25-51) *)

(** The copy-and-maybe-remove end of [smart_copy] (processor.py 49-51). *)
Definition copy_then_remove (fs : FS) (src dst : string) (delete_source : bool)
    : FS * option exn :=
  match shutil_copy2 fs src dst with
  | (fs, Some e) => (fs, Some e)
  | (fs, None) => if delete_source then os_remove fs src else (fs, None)
  end.

Definition smart_copy (fs : FS) (src dst : string) (use_hardlinks delete_source : bool)
    : FS * option exn :=
  if abspath_eqb (abspath (cwd fs) src) (abspath (cwd fs) dst) then (fs, None)
  else
    match os_makedirs fs (dirname dst) with
    | (fs, Some e) => (fs, Some e)
    | (fs, None) =>
        if use_hardlinks then
          match os_link fs src dst with
          | (fs, None) => if delete_source then
                            match os_remove fs src with
                            | (fs, None) => (fs, None)
                            | (fs, Some _) => copy_then_remove fs src dst delete_source
                            end
                          else (fs, None)
          | (fs, Some _) => copy_then_remove fs src dst delete_source
          end
        else copy_then_remove fs src dst delete_source
    end.

(** Directories of [fs] are still directories of [fs'], under the same
    working directory. *)
Definition dirs_preserved (fs fs' : FS) : Prop :=
  cwd fs' = cwd fs /\
  forall k, tree fs !! k = Some Dir -> tree fs' !! k = Some Dir.

(** A download folder with one audio file and an empty library. *)
Definition sample_fs : FS :=
  mkFS []
    (list_to_map [(["dl"], Dir); (["dl"; "a.mp3"], File 0); (["lib"], Dir)])
    {[0 := "AUDIO"]} 1 (fun _ _ => true).

(** The same, with the library on another device than the download folder:
    no link can be made. *)
Definition other_device_fs : FS :=
  mkFS []
    (list_to_map [(["dl"], Dir); (["dl"; "a.mp3"], File 0); (["lib"], Dir)])
    {[0 := "AUDIO"]} 1 (fun _ _ => false).

(** The state [r] holds the file of inode [i] of [fs1] at [dst], as a
    transfer leaves it: [dst] is a file with that content, the source is gone
    after a move and otherwise still there. *)
Definition transferred (fs1 r : FS) (src dst : string) (del : bool) (i j : nat) : Prop :=
  dirs_preserved fs1 r /\
  stat r dst = Some (File j) /\
  content r j = content fs1 i /\
  (if del then stat r src = None
   else stat r src = Some (File i) /\ (j = i \/ data r !! j = Some (content r i))).

(** ** os.walk

    [walk_topdown] lists a directory tree as [os.walk(top)] yields it:
    [(root, dirs, files)] for [top], then the walks of its sub-directories in
    listing order; a path that cannot be listed yields nothing.  The depth
    bound is the depth of the deepest entry, which no directory exceeds. *)
Definition max_depth (fs : FS) : nat :=
  foldr Nat.max 0 (map (fun kn => length kn.1) (map_to_list (tree fs))).

Definition walk_entry : Type := string * list string * list string.

Fixpoint walk_topdown (depth : nat) (fs : FS) (top : string) : list walk_entry :=
  match depth with
  | O => []
  | S depth' =>
      match scandir fs top with
      | None => []
      | Some (dirs, files) =>
          (top, dirs, files) ::
          flat_map (fun name => walk_topdown depth' fs (path_join top name)) dirs
      end
  end.

(** [os.walk(top, topdown=False)]: a directory after its sub-directories. *)
Fixpoint walk_bottomup (depth : nat) (fs : FS) (top : string) : list walk_entry :=
  match depth with
  | O => []
  | S depth' =>
      match scandir fs top with
      | None => []
      | Some (dirs, files) =>
          flat_map (fun name => walk_bottomup depth' fs (path_join top name)) dirs
          ++ [(top, dirs, files)]
      end
  end.

Definition os_walk (fs : FS) (top : string) : list walk_entry :=
  walk_topdown (S (max_depth fs)) fs top.

Definition os_walk_bottomup (fs : FS) (top : string) : list walk_entry :=
  walk_bottomup (S (max_depth fs)) fs top.

(** The audio files below [top], as the two nested loops over [os.walk]
    collect them (processor.py 169-185 and 353-369). *)
Definition audio_files_under (fs : FS) (top : string) : list string :=
  flat_map
    (fun e : walk_entry =>
       let '(root, _, files) := e in
       map (path_join root) (List.filter is_audio files))
    (os_walk fs top).

(** ** Collaborators of processor.py *)

Record ProcessorEnv := mkProcessorEnv {
  (* app.internal.library.service *)
  get_book_folder_path : Session -> Audiobook -> string;
  generate_audiobook_filename : Audiobook -> string -> string -> string -> string;
  (* app.util.sort: the order [natural_sort] leaves the list in *)
  natural_sort : list string -> list string;
  (* LibraryScanner(id).scan: the state it leaves, and the message of the
     exception it raised, if any; the processor names it at line 95-96 and
     never reaches it (see [process_completed_download]) *)
  scan : nat -> Session * FS -> Session * FS * option string;
  (* fetch_mam_book_details: the series of the result; None when there is
     no result or the lookup raised *)
  fetch_mam_book_details : Session -> string -> option string;
  _normalize_series : string -> list string * option string;
  (* app.internal.metadata *)
  generate_abs_metadata : Audiobook -> string -> option string -> FS -> FS;
  generate_opf_metadata : Session -> Audiobook -> string -> option string -> FS -> FS;
  (* GET of a URL: status and body; None when the request raised *)
  http_get : string -> option (nat * string);
  (* LibraryScanner.find_book_path_by_asin *)
  find_book_path_by_asin : FS -> string -> string -> option string;
  (* the interpreter: [str(e)] of the UnboundLocalError it raises when the
     local name [aiohttp] is read before it is bound; the wording differs
     between versions *)
  unbound_local_text : string
}.

(** What a call of the processor leaves behind. *)
Record Run := mkRun {
  run_session : Session;
  run_fs : FS;
  run_request : AudiobookRequest;        (* the request object at the end *)
  run_commits : list AudiobookRequest;   (* the request as each commit wrote it *)
  run_log : list string;                 (* messages given to [logger] *)
  run_raised : option exn                (* the exception that ended the call *)
}.

(** [session.add(book_request); session.commit()] *)
Definition commit_run (r : Run) (req : AudiobookRequest) : Run :=
  mkRun (commit_request (run_session r) req) (run_fs r) req
    (run_commits r ++ [req]) (run_log r) (run_raised r).

Definition with_session (r : Run) (s : Session) : Run :=
  mkRun s (run_fs r) (run_request r) (run_commits r) (run_log r) (run_raised r).

Definition with_fs (r : Run) (fs : FS) : Run :=
  mkRun (run_session r) fs (run_request r) (run_commits r) (run_log r) (run_raised r).

Definition with_log (r : Run) (msg : string) : Run :=
  mkRun (run_session r) (run_fs r) (run_request r) (run_commits r)
    (run_log r ++ [msg]) (run_raised r).

Definition raising (r : Run) (e : exn) : Run :=
  mkRun (run_session r) (run_fs r) (run_request r) (run_commits r) (run_log r) (Some e).

(** [f"{author}/{book.title} ({year})"] *)
Definition default_folder (book : Audiobook) : string :=
  let author := match authors book with a :: _ => a | [] => "Unknown" end in
  let year := match release_year book with Some y => str_of_nat y | None => "Unknown" end in
  author +:+ "/" +:+ title book +:+ " (" +:+ year +:+ ")".

(** processor.py 128-130 and 334-336 *)
Definition folder_rel_path (P : ProcessorEnv) (session : Session) (book : Audiobook) : string :=
  let p := get_book_folder_path P session book in
  if String.eqb p "" then default_folder book else p.

(** processor.py 166-190 *)
Definition audio_files_to_process (P : ProcessorEnv) (fs : FS) (download_path : string)
    : list string :=
  match split_on "|" download_path with
  | [top] =>
      if isdir fs top then natural_sort P (audio_files_under fs top)
      else List.filter (fun p => exists_ fs p && negb (isdir fs p)) [top]
  | source_paths =>
      List.filter (fun p => exists_ fs p && negb (isdir fs p)) source_paths
  end.

(** processor.py 192-230: the enrichment is tried when the request carries a
    [mam_id]; whatever goes wrong in it is swallowed. *)
Definition enrich_from_mam (P : ProcessorEnv) (session : Session) (book : Audiobook)
    (book_request : AudiobookRequest) : Session * Audiobook * option string :=
  match mam_id book_request with
  | None => (session, book, None)
  | Some id =>
      if String.eqb id "" then (session, book, None)
      else
        match fetch_mam_book_details P session id with
        | None => (session, book, None)
        | Some mam_series_raw =>
            let index_missing :=
              match series_index book with
              | None => true
              | Some i => String.eqb i ""
              end in
            if index_missing then
              let '(mam_series, mam_index) := _normalize_series P mam_series_raw in
              let book :=
                match mam_index with
                | Some i => if String.eqb i "" then book else set_series_index book (Some i)
                | None => book
                end in
              let book :=
                match series book, mam_series with
                | [], _ :: _ => set_series book mam_series
                | _, _ => book
                end in
              (commit_book session book, book, Some mam_series_raw)
            else (session, book, Some mam_series_raw)
        end
  end.

(** [0.90 + (idx / total_files * 0.02)] *)
Definition copy_progress (idx total_files : nat) : Q :=
  ((9 # 10) + (inject_Z (Z.of_nat idx) / inject_Z (Z.of_nat total_files)) * (2 # 100))%Q.

(** ** process_completed_download (processor.py 54-307) *)

(** [media_management_config.get_library_path(session)], falsy when unset
    or empty. *)
Definition get_library_path (session : Session) : option string :=
  match library_path (settings session) with
  | Some p => if String.eqb p "" then None else Some p
  | None => None
  end.

Definition fresh_import_id (session : Session) : nat :=
  S (foldr Nat.max 0 (map import_id (import_sessions session))).

(** Writing the status of an import session object back to its row. *)
Definition commit_import_status (session : Session) (id : nat)
    (st : ImportSessionStatus) : Session :=
  set_import_sessions session
    (map (fun r => if (import_id r =? id)%nat
                   then mkLibraryImportSession (import_id r) (root_path r) st
                   else r)
         (import_sessions session)).

(** The loop over the audio files (processor.py 235-247); an exception of
    [smart_copy] ends the call. *)
Fixpoint copy_and_rename (P : ProcessorEnv) (book : Audiobook) (pattern dest_path : string)
    (use_hardlinks delete_source : bool) (total_files : nat)
    (todo : list (nat * string)) (run : Run) : Run :=
  match todo with
  | [] => run
  | (idx, s_path) :: todo' =>
      let ext := lower (splitext_ext s_path) in
      let part_str := part_str_process total_files idx in
      let new_filename := generate_audiobook_filename P book pattern part_str ext in
      let d_path := path_join dest_path new_filename in
      match smart_copy (run_fs run) s_path d_path use_hardlinks delete_source with
      | (fs, Some e) => raising (with_fs run fs) e
      | (fs, None) =>
          let req := set_download_progress (run_request run)
                       (copy_progress idx total_files) in
          copy_and_rename P book pattern dest_path use_hardlinks delete_source
            total_files todo' (commit_run (with_fs run fs) req)
      end
  end.

(** processor.py 268-295 *)
Definition save_cover (P : ProcessorEnv) (book : Audiobook) (dest_path url : string)
    (run : Run) : Run :=
  let req := set_download_progress
               (set_processing_status (run_request run) "saving_cover") (98 # 100)%Q in
  let a := asin (run_request run) in
  let u := user_username (run_request run) in
  let run := with_session run
               (log_request_event (run_session run) a u "Saving cover image." info) in
  let run := commit_run run req in
  match http_get P url with
  | Some (status_code, bytes) =>
      if (status_code =? 200)%nat then
        let ext := splitext_ext (hd "" (split_on "?" url)) in
        let cover_ext := if String.eqb ext "" then ".jpg" else ext in
        let cover_path := path_join dest_path ("cover" +:+ cover_ext) in
        with_fs run (write_file (run_fs run) cover_path bytes).1
      else run
  | None => run
  end.

(** processor.py 249-307: after the files are in place. *)
Definition finish_single_book (P : ProcessorEnv) (book : Audiobook)
    (dest_path : string) (mam_result : option string) (run : Run) : Run :=
  let a := asin (run_request run) in
  let u := user_username (run_request run) in
  let book := set_downloaded book true in
  let run := with_session run (commit_book (run_session run) book) in
  let req := set_download_progress
               (set_processing_status (run_request run) "generating_metadata")
               (95 # 100)%Q in
  let run := with_session run
               (log_request_event (run_session run) a u "Generating metadata files." info) in
  let run := commit_run run req in
  let run := with_fs run (generate_abs_metadata P book dest_path mam_result (run_fs run)) in
  let run := with_fs run
               (generate_opf_metadata P (run_session run) book dest_path mam_result
                  (run_fs run)) in
  let run := match cover_image book with
             | Some url => if String.eqb url "" then run
                           else save_cover P book dest_path url run
             | None => run
             end in
  let req := set_download_progress
               (set_processing_status (run_request run) "completed") 1%Q in
  let run := with_session run
               (log_request_event (run_session run) a u "Import completed." info) in
  commit_run run req.

Definition process_completed_download (P : ProcessorEnv) (session : Session) (fs : FS)
    (book_request : AudiobookRequest) (download_path : string)
    (delete_source collection : bool) (collection_label : option string) : Run :=
  let run := mkRun session fs book_request [] [] None in
  let a := asin book_request in
  let u := user_username book_request in
  match audiobooks session !! a with
  | None => with_log run "Processor: Book not found in database"
  | Some book =>
  match get_library_path session with
  | None => with_log run "Processor: Library path not configured"
  | Some lib_root =>
  if collection then
    let label := match collection_label with
                 | Some l => if String.eqb l "" then "collection" else l
                 | None => "collection"
                 end in
    let session :=
      log_request_event session a u
        ("Collection download completed. Scanning folder for books (" +:+ label +:+ ")")
        info in
    let id := fresh_import_id session in
    let import_session := mkLibraryImportSession id download_path scanning in
    let session :=
      set_import_sessions session (import_sessions session ++ [import_session]) in
    (* Line 94 reads [aiohttp].  The imports at lines 203 and 281 make
       [aiohttp] a local name of the whole function, and neither has run:
       the read raises UnboundLocalError inside the [try], before the
       scanner is built.  Lines 95-104 are never reached; the handler at
       105-117 runs. *)
    let msg := unbound_local_text P in
    let session := commit_import_status session id failed in
    let run := with_log (with_session run session) "Processor: Collection scan failed" in
    let run :=
      with_session run
        (log_request_event session a u ("Collection scan failed: " +:+ msg) error) in
    commit_run run (set_processing_status book_request "completed")
  else
    let dest_path := path_join lib_root (folder_rel_path P session book) in
    match os_makedirs fs dest_path with
    | (fs, Some e) => raising (with_fs run fs) e
    | (fs, None) =>
    let complete_action := qbit_complete_action (settings session) in
    let use_hardlinks := String.eqb complete_action "hardlink" in
    let delete_source := delete_source || String.eqb complete_action "move" in
    let delete_source := if collection then false else delete_source in
    let pattern := file_pattern (settings session) in
    let run := with_log (with_fs run fs) "Processor: Organizing and renaming files" in
    let req := set_processing_status book_request "organizing_files" in
    let run := with_session run
                 (log_request_event session a u "Organizing and renaming files." info) in
    let run := commit_run run req in
    let audio := audio_files_to_process P fs download_path in
    let '(session, book, mam_result) :=
      enrich_from_mam P (run_session run) book req in
    let run := with_session run session in
    let total_files := length audio in
    let run := copy_and_rename P book pattern dest_path use_hardlinks delete_source
                 total_files (enumerate1 audio) run in
    match run_raised run with
    | Some _ => run
    | None => finish_single_book P book dest_path mam_result run
    end
    end
  end
  end.

(** The status the import session [id] has in a database. *)
Definition import_status (session : Session) (id : nat) : option ImportSessionStatus :=
  status <$> find (fun r => (import_id r =? id)%nat) (import_sessions session).

(** The database with which the collection branch enters its [try] block
    (processor.py 77-91), and in which it would hand over to the scanner. *)
Definition session_before_scan (session : Session) (book_request : AudiobookRequest)
    (download_path : string) (collection_label : option string) : Session :=
  let label := match collection_label with
               | Some l => if String.eqb l "" then "collection" else l
               | None => "collection"
               end in
  let session :=
    log_request_event session (asin book_request) (user_username book_request)
      ("Collection download completed. Scanning folder for books (" +:+ label +:+ ")")
      info in
  set_import_sessions session
    (import_sessions session ++
     [mkLibraryImportSession (fresh_import_id session) download_path scanning]).

(** The sentence of the specification on the collection branch, as to the
    status of the import session: the scan collaborator is run, and the
    session is completed when the scan returns, failed when it raises. *)
Definition collection_status_as_stated (P : ProcessorEnv) (session : Session) (fs : FS)
    (book_request : AudiobookRequest) (download_path : string)
    (delete_source : bool) (collection_label : option string) : Prop :=
  is_Some (audiobooks session !! asin book_request) ->
  is_Some (get_library_path session) ->
  let run := process_completed_download P session fs book_request download_path
               delete_source true collection_label in
  let id := fresh_import_id session in
  forall s2 fs2 outcome,
    scan P id (session_before_scan session book_request download_path collection_label, fs)
      = (s2, fs2, outcome) ->
    import_status (run_session run) id =
      Some (match outcome with None => completed | Some _ => failed end).

(** Collaborators that do nothing: a scan that returns at once and leaves
    database and files alone. *)
Definition idle_processor : ProcessorEnv :=
  mkProcessorEnv (fun _ _ => "") (fun b _ part ext => title b +:+ " " +:+ part +:+ ext)
    (fun l => l) (fun _ st => (st, None)) (fun _ _ => None) (fun _ => ([], None))
    (fun _ _ _ fs => fs) (fun _ _ _ _ fs => fs) (fun _ => None) (fun _ _ _ => None)
    "cannot access local variable 'aiohttp' where it is not associated with a value".

Definition collection_session : Session :=
  mkSession {["B001" := sample_book "B001" false]}
    [mkAudiobookRequest "B001" "system" "downloading" (9 # 10)%Q (Some "abc") None None]
    [] [] ∅
    (mkSettings (Some "/lib") "{title}" "move" true false false 60).

Definition collection_request : AudiobookRequest :=
  mkAudiobookRequest "B001" "system" "downloading" (9 # 10)%Q (Some "abc") None None.

Definition no_catalog_session : Session :=
  mkSession ∅ [collection_request] [] [] ∅ sample_settings.

(** The values the single-book branch writes to [download_progress], in
    order: one per transferred file, then metadata generation, the cover
    (when the book has a cover image) and completion. *)
Definition copy_values (total_files : nat) : list Q :=
  map (fun idx => copy_progress idx total_files) (seq 1 total_files).

Definition progress_updates (total_files : nat) (cover : bool) : list Q :=
  copy_values total_files ++
  [(95 # 100)%Q] ++ (if cover then [(98 # 100)%Q] else []) ++ [1%Q].

Definition has_cover (book : Audiobook) : bool :=
  match cover_image book with
  | Some url => negb (String.eqb url "")
  | None => false
  end.

Definition single_book_session : Session :=
  mkSession {["B001" := sample_book "B001" false]} [collection_request] [] [] ∅
    sample_settings.

(** The catalog record and the file system with which the single-book
    branch reaches its first commit (processor.py 65-133); [None] when the
    call ends before, without a commit. *)
Definition single_book_start (P : ProcessorEnv) (session : Session) (fs : FS)
    (book_request : AudiobookRequest) : option (Audiobook * FS) :=
  match audiobooks session !! asin book_request with
  | None => None
  | Some book =>
      match get_library_path session with
      | None => None
      | Some lib_root =>
          match os_makedirs fs (path_join lib_root (folder_rel_path P session book)) with
          | (fs1, None) => Some (book, fs1)
          | (_, Some _) => None
          end
      end
  end.

(** The sentence of the specification on progress, as it is written: over
    the commits of a run of the single-book branch, download_progress never
    decreases. *)
Definition progress_monotone_as_stated (P : ProcessorEnv) (session : Session) (fs : FS)
    (book_request : AudiobookRequest) (download_path : string) : Prop :=
  StronglySorted Qle
    (map download_progress
       (run_commits (process_completed_download P session fs book_request download_path
                       false false None))).

(** A download folder with three audio files, and a request that an earlier
    run left after its second file: in organizing_files with progress
    0.90 + (2/3)*0.02. *)
Definition three_files_fs : FS :=
  mkFS []
    (list_to_map [(["dl"], Dir); (["dl"; "a.mp3"], File 0); (["dl"; "b.mp3"], File 1);
                  (["dl"; "c.mp3"], File 2); (["lib"], Dir)])
    {[0 := "A"; 1 := "B"; 2 := "C"]} 3 (fun _ _ => true).

Definition retry_request : AudiobookRequest :=
  mkAudiobookRequest "B001" "system" "organizing_files" (137 # 150)%Q (Some "abc") None None.

Definition retry_session : Session :=
  mkSession {["B001" := sample_book "B001" false]} [retry_request] [] [] ∅
    sample_settings.

(** ** reorganize_existing_book (processor.py 310-430) *)

(** State of the two moving loops: the file system, the moves performed by
    [shutil.move] so far, and the set [moved]. *)
Record ReorgState := mkReorgState {
  rs_fs : FS;
  rs_moves : list (string * string);
  rs_moved : gset string
}.

(** A loop body run over a list, ended by the first exception. *)
Fixpoint for_each {A S : Type} (body : A -> S -> S * option exn) (l : list A) (st : S)
    : S * option exn :=
  match l with
  | [] => (st, None)
  | x :: l' =>
      match body x st with
      | (st, Some e) => (st, Some e)
      | (st, None) => for_each body l' st
      end
  end.

(** [if os.path.abspath(s_path) != os.path.abspath(d_path): shutil.move(...)] *)
Definition move_unless_same (s_path d_path : string) (st : ReorgState)
    : ReorgState * option exn :=
  let c := cwd (rs_fs st) in
  if abspath_eqb (abspath c s_path) (abspath c d_path) then (st, None)
  else
    match shutil_move (rs_fs st) s_path d_path with
    | (fs, None) =>
        (mkReorgState fs (rs_moves st ++ [(s_path, d_path)]) (rs_moved st), None)
    | (fs, Some e) => (mkReorgState fs (rs_moves st) (rs_moved st), Some e)
    end.

(** The destination of the [idx]-th audio file (processor.py 378-383). *)
Definition audio_destination (P : ProcessorEnv) (book : Audiobook)
    (pattern dest_path : string) (audio_files : list string)
    (idx : nat) (s_path : string) : string :=
  let ext := lower (splitext_ext s_path) in
  let part_str := part_str_reorganize audio_files idx in
  path_join dest_path (generate_audiobook_filename P book pattern part_str ext).

(** Body of the first loop (processor.py 377-386); the state carries
    [new_audio_paths] in [rs_moved], which line 388 turns into [moved]. *)
Definition rename_audio (P : ProcessorEnv) (book : Audiobook)
    (pattern dest_path : string) (audio_files : list string)
    (item : nat * string) (st : ReorgState) : ReorgState * option exn :=
  let d_path := audio_destination P book pattern dest_path audio_files item.1 item.2 in
  match move_unless_same item.2 d_path st with
  | (st, Some e) => (st, Some e)
  | (st, None) =>
      (mkReorgState (rs_fs st) (rs_moves st) ({[d_path]} ∪ rs_moved st), None)
  end.

(** Body of the inner loop of the second walk (processor.py 390-400). *)
Definition relocate_other (source_path dest_path root : string)
    (f : string) (st : ReorgState) : ReorgState * option exn :=
  let s_path := path_join root f in
  if bool_decide (s_path ∈ rs_moved st) then (st, None)
  else
    let rel_dir := relpath (cwd (rs_fs st)) root source_path in
    let d_dir := if String.eqb rel_dir "." then dest_path
                 else path_join dest_path rel_dir in
    match os_makedirs (rs_fs st) d_dir with
    | (fs, Some e) => (mkReorgState fs (rs_moves st) (rs_moved st), Some e)
    | (fs, None) =>
        let d_path := path_join d_dir f in
        match move_unless_same s_path d_path
                (mkReorgState fs (rs_moves st) (rs_moved st)) with
        | (st, Some e) => (st, Some e)
        | (st, None) =>
            (mkReorgState (rs_fs st) (rs_moves st) ({[s_path]} ∪ rs_moved st), None)
        end
    end.

(** [for root, dirs, files in os.walk(top): body] where the body changes the
    file system: each directory is listed when the walk reaches it, so what
    the body did before is seen.  [fuel] bounds the depth of the walk;
    [None] when it is used up. *)
Fixpoint walk_subdirs
    (walk : string -> ReorgState -> option (ReorgState * option exn))
    (top : string) (names : list string) (st : ReorgState)
    : option (ReorgState * option exn) :=
  match names with
  | [] => Some (st, None)
  | name :: names' =>
      match walk (path_join top name) st with
      | None => None
      | Some (st, Some e) => Some (st, Some e)
      | Some (st, None) => walk_subdirs walk top names' st
      end
  end.

Fixpoint walk_lazy (fuel : nat)
    (body : walk_entry -> ReorgState -> ReorgState * option exn)
    (top : string) (st : ReorgState) : option (ReorgState * option exn) :=
  match fuel with
  | O => None
  | S fuel' =>
      match scandir (rs_fs st) top with
      | None => Some (st, None)
      | Some (dirs, files) =>
          match body (top, dirs, files) st with
          | (st, Some e) => Some (st, Some e)
          | (st, None) => walk_subdirs (walk_lazy fuel' body) top dirs st
          end
      end
  end.

(** Body of the clean-up loop (processor.py 403-410). *)
Definition remove_if_empty (dest_path : string) (fs : FS) (e : walk_entry) : FS :=
  let '(root, dirs, files) := e in
  if abspath_eqb (abspath (cwd fs) root) (abspath (cwd fs) dest_path) then fs
  else
    match dirs, files with
    | [], [] => (os_rmdir fs root).1
    | _, _ => fs
    end.

(** The string of an absolute path. *)
Definition abs_string (p : bool * list string) : string :=
  (if p.1 then "//" else "/") +:+ str_join "/" p.2.

Definition is_prefix_of (a b : list string) : bool :=
  bool_decide (take (length a) b = a).

(** [_prune_empty_parents] (processor.py 413-424) on absolute paths:
    [os.path.commonpath([path, stop_at]) == stop_at] holds when the
    components of [stop_at] begin those of [path] and [stop_at] has one
    leading slash; [os.path.dirname] drops the last component. *)
Fixpoint prune_loop (fuel : nat) (fs : FS) (path stop_at : bool * list string) : FS :=
  match fuel with
  | O => fs
  | S fuel' =>
      if negb stop_at.1 && is_prefix_of stop_at.2 path.2
         && negb (abspath_eqb path stop_at)
      then
        if isdir fs (abs_string path) &&
           match listdir fs (abs_string path) with Some [] => true | _ => false end
        then
          match os_rmdir fs (abs_string path) with
          | (fs, None) => prune_loop fuel' fs (path.1, removelast path.2) stop_at
          | (fs, Some _) => fs
          end
        else fs
      else fs
  end.

Definition _prune_empty_parents (fs : FS) (path stop_at : string) : FS :=
  let p := abspath (cwd fs) path in
  prune_loop (S (length p.2)) fs p (abspath (cwd fs) stop_at).

(** What a call of the reorganizer leaves behind. *)
Record Reorg := mkReorg {
  reorg_fs : FS;
  reorg_moves : list (string * string);   (* the calls of [shutil.move] *)
  reorg_raised : option exn
}.

(** [current_path or LibraryScanner.find_book_path_by_asin(lib_root, asin)] *)
Definition reorg_source_path (P : ProcessorEnv) (fs : FS) (book : Audiobook)
    (lib_root : string) (current_path : option string) : option string :=
  let found :=
    match find_book_path_by_asin P fs lib_root (book_asin book) with
    | Some p => if String.eqb p "" then None else Some p
    | None => None
    end in
  match current_path with
  | Some p => if String.eqb p "" then found else Some p
  | None => found
  end.

Definition reorganize_existing_book (fuel : nat) (P : ProcessorEnv)
    (session : Session) (fs : FS) (book : Audiobook) (current_path : option string)
    : option Reorg :=
  match get_library_path session with
  | None => Some (mkReorg fs [] None)
  | Some lib_root =>
  match reorg_source_path P fs book lib_root current_path with
  | None => Some (mkReorg fs [] None)
  | Some source_path =>
  let pattern := file_pattern (settings session) in
  let dest_path := path_join lib_root (folder_rel_path P session book) in
  let audio_files := natural_sort P (audio_files_under fs source_path) in
  match audio_files with
  | [] => Some (mkReorg fs [] None)
  | _ :: _ =>
  match os_makedirs fs dest_path with
  | (fs, Some e) => Some (mkReorg fs [] (Some e))
  | (fs, None) =>
  match for_each (rename_audio P book pattern dest_path audio_files)
          (enumerate1 audio_files) (mkReorgState fs [] ∅) with
  | (st, Some e) => Some (mkReorg (rs_fs st) (rs_moves st) (Some e))
  | (st, None) =>
  match walk_lazy fuel
          (fun e st => for_each (relocate_other source_path dest_path e.1.1) e.2 st)
          source_path st with
  | None => None
  | Some (st, Some e) => Some (mkReorg (rs_fs st) (rs_moves st) (Some e))
  | Some (st, None) =>
  let fs := rs_fs st in
  let fs := fold_left (remove_if_empty dest_path) (os_walk_bottomup fs source_path) fs in
  let fs :=
    if abspath_eqb (abspath (cwd fs) source_path) (abspath (cwd fs) dest_path) then fs
    else _prune_empty_parents fs source_path lib_root in
  let fs := generate_abs_metadata P book dest_path None fs in
  let fs := generate_opf_metadata P session book dest_path None fs in
  Some (mkReorg fs (rs_moves st) None)
  end end end end end end.

(** A name a directory entry can have. *)
Definition plain_name (n : string) : bool :=
  negb (String.eqb n "") && negb (String.eqb n ".") && negb (String.eqb n "..")
  && negb (str_in "/" n).

(** Every entry has a name and lies in a directory. *)
Definition wf_fs (fs : FS) : bool :=
  forallb
    (fun kn : list string * node =>
       match last kn.1 with
       | Some n => plain_name n && parent_is_dir fs kn.1
       | None => false
       end)
    (map_to_list (tree fs)).

Definition is_strict_prefix_of (a b : list string) : bool :=
  is_prefix_of a b && (length a <? length b)%nat.

(** No directory below [top] is empty. *)
Definition no_empty_directory_below (fs : FS) (top : string) : bool :=
  forallb
    (fun kn : list string * node =>
       match kn.2 with
       | Dir =>
           negb (is_strict_prefix_of (resolve (cwd fs) top) kn.1) ||
           match entries_of fs kn.1 with [] => false | _ :: _ => true end
       | File _ => true
       end)
    (map_to_list (tree fs)).

(** The audio files below [source_path] already have the paths the
    reorganizer computes for them. *)
Definition audio_in_place (P : ProcessorEnv) (session : Session) (fs : FS)
    (book : Audiobook) (source_path dest_path : string) : bool :=
  let audio_files := natural_sort P (audio_files_under fs source_path) in
  forallb
    (fun item : nat * string =>
       abspath_eqb (abspath (cwd fs) item.2)
         (abspath (cwd fs)
            (audio_destination P book (file_pattern (settings session)) dest_path
               audio_files item.1 item.2)))
    (enumerate1 audio_files).

Definition same_directories (fs fs' : FS) : Prop :=
  forall k, tree fs' !! k = Some Dir <-> tree fs !! k = Some Dir.

(** The sentence of the specification on a book that is already in place,
    as it is written: no move, and the directories as they were. *)
Definition reorganize_in_place_as_stated (fuel : nat) (P : ProcessorEnv)
    (session : Session) (fs : FS) (book : Audiobook) (current_path : option string)
    : Prop :=
  forall lib_root source_path,
    get_library_path session = Some lib_root ->
    reorg_source_path P fs book lib_root current_path = Some source_path ->
    let dest_path := path_join lib_root (folder_rel_path P session book) in
    abspath (cwd fs) source_path = abspath (cwd fs) dest_path ->
    audio_in_place P session fs book source_path dest_path = true ->
    exists r organized,
      reorganize_existing_book fuel P session fs book current_path = Some r /\
      reorg_moves r = [] /\
      (reorg_fs r = organized \/
       reorg_fs r =
         generate_opf_metadata P session book dest_path None
           (generate_abs_metadata P book dest_path None organized)) /\
      same_directories fs organized.

(** A library holding the book Y of author X in its canonical folder, with
    its audio file named as computed and an empty sub-directory. *)
Definition library_fs : FS :=
  mkFS []
    (list_to_map
       [(["lib"], Dir); (["lib"; "X"], Dir); (["lib"; "X"; "Y (2020)"], Dir);
        (["lib"; "X"; "Y (2020)"; "Y .mp3"], File 0);
        (["lib"; "X"; "Y (2020)"; "extras"], Dir)])
    {[0 := "AUDIO"]} 1 (fun _ _ => true).

(** The same library with a booklet in the sub-directory. *)
Definition library_fs_full : FS :=
  mkFS []
    (list_to_map
       [(["lib"], Dir); (["lib"; "X"], Dir); (["lib"; "X"; "Y (2020)"], Dir);
        (["lib"; "X"; "Y (2020)"; "Y .mp3"], File 0);
        (["lib"; "X"; "Y (2020)"; "extras"], Dir);
        (["lib"; "X"; "Y (2020)"; "extras"; "booklet.pdf"], File 1)])
    {[0 := "AUDIO"; 1 := "PDF"]} 2 (fun _ _ => true).

(** [root] is [top] followed by the names [names] of nested entries: it
    resolves below [top], with the same leading slashes. *)
Definition below (c : list string) (top root : string) (names : list string) : Prop :=
  resolve c root = resolve c top ++ names /\
  double_slash root = double_slash top /\
  root <> "" /\
  (names = [] -> root = top) /\
  forallb plain_name names = true.

(** What the second walk of the reorganizer keeps when nothing is to be
    moved: the file system and the empty list of moves. *)
Definition untouched (fs : FS) (st : ReorgState) : Prop :=
  rs_fs st = fs /\ rs_moves st = [].

(** ** downloads.py: reading endpoints *)

(** downloads.py 172-181 *)
Definition get_download (session : Session) (a : string) : response DownloadJob :=
  match audiobooks session !! a with
  | None => HTTPException 404 "Book not found"
  | Some book => Returned (_job_view book (_get_request session a))
  end.

Inductive DownloadFilter := filter_all | filter_downloaded | filter_not_downloaded.

Definition filter_keeps (f : DownloadFilter) (book : Audiobook) : bool :=
  match f with
  | filter_all => true
  | filter_downloaded => downloaded book
  | filter_not_downloaded => negb (downloaded book)
  end.

(** downloads.py 155-169: the requests joined with the catalog on the asin,
    in table order; a request without a catalog record has no row in the
    join. *)
Definition list_downloads (session : Session) (f : DownloadFilter) : list DownloadJob :=
  omap
    (fun req =>
       match audiobooks session !! asin req with
       | Some book =>
           if filter_keeps f book then Some (_job_view book (Some req)) else None
       | None => None
       end)
    (requests session).

(** Every catalog record is stored under its own asin. *)
Definition catalog_keyed (session : Session) : Prop :=
  forall a b, audiobooks session !! a = Some b -> book_asin b = a.


(** The book service answers a lookup of [a] with a record of [a]. *)
Definition fetches_asked_asin (E : DownloadsEnv) (a : string) : Prop :=
  forall region b, get_book_by_asin E a region = Some b -> book_asin b = a.

(** The region [create_download] looks the book up in (downloads.py 84-85). *)
Definition effective_region (E : DownloadsEnv) (region : option string) : string :=
  match region with Some r => r | None => get_region_from_settings E end.

(** A catalog with B001 whose file is on disk although the record is not
    marked downloaded, and one without record whose file is on disk. *)
Definition found_on_disk : DownloadsEnv :=
  mkDownloadsEnv "us" (fun _ => true)
    (fun a _ => Some (sample_book a false))
    (fun _ _ => true)
    (fun _ b => title b)
    (fun app _ _ _ _ _ _ _ => (app, Started true)).

Definition empty_session : Session :=
  mkSession ∅ [] [] [] ∅ sample_settings.

Definition auto_session : Session :=
  mkSession ∅ [] [] [] ∅ (mkSettings (Some "/lib") "{title}" "copy" true true false 60).


(** ** settings/prowlarr.py *)

(** The setters of [prowlarr_config] (app.internal.prowlarr.util), which
    write the database. *)
Record ProwlarrConfig := mkProwlarrConfig {
  set_api_key : Session -> string -> Session;
  set_base_url : Session -> string -> Session;
  set_categories : Session -> list Z -> Session;
  set_default_language : Session -> string -> Session;
  set_search_template : Session -> string -> Session
}.

(** prowlarr.py 50-57 *)
Definition update_prowlarr_api_key (C : ProwlarrConfig) (app : App) (api_key : string)
    : App * nat :=
  let session := set_api_key C (app_session app) api_key in
  (mkApp session (app_qbit app) (flush_prowlarr_cache (app_cache app)), 204%nat).

(** prowlarr.py 64-71 *)
Definition update_prowlarr_base_url (C : ProwlarrConfig) (app : App) (base_url : string)
    : App * nat :=
  let session := set_base_url C (app_session app) base_url in
  (mkApp session (app_qbit app) (flush_prowlarr_cache (app_cache app)), 204%nat).

(** prowlarr.py 78-85 *)
Definition update_indexer_categories (C : ProwlarrConfig) (app : App)
    (categories : list Z) : App * nat :=
  let session := set_categories C (app_session app) categories in
  (mkApp session (app_qbit app) (flush_prowlarr_cache (app_cache app)), 204%nat).

(** prowlarr.py 92-99 *)
Definition update_default_language (C : ProwlarrConfig) (app : App) (language : string)
    : App * nat :=
  let session := set_default_language C (app_session app) language in
  (mkApp session (app_qbit app) (flush_prowlarr_cache (app_cache app)), 204%nat).

(** prowlarr.py 106-113 *)
Definition update_search_template (C : ProwlarrConfig) (app : App) (template : string)
    : App * nat :=
  let session := set_search_template C (app_session app) template in
  (mkApp session (app_qbit app) (flush_prowlarr_cache (app_cache app)), 204%nat).

(** A request to start a download is answered 404 and nothing is started:
    the state is the one [get_system_user] leaves. *)
Definition answers_not_found (E : DownloadsEnv) (app : App) : Prop :=
  forall a body,
    let out := start_download_source E app a body in
    (exists detail, out.1.2 = HTTPException 404 detail) /\
    out.2 = [] /\
    out.1.1 = mkApp (get_system_user (app_session app)).1 (app_qbit app) (app_cache app).

(** Setters that store nothing, and a cache with a live entry for the book
    of [requeue_session]. *)
Definition idle_config : ProwlarrConfig :=
  mkProwlarrConfig (fun s _ => s) (fun s _ => s) (fun s _ => s) (fun s _ => s)
    (fun s _ => s).

Definition live_cache_app : App :=
  mkApp requeue_session (mkQbittorrent true [] [])
    (mkSourceCache 20 {["Y" := mkCacheEntry 10 [mkProwlarrSource "g" 1%Z "Y"]]}).


(** Every entry of [fs] other than [gone] is an entry of [fs'], with the
    same inode if it is a file, under the same working directory. *)
Definition entries_kept (gone : option (list string)) (fs fs' : FS) : Prop :=
  cwd fs' = cwd fs /\
  forall k n, tree fs !! k = Some n -> gone <> Some k -> tree fs' !! k = Some n.


(** ** The single-book branch of the processor *)

(** The request object [run] holds is a request of [a], and the request
    table is the table [rows] with that object written back. *)
Definition row_written (a : string) (rows : list AudiobookRequest) (run : Run) : Prop :=
  asin (run_request run) = a /\
  requests (run_session run) = write_back (run_request run) rows.

(** The tables the processor has no business with are those of [s]. *)
Definition same_other_tables (s s' : Session) : Prop :=
  users s' = users s /\ settings s' = settings s /\
  import_sessions s' = import_sessions s.

(** The metadata writers add or rewrite files and remove nothing. *)
Definition generators_keep_entries (P : ProcessorEnv) : Prop :=
  (forall b d m fs, entries_kept None fs (generate_abs_metadata P b d m fs)) /\
  (forall s b d m fs, entries_kept None fs (generate_opf_metadata P s b d m fs)).

(** Where the single-book branch puts the files (processor.py 128-133). *)
Definition process_dest_path (P : ProcessorEnv) (session : Session)
    (book : Audiobook) : option string :=
  match get_library_path session with
  | Some lib_root => Some (path_join lib_root (folder_rel_path P session book))
  | None => None
  end.


(** A download folder whose audio file cannot be copied: the name it is to
    get in the library is taken by a directory. *)
Definition blocked_fs : FS :=
  mkFS []
    (list_to_map [(["dl"], Dir); (["dl"; "a.mp3"], File 0); (["lib"], Dir);
                  (["lib"; "X"], Dir); (["lib"; "X"; "Y (2020)"], Dir);
                  (["lib"; "X"; "Y (2020)"; "Y .mp3"], Dir);
                  (["lib"; "X"; "Y (2020)"; "Y .mp3"; "a.mp3"], Dir)])
    {[0 := "AUDIO"]} 1 (fun _ _ => true).


(** [fs'] is [fs] with some directories removed: nothing is created, every
    file is kept under its inode, and no content is written. *)
Definition only_directories_removed (fs fs' : FS) : Prop :=
  cwd fs' = cwd fs /\ data fs' = data fs /\
  (forall k n, tree fs' !! k = Some n -> tree fs !! k = Some n) /\
  (forall k i, tree fs !! k = Some (File i) -> tree fs' !! k = Some (File i)).

(** A request with an alternate metadata key, and collaborators whose
    metadata service knows a series for it. *)
Definition mam_request : AudiobookRequest :=
  mkAudiobookRequest "B001" "system" "downloading" (9 # 10)%Q (Some "abc") None (Some "77").

Definition mam_processor : ProcessorEnv :=
  mkProcessorEnv (fun _ _ => "") (fun b _ part ext => title b +:+ " " +:+ part +:+ ext)
    (fun l => l) (fun _ st => (st, None)) (fun _ _ => Some "Saga #2")
    (fun _ => (["Saga"], Some "2"))
    (fun _ _ _ fs => fs) (fun _ _ _ _ fs => fs) (fun _ => None) (fun _ _ _ => None)
    "cannot access local variable 'aiohttp' where it is not associated with a value".


(** No file below the directory [top] has an audio name. *)
Definition no_audio_below (fs : FS) (top : string) : Prop :=
  forall names f i,
    tree fs !! (resolve (cwd fs) top ++ names ++ [f]) = Some (File i) ->
    is_audio f = false.


(** The number a string of decimal digits denotes, as [int(s)] reads it. *)
Fixpoint digits_value_from (v : nat) (s : string) : nat :=
  match s with
  | EmptyString => v
  | String c s' => digits_value_from (10 * v + (nat_of_ascii c - 48)) s'
  end.

Definition digits_value (s : string) : nat := digits_value_from 0 s.


(** A book folder with a booklet in a sub-directory, to be moved to the
    folder /lib/X/Z. *)
Definition booklet_state : ReorgState :=
  mkReorgState library_fs_full [] ∅.

(** * Properties *)

Example str_of_nat_120 : str_of_nat 120 = "120".
Proof. reflexivity. Qed.

Example part_5_3 : part_str_process 5 3 = "Part 03".
Proof. reflexivity. Qed.

Example part_120_7 : part_str_process 120 7 = "Part 007".
Proof. reflexivity. Qed.

Example split_pipe : split_on "|" "a|b||c" = ["a"; "b"; ""; "c"].
Proof. reflexivity. Qed.

Example str_in_ex : str_in "asin:B001" "x,asin:B0012" = true.
Proof. reflexivity. Qed.

(** ** Strings *)

Lemma prefix_app (p s : string) :
  String.prefix p s = true <-> exists b, s = p +:+ b.
Proof.
  revert s. induction p as [|c p IH]; intros s; simpl.
  - split; [intros _; by exists s | intros _; by destruct s].
  - destruct s as [|d s]; simpl.
    + split; [done | intros [b Hb]; discriminate].
    + destruct (ascii_dec c d) as [->|Hne].
      * rewrite IH. split; intros [b Hb]; exists b; [by rewrite Hb | by injection Hb].
      * split; [done | intros [b Hb]; injection Hb; congruence].
Qed.

(** [str_in] is Python's substring test. *)
Lemma str_in_spec (sub s : string) :
  str_in sub s = true <-> exists a b, s = a +:+ sub +:+ b.
Proof.
  induction s as [|c s IH]; cbn [str_in].
  - rewrite String.eqb_eq. split.
    + intros ->. by exists "", "".
    + intros [a [b H]]. destruct a; [destruct sub; [done | discriminate] | discriminate].
  - rewrite orb_true_iff, IH, prefix_app. split.
    + intros [[b Hb] | [a [b Hab]]].
      * exists "", b. by rewrite Hb.
      * exists (String c a), b. simpl. by rewrite Hab.
    + intros [a [b Hab]]. destruct a as [|d a]; simpl in Hab.
      * left. by exists b.
      * right. exists a, b. by injection Hab.
Qed.

(** ** Part labels *)

Lemma format_2_small (i : nat) : i < 100 -> format_0d 2 i = two_digits i.
Proof.
  intros Hi.
  assert (H : forallb (fun i => String.eqb (format_0d 2 i) (two_digits i))
                (seq 0 100) = true) by (vm_compute; reflexivity).
  rewrite forallb_forall in H. apply String.eqb_eq, H, in_seq. lia.
Qed.

Lemma format_3_small (i : nat) : i < 1000 -> format_0d 3 i = three_digits i.
Proof.
  intros Hi.
  assert (H : forallb (fun i => String.eqb (format_0d 3 i) (three_digits i))
                (seq 0 1000) = true) by (vm_compute; reflexivity).
  rewrite forallb_forall in H. apply String.eqb_eq, H, in_seq. lia.
Qed.

Lemma digits_from_length (fuel n : nat) (acc : string) :
  String.length acc <= String.length (digits_from fuel n acc).
Proof.
  revert n acc. induction fuel as [|fuel IH]; intros n acc; cbn [digits_from]; [lia|].
  destruct (n / 10 =? 0)%nat; [cbn [String.length]; lia|].
  etrans; [|apply IH]. cbn [String.length]. lia.
Qed.

Lemma div10_ge (n k : nat) : 10 * k <= n -> k <= n / 10.
Proof. intros H. apply Nat.div_le_lower_bound; [lia | exact H]. Qed.

Lemma digits_from_step (fuel n : nat) (acc : string) :
  10 <= n ->
  digits_from (S fuel) n acc = digits_from fuel (n / 10) (String (digit n) acc).
Proof.
  intros Hn. cbn [digits_from].
  destruct (Nat.eqb_spec (n / 10) 0) as [H0|]; [|reflexivity].
  exfalso. pose proof (div10_ge n 1). lia.
Qed.

Lemma digits_from_length_S (fuel n : nat) (acc : string) :
  S (String.length acc) <= String.length (digits_from (S fuel) n acc).
Proof.
  cbn [digits_from]. destruct (n / 10 =? 0)%nat; [cbn [String.length]; lia|].
  etrans; [|apply digits_from_length]. cbn [String.length]. lia.
Qed.

Lemma str_of_nat_wide (n : nat) : 1000 <= n -> 4 <= String.length (str_of_nat n).
Proof.
  intros Hn. unfold str_of_nat.
  destruct n as [|[|[|n]]]; [lia..|].
  set (m := S (S (S n))) in *.
  pose proof (div10_ge m 100). pose proof (div10_ge (m / 10) 10).
  unfold m at 1.
  rewrite !digits_from_step by lia.
  etrans; [|apply digits_from_length_S]. cbn [String.length]. lia.
Qed.

Lemma format_3_wide (i : nat) : 1000 <= i -> format_0d 3 i = str_of_nat i.
Proof.
  intros Hi. unfold format_0d. pose proof (str_of_nat_wide i Hi) as H.
  replace (3 - String.length (str_of_nat i)) with 0 by lia. reflexivity.
Qed.

(** C5.  With N audio files processed in order (1-indexed): N = 1 appends no
    part label; for 2 <= N <= 99 the i-th label is "Part " followed by i on
    two digits; for N >= 100 it is "Part " followed by i padded with zeros to
    three digits (three digits up to 999, the plain number from 1000 on).
    reorganize_existing_book computes the same label as
    process_completed_download. *)
Theorem part_label_padding (N i : nat) :
  1 <= i <= N ->
  (N = 1 -> part_str_process N i = "") /\
  (2 <= N <= 99 -> part_str_process N i = "Part " +:+ two_digits i) /\
  (100 <= N ->
     part_str_process N i = "Part " +:+ format_0d 3 i /\
     (i <= 999 -> format_0d 3 i = three_digits i) /\
     (1000 <= i -> format_0d 3 i = str_of_nat i)) /\
  (forall audio_files : list string,
     length audio_files = N ->
     part_str_reorganize audio_files i = part_str_process N i).
Proof.
  intros Hi. repeat split.
  - intros ->. reflexivity.
  - intros HN. unfold part_str_process, padding_of.
    destruct (Nat.leb_spec 100 N); [lia|].
    destruct (Nat.ltb_spec 1 N); [|lia].
    rewrite format_2_small by lia. reflexivity.
  - unfold part_str_process, padding_of.
    destruct (Nat.leb_spec 100 N); [|lia].
    destruct (Nat.ltb_spec 1 N); [|lia]. reflexivity.
  - intros. apply format_3_small. lia.
  - apply format_3_wide.
  - intros fs <-. reflexivity.
Qed.

Lemma part_label_padding_witness :
  part_str_process 5 3 = "Part 03" /\ part_str_process 120 7 = "Part 007" /\
  part_str_process 1 1 = "".
Proof.
  split; [|split].
  - apply (proj1 (proj2 (part_label_padding 5 3 ltac:(lia)))). lia.
  - pose proof (proj1 (proj2 (proj2 (part_label_padding 120 7 ltac:(lia))))) as H.
    destruct (H ltac:(lia)) as [H1 [H2 _]]. rewrite H1, H2 by lia. reflexivity.
  - apply (proj1 (part_label_padding 1 1 ltac:(lia))). reflexivity.
Defined.

(** ** delete_download *)

Lemma delete_torrents_subset (q : Qbittorrent) (hs : list string) (df : bool) (x : Torrent) :
  x ∈ torrents (delete_torrents q hs df) -> x ∈ torrents q.
Proof. unfold delete_torrents. cbn [torrents]. rewrite list_elem_of_filter. tauto. Qed.

Lemma delete_torrents_gone (q : Qbittorrent) (h : string) (df : bool) (x : Torrent) :
  x ∈ torrents (delete_torrents q [h] df) -> hash x <> h.
Proof.
  unfold delete_torrents. cbn [torrents]. rewrite list_elem_of_filter.
  intros [Hg _] Heq. subst h. cbn in Hg. rewrite String.eqb_refl in Hg. discriminate.
Qed.

Lemma remove_tagged_fold_subset a df ts q x :
  x ∈ torrents (fold_left (remove_tagged a df) ts q) -> x ∈ torrents q.
Proof.
  revert q. induction ts as [|t ts IH]; intros q; cbn [fold_left]; [done|].
  intros H. apply IH in H. unfold remove_tagged in H.
  destruct (str_in _ _); [by apply delete_torrents_subset in H | done].
Qed.

Lemma remove_tagged_fold_gone a df ts q t x :
  t ∈ ts ->
  str_in ("asin:" +:+ a) (default "" (tags t)) = true ->
  x ∈ torrents (fold_left (remove_tagged a df) ts q) ->
  hash x <> hash t.
Proof.
  revert q. induction ts as [|t' ts IH]; intros q Hin Hm Hx.
  - by apply elem_of_nil in Hin.
  - cbn [fold_left] in Hx. apply elem_of_cons in Hin as [<-|Hin].
    + apply remove_tagged_fold_subset in Hx. unfold remove_tagged in Hx.
      rewrite Hm in Hx. by apply delete_torrents_gone in Hx.
    + by apply (IH _ Hin Hm Hx).
Qed.

Lemma delete_download_qbit (app : App) (a : string) (df : bool) (dfq : option bool) :
  qbit_enabled (settings (app_session app)) = true ->
  reachable (app_qbit app) = true ->
  app_qbit (delete_download app a df dfq).1.1 =
  fold_left (remove_tagged a (match dfq with Some b => b | None => df end))
    (torrents (app_qbit app)) (app_qbit app).
Proof.
  intros He Hr. unfold delete_download, get_torrents. rewrite He, Hr. reflexivity.
Qed.

(** C10.  delete_download removes a torrent whenever "asin:<asin>" occurs
    anywhere in its tags string (substring containment, not equality of a
    tag); so deleting asin "B001" removes the torrent tagged "asin:B0012",
    which belongs to another asin that "B001" is a prefix of. *)
Theorem delete_download_matches_by_substring :
  (forall (app : App) (a : string) (df : bool) (dfq : option bool)
          (t : Torrent) (before after : string),
      qbit_enabled (settings (app_session app)) = true ->
      reachable (app_qbit app) = true ->
      t ∈ torrents (app_qbit app) ->
      tags t = Some (before +:+ ("asin:" +:+ a) +:+ after) ->
      forall x, x ∈ torrents (app_qbit (delete_download app a df dfq).1.1) ->
                hash x <> hash t) /\
  (exists (a1 a2 : string) (app : App),
      a1 <> a2 /\ String.prefix a1 a2 = true /\
      torrents (app_qbit app) = [mkTorrent "h2" (Some ("asin:" +:+ a2))] /\
      torrents (app_qbit (delete_download app a1 false None).1.1) = []).
Proof.
  split.
  - intros app a df dfq t before after He Hr Hin Htags x Hx.
    rewrite delete_download_qbit in Hx by done.
    eapply remove_tagged_fold_gone; [exact Hin | | exact Hx].
    rewrite Htags. apply str_in_spec. by exists before, after.
  - exists "B001", "B0012", tagged_B0012. repeat split; done.
Qed.

Lemma delete_download_matches_by_substring_witness :
  Forall (fun x => hash x <> "h2")
    (torrents (app_qbit (delete_download tagged_B0012 "B001" false None).1.1)).
Proof.
  apply Forall_forall.
  apply (proj1 delete_download_matches_by_substring tagged_B0012 "B001" false None
           (mkTorrent "h2" (Some "asin:B0012")) "" "2");
    [reflexivity | reflexivity | apply list_elem_of_here | reflexivity].
Defined.

(** ** create_download *)

Lemma get_system_user_requests (s : Session) :
  requests (get_system_user s).1 = requests s.
Proof. unfold get_system_user. by destruct (users s !! "system"). Qed.

Lemma get_system_user_audiobooks (s : Session) :
  audiobooks (get_system_user s).1 = audiobooks s.
Proof. unfold get_system_user. by destruct (users s !! "system"). Qed.

Lemma write_back_asins (obj : AudiobookRequest) (rows : list AudiobookRequest) :
  map asin (write_back obj rows) = map asin rows.
Proof.
  induction rows as [|r rows IH]; [done|]. cbn [write_back].
  destruct (String.eqb_spec (asin r) (asin obj)) as [Heq|Hne]; cbn [map].
  - by rewrite Heq.
  - by rewrite IH.
Qed.

Lemma write_back_length (obj : AudiobookRequest) (rows : list AudiobookRequest) :
  length (write_back obj rows) = length rows.
Proof.
  rewrite <- (length_map asin), write_back_asins. apply length_map.
Qed.

Lemma find_write_back (a : string) (obj : AudiobookRequest)
    (rows : list AudiobookRequest) r :
  asin obj = a ->
  find (fun r => String.eqb (asin r) a) rows = Some r ->
  find (fun r => String.eqb (asin r) a) (write_back obj rows) = Some obj.
Proof.
  intros <-. induction rows as [|r0 rows IH]; [done|]. cbn [find write_back].
  destruct (String.eqb_spec (asin r0) (asin obj)) as [Heq|Hne].
  - intros _. cbn [find]. by rewrite String.eqb_refl.
  - intros H. cbn [find]. destruct (String.eqb_spec (asin r0) (asin obj)); [done|].
    by apply IH.
Qed.

Lemma find_asin (a : string) (rows : list AudiobookRequest) r :
  find (fun r => String.eqb (asin r) a) rows = Some r -> asin r = a /\ In r rows.
Proof.
  intros H. apply find_some in H as [Hin Heq]. by apply String.eqb_eq in Heq.
Qed.

Lemma find_asin_None (a : string) (rows : list AudiobookRequest) :
  find (fun r => String.eqb (asin r) a) rows = None -> ~ In a (map asin rows).
Proof.
  intros H Hin. apply in_map_iff in Hin as [r [Ha Hr]].
  pose proof (find_none _ _ H r Hr) as Hn. cbn in Hn.
  rewrite Ha, String.eqb_refl in Hn. discriminate.
Qed.

(** The request table after [create_download]: unchanged on a rejection;
    otherwise the found row is written back re-opened, or one row is added
    when there was none. *)
Lemma create_download_requests (E : DownloadsEnv) (s : Session) (a : string)
    (region : option string) :
  let out := create_download E s a region in
  ((forall job, out.1.2 <> Returned job) /\ requests out.1.1 = requests s) \/
  ((exists job, out.1.2 = Returned job) /\
   requests out.1.1 =
     match _get_request s a with
     | Some r => write_back (reopened r) (requests s)
     | None => (requests s ++ [new_AudiobookRequest a (username (get_system_user s).2)])%list
     end).
Proof.
  cbv zeta. unfold create_download.
  pose proof (get_system_user_requests s) as Hreq.
  destruct (get_system_user s) as [s1 user]. cbn [fst snd] in *.
  destruct (negb (audible_regions E _)); [left; by split|].
  destruct (get_book_by_asin E a _) as [fetched|]; [|left; by split].
  destruct (audiobooks s1 !! a) as [b|].
  - destruct (library_contains_asin E s1 a && negb (negb (downloaded b)));
      [left; by split|].
    destruct (downloaded b); [left; by split|].
    right. unfold _get_request. rewrite Hreq.
    destruct (find _ (requests s)); (split; [eauto|]); cbn; by rewrite ?Hreq.
  - destruct (library_contains_asin E _ a && negb false); [left; by split|].
    right. unfold _get_request. cbn [requests commit_book set_audiobooks]. rewrite Hreq.
    destruct (find _ (requests s)); (split; [eauto|]); cbn; by rewrite ?Hreq.
Qed.

Lemma create_download_NoDup (E : DownloadsEnv) (s : Session) (a : string)
    (region : option string) :
  NoDup (map asin (requests s)) ->
  NoDup (map asin (requests (create_download E s a region).1.1)).
Proof.
  intros Hnd. destruct (create_download_requests E s a region) as [[_ ->]|[_ ->]]; [done|].
  unfold _get_request. destruct (find _ (requests s)) eqn:Hf.
  - by rewrite write_back_asins.
  - rewrite map_app. cbn [map asin new_AudiobookRequest].
    apply NoDup_app. split; [done|]. split; [|apply NoDup_singleton].
    intros x Hx ->%list_elem_of_singleton.
    apply (find_asin_None _ _ Hf). by apply list_elem_of_In.
Qed.

Lemma filter_asins_NoDup (a : string) (rows : list AudiobookRequest) :
  NoDup (map asin rows) ->
  NoDup (map asin (filter (fun r => String.eqb (asin r) a = false) rows)).
Proof.
  induction rows as [|r rows IH]; [done|]. cbn [map].
  rewrite NoDup_cons. intros [Hr Hnd]. rewrite filter_cons.
  destruct (decide _); [|by apply IH]. cbn [map]. apply NoDup_cons.
  split; [|by apply IH]. intros Hin. apply Hr.
  apply list_elem_of_In, in_map_iff in Hin as [r' [Heq Hin]].
  apply list_elem_of_In, in_map_iff. exists r'. split; [done|].
  apply list_elem_of_In. apply list_elem_of_In, list_elem_of_filter in Hin. tauto.
Qed.

Lemma app_reachable_NoDup (E : DownloadsEnv) (app : App) :
  app_reachable E app -> NoDup (map asin (requests (app_session app))).
Proof.
  induction 1 as [app H0|app a region _ IH|app a df dfq _ IH|app obj _ IH].
  - rewrite H0. apply NoDup_nil_2.
  - by apply create_download_NoDup.
  - by apply filter_asins_NoDup.
  - cbn. by rewrite write_back_asins.
Qed.

(** C1.  At most one AudiobookRequest row exists per asin in every state
    reached from an empty request table, and create_download keeps it so;
    called for an asin that has a row, create_download inserts nothing (the
    asin column of the table is unchanged) and, when it goes through, that
    row is written back in place with status "pending", progress 0.0 and
    torrent_hash and download_state cleared. *)
Theorem one_request_row_per_asin (E : DownloadsEnv) :
  (forall app, app_reachable E app ->
     NoDup (map asin (requests (app_session app)))) /\
  (forall session a region,
     NoDup (map asin (requests session)) ->
     NoDup (map asin (requests (create_download E session a region).1.1))) /\
  (forall session a region r,
     _get_request session a = Some r ->
     let out := create_download E session a region in
     map asin (requests out.1.1) = map asin (requests session) /\
     (forall job, out.1.2 = Returned job ->
        requests out.1.1 = write_back (reopened r) (requests session) /\
        _get_request out.1.1 a = Some (reopened r) /\
        processing_status (reopened r) = "pending" /\
        download_progress (reopened r) = 0%Q /\
        torrent_hash (reopened r) = None /\
        download_state (reopened r) = None /\
        asin (reopened r) = asin r /\
        user_username (reopened r) = user_username r /\
        mam_id (reopened r) = mam_id r)).
Proof.
  split; [apply app_reachable_NoDup|]. split; [apply create_download_NoDup|].
  intros session a region r Hr out. subst out.
  destruct (create_download_requests E session a region) as [[Hrej Hreq]|[_ Hreq]];
    rewrite ?Hr in Hreq.
  - split; [by rewrite Hreq|]. intros job Hjob. by destruct (Hrej job).
  - split; [by rewrite Hreq, write_back_asins|]. intros job _.
    split; [done|]. split; [|done].
    unfold _get_request in *. rewrite Hreq.
    destruct (find_asin _ _ _ Hr) as [Ha _].
    by apply (find_write_back a (reopened r) (requests session) r).
Qed.

Lemma one_request_row_per_asin_witness :
  requests (create_download nothing_on_disk requeue_session "B001" None).1.1 =
  [mkAudiobookRequest "B001" "system" "pending" 0%Q None None None].
Proof.
  destruct (proj2 (proj2 (one_request_row_per_asin nothing_on_disk))
              requeue_session "B001" None stale_request eq_refl) as [_ H].
  destruct (H (_job_view (sample_book "B001" false)
                 (Some (reopened stale_request))) eq_refl) as [-> _].
  reflexivity.
Defined.

(** ** The already-in-library rejection *)

Lemma find_app_None {A} (f : A -> bool) (l1 l2 : list A) :
  find f l1 = None -> find f (l1 ++ l2) = find f l2.
Proof.
  induction l1 as [|x l1 IH]; [done|]. cbn [find app].
  destruct (f x); [done | apply IH].
Qed.

(** C6, as the specification states it, fails: a tracked record marked
    downloaded is rejected although nothing is on disk. *)
Lemma already_in_library_as_stated_fails :
  ~ already_in_library_as_stated nothing_on_disk downloaded_not_on_disk "B001" "us".
Proof.
  intros H. specialize (H (sample_book "B001" false) eq_refl eq_refl).
  cbv zeta in H. destruct H as [H _].
  assert (Hrej : rejected_400
            (create_download nothing_on_disk downloaded_not_on_disk "B001" (Some "us")).1.2)
    by (by exists "Book already in library").
  destruct (H Hrej) as [_ Hd]. vm_compute in Hd. discriminate.
Qed.

(** C6, amended.  For a valid region and a book the catalog source knows,
    create_download raises the already-in-library rejection (HTTP 400)
    exactly when the tracked catalog record is marked downloaded, or no
    catalog record was tracked and the book is on disk in the library
    folder; a tracked record that is not marked downloaded may be queued
    again even when the book is on disk.  Otherwise the call returns and the
    request of the asin is in status "pending" with progress 0.0. *)
Theorem create_download_already_in_library (E : DownloadsEnv) (session0 : Session)
    (a region : string) (fetched : Audiobook) :
  audible_regions E region = true ->
  get_book_by_asin E a region = Some fetched ->
  let on_disk := library_contains_asin E (session_at_line_100 E session0 a fetched) a in
  let out := create_download E session0 a (Some region) in
  (rejected_400 out.1.2 <->
     match audiobooks session0 !! a with
     | Some b => downloaded b = true
     | None => on_disk = true
     end) /\
  (~ rejected_400 out.1.2 ->
     exists job r,
       out.1.2 = Returned job /\ job_status job = "pending" /\
       _get_request out.1.1 a = Some r /\
       processing_status r = "pending" /\ download_progress r = 0%Q /\
       torrent_hash r = None /\ download_state r = None).
Proof.
  intros Hreg Hbook. cbv zeta. unfold session_at_line_100, create_download.
  pose proof (get_system_user_requests session0) as Hreq.
  pose proof (get_system_user_audiobooks session0) as Hab.
  destruct (get_system_user session0) as [s1 user]. cbn [fst snd] in *.
  rewrite Hreg, Hbook. cbn [negb]. rewrite <- Hab.
  assert (Hno : forall d, ~ @rejected_400 DownloadJob (Returned d))
    by (intros d [x Hx]; discriminate).
  assert (Hyes : forall d, @rejected_400 DownloadJob (HTTPException 400 d))
    by (intros d; by exists d).
  destruct (audiobooks s1 !! a) as [b|].
  - destruct (downloaded b) eqn:Hd; cbn [negb].
    + rewrite andb_true_r.
      destruct (library_contains_asin E s1 a); cbn [fst snd];
        (split; [split; [done | intros _; apply Hyes] | intros Hn; destruct Hn; apply Hyes]).
    + rewrite andb_false_r. cbn [fst snd]. split.
      * split; [intros Hr; by apply Hno in Hr | done].
      * intros _. unfold _get_request.
        destruct (find _ (requests s1)) as [r|] eqn:Hf.
        -- exists (_job_view b (Some (reopened r))), (reopened r).
           destruct (find_asin _ _ _ Hf) as [Ha _].
           assert (Hfind : find (fun r0 => String.eqb (asin r0) a)
                     (write_back (reopened r) (requests s1)) = Some (reopened r)).
           { by apply (find_write_back a (reopened r) (requests s1) r). }
           cbn [requests log_request_event set_request_logs commit_request set_requests].
           unfold reopened in *. rewrite Hfind. by repeat split.
        -- cbn [requests log_request_event set_request_logs set_requests].
           rewrite (find_app_None _ _ _ Hf). cbn [find asin new_AudiobookRequest].
           rewrite String.eqb_refl.
           eexists _, _. by repeat split.
  - cbn [negb]. rewrite andb_true_r.
    destruct (library_contains_asin E _ a) eqn:Hl; cbn [fst snd].
    + split; [split; [done | intros _; apply Hyes] | intros Hn; destruct Hn; apply Hyes].
    + split; [split; [intros Hr; by apply Hno in Hr | done]|].
      intros _. unfold _get_request.
      cbn [requests commit_book set_audiobooks log_request_event set_request_logs
             commit_request set_requests].
      destruct (find _ (requests s1)) as [r|] eqn:Hf.
      * exists (_job_view fetched (Some (reopened r))), (reopened r).
        destruct (find_asin _ _ _ Hf) as [Ha _].
        assert (Hfind : find (fun r0 => String.eqb (asin r0) a)
                  (write_back (reopened r) (requests s1)) = Some (reopened r)).
        { by apply (find_write_back a (reopened r) (requests s1) r). }
        cbn [requests commit_book set_audiobooks log_request_event set_request_logs
             commit_request set_requests].
        unfold reopened in *. rewrite Hfind. by repeat split.
      * cbn [requests commit_book set_audiobooks log_request_event set_request_logs
             commit_request set_requests].
        rewrite (find_app_None _ _ _ Hf).
        cbn [find asin new_AudiobookRequest]. rewrite String.eqb_refl.
        eexists _, _. by repeat split.
Qed.

Lemma create_download_already_in_library_witness :
  rejected_400 (create_download nothing_on_disk downloaded_not_on_disk "B001" (Some "us")).1.2.
Proof.
  apply (proj1 (create_download_already_in_library nothing_on_disk
                  downloaded_not_on_disk "B001" "us" (sample_book "B001" false)
                  eq_refl eq_refl)).
  reflexivity.
Defined.

(** ** start_download_source *)

Lemma cache_get_flushed (c : SourceCache) (ttl : nat) (key : string) :
  cache_get (flush_prowlarr_cache c) ttl key = None.
Proof. unfold cache_get, flush_prowlarr_cache. cbn. by rewrite lookup_empty. Qed.

Lemma cache_get_expired (c : SourceCache) (ttl : nat) (key : string) (e : CacheEntry) :
  entries c !! key = Some e -> fetched_at e + ttl < clock c ->
  cache_get c ttl key = None.
Proof.
  intros He Hlt. unfold cache_get, expired. rewrite He.
  by destruct (Nat.ltb_spec (fetched_at e + ttl) (clock c)); [|lia].
Qed.

Lemma start_download_source_miss (E : DownloadsEnv) (app : App) (a : string)
    (body : DownloadSourceBody) :
  let session := (get_system_user (app_session app)).1 in
  cache_get (app_cache app) (source_ttl (settings session))
    (rederived_cache_key E app a) = None ->
  let out := start_download_source E app a body in
  (exists detail, out.1.2 = HTTPException 404 detail) /\
  out.2 = [] /\
  out.1.1 = mkApp session (app_qbit app) (app_cache app) /\
  requests (app_session out.1.1) = requests (app_session app).
Proof.
  cbv zeta. unfold start_download_source, rederived_cache_key.
  pose proof (get_system_user_requests (app_session app)) as Hreq.
  destruct (get_system_user (app_session app)) as [s1 user]. cbn [fst snd] in *.
  intros Hmiss. cbn [app_cache].
  destruct (find _ (requests s1)); [|by eauto 10].
  rewrite Hmiss. by eauto 10.
Qed.

(** C8.  start_download_source derives the cache key again from the book's
    catalog record (build_prowlarr_query), reads the cache under that key
    and picks the first result whose (guid, indexer_id) equals the chosen
    pair; when the entry has expired or the cache has been flushed the call
    fails with a 404, schedules nothing, calls no download start and leaves
    the request table as it was (the only write is the system user that
    get_system_user ensures). *)
Theorem start_download_source_cache_miss (E : DownloadsEnv) (app : App)
    (a : string) (body : DownloadSourceBody) :
  let session := (get_system_user (app_session app)).1 in
  let user := (get_system_user (app_session app)).2 in
  let ttl := source_ttl (settings session) in
  let key := rederived_cache_key E app a in
  let app1 := mkApp session (app_qbit app) (app_cache app) in
  let out := start_download_source E app a body in
  (* expired, or absent as after a flush *)
  ((entries (app_cache app) !! key = None \/
    (exists e, entries (app_cache app) !! key = Some e /\
               fetched_at e + ttl < clock (app_cache app))) ->
   (exists detail, out.1.2 = HTTPException 404 detail) /\
   out.2 = [] /\ out.1.1 = app1 /\
   requests (app_session out.1.1) = requests (app_session app)) /\
  (* flushed between listing and selection *)
  (let flushed :=
     start_download_source E
       (mkApp (app_session app) (app_qbit app) (flush_prowlarr_cache (app_cache app)))
       a body in
   (exists detail, flushed.1.2 = HTTPException 404 detail) /\ flushed.2 = [] /\
   requests (app_session flushed.1.1) = requests (app_session app)) /\
  (* any other outcome went through the cache and the chosen pair *)
  ((forall detail, out.1.2 <> HTTPException 404 detail) ->
   exists sources source book_request,
     cache_get (app_cache app) ttl key = Some sources /\
     In source sources /\
     guid source = body_guid body /\ indexer_id source = body_indexer_id body /\
     out.1.1 = (start_download E app1 (body_guid body) (body_indexer_id body) user
                  book_request source (body_collection body)
                  (body_collection_label body)).1).
Proof.
  cbv zeta. split; [|split].
  - intros Hc. apply start_download_source_miss.
    destruct Hc as [Hn | [e [He Hlt]]].
    + unfold cache_get. by rewrite Hn.
    + by apply cache_get_expired with e.
  - pose proof (start_download_source_miss E
        (mkApp (app_session app) (app_qbit app) (flush_prowlarr_cache (app_cache app)))
        a body) as H.
    cbv zeta in H. cbn [app_cache app_session] in H.
    destruct (H (cache_get_flushed _ _ _)) as (H1 & H2 & _ & H4). by repeat split.
  - unfold start_download_source, rederived_cache_key.
    destruct (get_system_user (app_session app)) as [s1 user]. cbn [fst snd app_cache].
    destruct (find _ (requests s1)) as [req|]; [|intros H; exfalso; by eapply H].
    destruct (cache_get _ _ _) as [[|s l]|]; [intros H; exfalso; by eapply H| |intros H; exfalso; by eapply H].
    destruct (find _ (s :: l)) as [source|] eqn:Hf; [|intros H; exfalso; by eapply H].
    intros _. apply find_some in Hf as [Hin Hm].
    apply andb_true_iff in Hm as [Hg Hi].
    apply String.eqb_eq in Hg. apply Z.eqb_eq in Hi.
    exists (s :: l), source, req. repeat split; try done.
    destruct (start_download E _ _ _ _ _ _ _ _) as [app' [[]|]]; reflexivity.
Qed.

Lemma start_download_source_cache_miss_witness :
  (start_download_source nothing_on_disk expired_cache_app "B001" sample_body).1.2 =
  HTTPException 404 "Source not found in cache for this book.".
Proof.
  destruct (proj1 (start_download_source_cache_miss nothing_on_disk expired_cache_app
                     "B001" sample_body)) as [[d Hd] _].
  - right. exists (mkCacheEntry 10 [mkProwlarrSource "g" 1%Z "Y"]).
    split; [reflexivity | vm_compute; lia].
  - reflexivity.
Defined.

Example dirname_ex :
  (dirname "/a/b/", dirname "//a", dirname "a", dirname "/lib/X/Y.mp3") =
  ("/a/b", "//", "", "/lib/X").
Proof. reflexivity. Qed.

Example splitext_ex :
  (splitext_ext ".bashrc", splitext_ext "a/..x.mp3", splitext_ext "a.b/c",
   splitext_ext "/d/Book.M4B") = ("", ".mp3", "", ".M4B").
Proof. reflexivity. Qed.

Example abspath_ex :
  (abspath ["w"] "//a/../b", abspath ["w"] "///a", abspath ["w"] "x/./y/",
   abspath ["w"] "../../..") =
  ((true, ["b"]), (false, ["a"]), (false, ["w"; "x"; "y"]), (false, [])).
Proof. reflexivity. Qed.

Example relpath_ex :
  (relpath [] "/a/b" "/a/b", relpath [] "/a/b/c/d" "/a/b", relpath [] "/a/x" "/a/b/c") =
  (".", "c/d", "../../x").
Proof. reflexivity. Qed.

Example path_join_ex :
  (path_join "/a" "b", path_join "/a/" "b", path_join "" "b", path_join "/a" "/b") =
  ("/a/b", "/a/b", "b", "/b").
Proof. reflexivity. Qed.

(** ** File system operations *)

Example smart_copy_copy :
  let r := smart_copy sample_fs "/dl/a.mp3" "/lib/X/Y.mp3" false false in
  (r.2, stat r.1 "/lib/X/Y.mp3", content r.1 1, stat r.1 "/dl/a.mp3") =
  (None, Some (File 1), "AUDIO", Some (File 0)).
Proof. vm_compute. reflexivity. Qed.

Example smart_copy_move_hardlink :
  let r := smart_copy sample_fs "/dl/a.mp3" "/lib/X/Y.mp3" true true in
  (r.2, stat r.1 "/lib/X/Y.mp3", stat r.1 "/dl/a.mp3", stat r.1 "/lib/X") =
  (None, Some (File 0), None, Some Dir).
Proof. vm_compute. reflexivity. Qed.

Lemma abspath_eqb_eq (x y : bool * list string) : abspath_eqb x y = true <-> x = y.
Proof.
  destruct x as [b1 l1], y as [b2 l2]. unfold abspath_eqb. cbn [fst snd].
  rewrite andb_true_iff, Bool.eqb_true_iff, bool_decide_eq_true.
  split; [intros [-> ->]; done | intros [= -> ->]; done].
Qed.

Lemma stat_Some (fs : FS) (p : string) (n : node) :
  stat fs p = Some n -> p <> "" /\ node_at fs (resolve (cwd fs) p) = Some n.
Proof.
  unfold stat. destruct (String.eqb_spec p ""); [done|]. by intros ->.
Qed.

Lemma stat_File (fs : FS) (p : string) (i : nat) :
  stat fs p = Some (File i) ->
  p <> "" /\ resolve (cwd fs) p <> [] /\ tree fs !! resolve (cwd fs) p = Some (File i).
Proof.
  intros H. apply stat_Some in H as [Hp H]. split; [done|].
  unfold node_at in H. destruct (resolve (cwd fs) p); [discriminate | done].
Qed.

Lemma stat_eq (fs fs' : FS) (p : string) :
  cwd fs' = cwd fs ->
  tree fs' !! resolve (cwd fs) p = tree fs !! resolve (cwd fs) p ->
  stat fs' p = stat fs p.
Proof.
  intros Hc Ht. unfold stat, node_at. rewrite Hc.
  destruct (String.eqb p ""); [done|]. by destruct (resolve (cwd fs) p).
Qed.

Lemma makedirs_from_mono base rest t k n :
  t !! k = Some n -> (makedirs_from base rest t).1 !! k = Some n.
Proof.
  revert base t. induction rest as [|c rest IH]; intros base t Hk; [done|].
  cbn [makedirs_from]. destruct (t !! (base ++ [c])) as [[|j]|] eqn:Hp.
  - by apply IH.
  - done.
  - apply IH. rewrite lookup_insert_ne; [done|]. congruence.
Qed.

Lemma makedirs_from_back base rest t k i :
  (makedirs_from base rest t).1 !! k = Some (File i) -> t !! k = Some (File i).
Proof.
  revert base t. induction rest as [|c rest IH]; intros base t; [done|].
  cbn [makedirs_from]. destruct (t !! (base ++ [c])) as [[|j]|] eqn:Hp.
  - apply IH.
  - done.
  - intros H. apply IH in H. rewrite lookup_insert in H.
    case_decide; [discriminate | done].
Qed.

Lemma makedirs_from_idem base rest t t' t'' :
  makedirs_from base rest t = (t', None) ->
  (forall k, t' !! k = Some Dir -> t'' !! k = Some Dir) ->
  makedirs_from base rest t'' = (t'', None).
Proof.
  revert base t. induction rest as [|c rest IH]; intros base t H Hd; [done|].
  cbn [makedirs_from] in *.
  assert (Hp : t' !! (base ++ [c]) = Some Dir).
  { destruct (t !! (base ++ [c])) as [[|j]|] eqn:Hp.
    - pose proof (makedirs_from_mono (base ++ [c]) rest t _ _ Hp) as Hm.
      by rewrite H in Hm.
    - discriminate.
    - pose proof (makedirs_from_mono (base ++ [c]) rest
                    (<[base ++ [c] := Dir]> t) (base ++ [c]) Dir) as Hm.
      rewrite H in Hm. apply Hm, lookup_insert_eq. }
  rewrite (Hd _ Hp).
  destruct (t !! (base ++ [c])) as [[|j]|]; [by eapply IH | discriminate | by eapply IH].
Qed.

Lemma os_makedirs_idem (fs fs1 r : FS) (p : string) :
  os_makedirs fs p = (fs1, None) -> dirs_preserved fs1 r ->
  os_makedirs r p = (r, None).
Proof.
  unfold os_makedirs. destruct (String.eqb p ""); [discriminate|].
  destruct (makedirs_from [] (resolve (cwd fs) p) (tree fs)) as [t e] eqn:Hm.
  intros [= <- ->] [Hc Hd]. cbn [cwd set_tree tree] in *. rewrite Hc.
  rewrite (makedirs_from_idem _ _ _ _ (tree r) Hm Hd).
  by destruct r.
Qed.

Lemma os_makedirs_facts (fs fs1 : FS) (p : string) (e : option exn) :
  os_makedirs fs p = (fs1, e) ->
  cwd fs1 = cwd fs /\ data fs1 = data fs /\
  (forall k n, tree fs !! k = Some n -> tree fs1 !! k = Some n) /\
  (forall k i, tree fs1 !! k = Some (File i) -> tree fs !! k = Some (File i)).
Proof.
  unfold os_makedirs. destruct (String.eqb p ""); [intros [= <- _]; done|].
  destruct (makedirs_from [] (resolve (cwd fs) p) (tree fs)) as [t e'] eqn:Hm.
  intros [= <- _]. cbn [cwd set_tree tree data]. repeat split.
  - intros k n Hk. pose proof (makedirs_from_mono [] (resolve (cwd fs) p) _ _ _ Hk) as H.
    by rewrite Hm in H.
  - intros k i Hk. apply (makedirs_from_back [] (resolve (cwd fs) p)). by rewrite Hm.
Qed.

Lemma dirs_preserved_refl (fs : FS) : dirs_preserved fs fs.
Proof. by split. Qed.

Lemma dirs_preserved_trans (a b c : FS) :
  dirs_preserved a b -> dirs_preserved b c -> dirs_preserved a c.
Proof. intros [H1 H2] [H3 H4]. split; [congruence | auto]. Qed.

Lemma stat_tree (fs : FS) (p : string) :
  p <> "" -> resolve (cwd fs) p <> [] ->
  stat fs p = tree fs !! resolve (cwd fs) p.
Proof.
  intros Hp Hr. unfold stat, node_at.
  destruct (String.eqb_spec p ""); [done|]. by destruct (resolve (cwd fs) p).
Qed.

Lemma stat_None (fs : FS) (p : string) :
  stat fs p = None ->
  p = "" \/ (resolve (cwd fs) p <> [] /\ tree fs !! resolve (cwd fs) p = None).
Proof.
  unfold stat, node_at. destruct (String.eqb_spec p ""); [by left|].
  destruct (resolve (cwd fs) p); [discriminate | by right].
Qed.

Lemma isdir_tree (fs : FS) (p : string) :
  p <> "" -> tree fs !! resolve (cwd fs) p = Some Dir -> isdir fs p = true.
Proof.
  intros Hp Ht. unfold isdir, stat, node_at.
  destruct (String.eqb_spec p ""); [done|].
  destruct (resolve (cwd fs) p); [done | by rewrite Ht].
Qed.

Lemma write_file_spec (fs fs' : FS) (p c : string) :
  write_file fs p c = (fs', None) ->
  p <> "" /\ resolve (cwd fs) p <> [] /\ cwd fs' = cwd fs /\
  exists j,
    tree fs' = <[resolve (cwd fs) p := File j]> (tree fs) /\
    data fs' = <[j := c]> (data fs) /\
    (tree fs !! resolve (cwd fs) p = Some (File j) \/
     tree fs !! resolve (cwd fs) p = None).
Proof.
  unfold write_file. destruct (stat fs p) as [[|j]|] eqn:Hs.
  - discriminate.
  - apply stat_File in Hs as (Hp & Hr & Ht). intros [= <-]. cbn.
    repeat split; try done. exists j. rewrite insert_id by done. auto.
  - destruct (String.eqb_spec p "") as [|Hp]; [discriminate|]. cbn [negb andb].
    destruct (parent_is_dir fs _); [|discriminate].
    apply stat_None in Hs as [|[Hr Ht]]; [done|].
    intros [= <-]. cbn. repeat split; try done. exists (next_ino fs). auto.
Qed.

Lemma write_file_dirs (fs fs' : FS) (p c : string) (e : option exn) :
  write_file fs p c = (fs', e) -> dirs_preserved fs fs'.
Proof.
  destruct e as [e|].
  - unfold write_file. destruct (stat fs p) as [[|j]|]; try discriminate;
      [intros [= <-]; apply dirs_preserved_refl|].
    destruct (_ && _); [discriminate|]. intros [= <-]. apply dirs_preserved_refl.
  - intros H. apply write_file_spec in H as (_ & _ & Hc & j & Ht & _ & Hold).
    split; [done|]. intros k Hk. rewrite Ht, lookup_insert_ne; [done|].
    intros <-. destruct Hold; congruence.
Qed.

Lemma os_remove_spec (fs fs' : FS) (p : string) :
  os_remove fs p = (fs', None) ->
  exists i, stat fs p = Some (File i) /\
            fs' = set_tree fs (delete (resolve (cwd fs) p) (tree fs)).
Proof.
  unfold os_remove. destruct (stat fs p) as [[|i]|]; try discriminate.
  intros [= <-]. by exists i.
Qed.

Lemma os_remove_dirs (fs fs' : FS) (p : string) (e : option exn) :
  os_remove fs p = (fs', e) -> dirs_preserved fs fs'.
Proof.
  unfold os_remove. destruct (stat fs p) as [[|i]|] eqn:Hs;
    intros [= <- _]; try apply dirs_preserved_refl.
  apply stat_File in Hs as (_ & _ & Ht). split; [done|]. intros k Hk. cbn.
  rewrite lookup_delete_ne; [done|]. congruence.
Qed.

Lemma os_link_fail (fs fs' : FS) (s d : string) (e : exn) :
  os_link fs s d = (fs', Some e) -> fs' = fs.
Proof.
  unfold os_link. destruct (stat fs s) as [[|i]|]; try (by intros [= <-]).
  destruct (stat fs d); [by intros [= <-]|].
  destruct (_ && _); [|by intros [= <-]].
  destruct (can_link fs _ _); [discriminate | by intros [= <-]].
Qed.

Lemma os_link_spec (fs fs' : FS) (s d : string) :
  os_link fs s d = (fs', None) ->
  exists i, stat fs s = Some (File i) /\ d <> "" /\
            resolve (cwd fs) d <> [] /\ tree fs !! resolve (cwd fs) d = None /\
            fs' = set_tree fs (<[resolve (cwd fs) d := File i]> (tree fs)).
Proof.
  unfold os_link. destruct (stat fs s) as [[|i]|]; try discriminate.
  destruct (stat fs d) eqn:Hd; [discriminate|].
  destruct (String.eqb_spec d "") as [|Hp]; [discriminate|]. cbn [negb andb].
  destruct (parent_is_dir fs _); [|discriminate].
  destruct (can_link fs _ _); [|discriminate].
  apply stat_None in Hd as [|[Hr Ht]]; [done|].
  intros [= <-]. by exists i.
Qed.

Lemma shutil_copy2_dirs (fs fs' : FS) (src dst : string) (e : option exn) :
  shutil_copy2 fs src dst = (fs', e) -> dirs_preserved fs fs'.
Proof.
  unfold shutil_copy2. destruct (stat fs src) as [[|i]|];
    try (intros [= <- _]; apply dirs_preserved_refl).
  destruct (stat fs _) as [[|j]|]; try apply write_file_dirs.
  destruct (i =? j)%nat; [intros [= <- _]; apply dirs_preserved_refl|].
  apply write_file_dirs.
Qed.

Lemma shutil_copy2_spec (fs fs' : FS) (src dst : string) :
  isdir fs dst = false ->
  shutil_copy2 fs src dst = (fs', None) ->
  exists i, stat fs src = Some (File i) /\ stat fs dst <> Some (File i) /\
            write_file fs dst (content fs i) = (fs', None).
Proof.
  intros Hd. unfold shutil_copy2. rewrite Hd.
  destruct (stat fs src) as [[|i]|]; try discriminate.
  intros H. exists i. split; [done|].
  destruct (stat fs dst) as [[|j]|]; try done.
  destruct (Nat.eqb_spec i j); [discriminate|]. split; [congruence | done].
Qed.

Lemma copy_then_remove_dirs (fs r : FS) (src dst : string) (del : bool) (e : option exn) :
  copy_then_remove fs src dst del = (r, e) -> dirs_preserved fs r.
Proof.
  unfold copy_then_remove.
  destruct (shutil_copy2 fs src dst) as [fs2 [e2|]] eqn:Hc.
  - intros [= <- _]. by eapply shutil_copy2_dirs.
  - apply shutil_copy2_dirs in Hc. destruct del; [|by intros [= <- _]].
    intros Hr. apply os_remove_dirs in Hr. by eapply dirs_preserved_trans.
Qed.

Lemma copy_then_remove_first (fs1 r : FS) (src dst : string) (del : bool) :
  isdir fs1 dst = false ->
  copy_then_remove fs1 src dst del = (r, None) ->
  exists i j, stat fs1 src = Some (File i) /\ transferred fs1 r src dst del i j.
Proof.
  intros Hnd Hcb. pose proof (copy_then_remove_dirs _ _ _ _ _ _ Hcb) as Hdirs.
  unfold copy_then_remove in Hcb.
  destruct (shutil_copy2 fs1 src dst) as [fs2 [e|]] eqn:Hc; [discriminate|].
  apply shutil_copy2_spec in Hc as (i & Hsrc & Hne & Hw); [|done].
  apply write_file_spec in Hw as (Hp & Hr & Hcwd & j & Ht & Hdata & Hold).
  destruct (stat_File _ _ _ Hsrc) as (Hsp & Hsr & Hst).
  set (s := resolve (cwd fs1) src) in *. set (d := resolve (cwd fs1) dst) in *.
  assert (Hsd : s <> d).
  { intros Heq. rewrite Heq in Hst. destruct Hold as [Ho|Ho]; [|congruence].
    apply Hne. rewrite stat_tree by done. fold d. congruence. }
  assert (Hdst2 : stat fs2 dst = Some (File j)).
  { rewrite stat_tree by (by rewrite ?Hcwd). rewrite Hcwd. fold d.
    by rewrite Ht, lookup_insert_eq. }
  assert (Hsrc2 : stat fs2 src = Some (File i)).
  { rewrite stat_tree by (by rewrite ?Hcwd). rewrite Hcwd. fold s.
    by rewrite Ht, lookup_insert_ne. }
  assert (Hc2 : content fs2 j = content fs1 i).
  { unfold content at 1. by rewrite Hdata, lookup_insert_eq. }
  exists i, j. split; [done|]. destruct del.
  - apply os_remove_spec in Hcb as (i' & _ & ->).
    rewrite Hcwd in *. fold s in Hdirs |- *.
    split; [exact Hdirs|]. split; [|split].
    + rewrite stat_tree by (by cbn; rewrite ?Hcwd). cbn [cwd set_tree tree].
      rewrite Hcwd. fold d. by rewrite lookup_delete_ne, Ht, lookup_insert_eq.
    + done.
    + rewrite stat_tree by (by cbn; rewrite ?Hcwd). cbn [cwd set_tree tree].
      rewrite Hcwd. fold s. by rewrite lookup_delete_eq.
  - injection Hcb as <-. split; [exact Hdirs|]. repeat split; try done.
    destruct (decide (j = i)) as [|Hji]; [by left | right].
    unfold content. rewrite Hdata, lookup_insert_eq, lookup_insert_ne by done.
    done.
Qed.

Lemma copy_then_remove_second (fs1 r : FS) (src dst : string) (del : bool) (i j : nat) :
  transferred fs1 r src dst del i j ->
  (copy_then_remove r src dst del).1 = r.
Proof.
  intros (_ & Hdst & _ & Hsrc). unfold copy_then_remove, shutil_copy2.
  assert (Hnd : isdir r dst = false) by (unfold isdir; by rewrite Hdst).
  rewrite Hnd. destruct del.
  - by rewrite Hsrc.
  - destruct Hsrc as [Hsrc Hij]. rewrite Hsrc, Hdst.
    destruct (Nat.eqb_spec i j) as [|Hne]; [done|].
    destruct Hij as [|Hj]; [congruence|].
    unfold write_file. rewrite Hdst. cbn [fst].
    rewrite insert_id by done. by destruct r.
Qed.

Lemma smart_copy_second (fs fs1 r : FS) (src dst : string) (hl del : bool) (i j : nat) :
  abspath_eqb (abspath (cwd fs) src) (abspath (cwd fs) dst) = false ->
  os_makedirs fs (dirname dst) = (fs1, None) ->
  transferred fs1 r src dst del i j ->
  (smart_copy r src dst hl del).1 = r.
Proof.
  intros Hne Hmk Ht. pose proof Ht as ([Hcwd Hd] & Hdst & _ & Hsrc).
  destruct (os_makedirs_facts _ _ _ _ Hmk) as (Hcwd1 & _).
  unfold smart_copy. rewrite Hcwd, Hcwd1, Hne.
  rewrite (os_makedirs_idem fs fs1 r _ Hmk) by (by split).
  pose proof (copy_then_remove_second _ _ _ _ _ _ _ Ht) as Hcb.
  destruct hl; [|done].
  unfold os_link. destruct del.
  - by rewrite Hsrc.
  - destruct Hsrc as [Hsrc _]. by rewrite Hsrc, Hdst.
Qed.

Lemma os_link_dirs (fs fs' : FS) (s d : string) (e : option exn) :
  os_link fs s d = (fs', e) -> dirs_preserved fs fs'.
Proof.
  destruct e as [e|].
  - intros ->%os_link_fail. apply dirs_preserved_refl.
  - intros (i & _ & _ & _ & Hd & ->)%os_link_spec. split; [done|].
    intros k Hk. cbn. rewrite lookup_insert_ne; [done | congruence].
Qed.

Lemma isdir_preserved (a b : FS) (p : string) :
  dirs_preserved a b -> isdir a p = true -> isdir b p = true.
Proof.
  intros [Hc Hd]. unfold isdir, stat, node_at. rewrite Hc.
  destruct (String.eqb p ""); [done|].
  destruct (resolve (cwd a) p) as [|c l]; [done|].
  destruct (tree a !! (c :: l)) as [[|i]|] eqn:Hk; try done.
  by rewrite (Hd _ Hk).
Qed.

Lemma smart_copy_first (fs r : FS) (src dst : string) (hl del : bool) :
  abspath_eqb (abspath (cwd fs) src) (abspath (cwd fs) dst) = false ->
  smart_copy fs src dst hl del = (r, None) ->
  isdir r dst = false ->
  exists fs1 i j,
    os_makedirs fs (dirname dst) = (fs1, None) /\
    stat fs1 src = Some (File i) /\
    transferred fs1 r src dst del i j.
Proof.
  intros Hne Hsc Hnd. unfold smart_copy in Hsc. rewrite Hne in Hsc.
  destruct (os_makedirs fs (dirname dst)) as [fs1 [e|]] eqn:Hmk; [discriminate|].
  exists fs1.
  assert (Hcopy : copy_then_remove fs1 src dst del = (r, None) ->
                  exists i j, stat fs1 src = Some (File i) /\
                              transferred fs1 r src dst del i j).
  { intros Hcb. apply copy_then_remove_first; [|done].
    destruct (isdir fs1 dst) eqn:Hd1; [|done].
    apply copy_then_remove_dirs in Hcb.
    by rewrite (isdir_preserved _ _ _ Hcb Hd1) in Hnd. }
  assert (Hgoal : (exists i j, stat fs1 src = Some (File i) /\
                               transferred fs1 r src dst del i j) ->
                  exists i j, (fs1, @None exn) = (fs1, None) /\
                              stat fs1 src = Some (File i) /\
                              transferred fs1 r src dst del i j)
    by (intros (i & j & ? & ?); by exists i, j).
  apply Hgoal. clear Hgoal.
  destruct hl; [|by apply Hcopy].
  destruct (os_link fs1 src dst) as [fsL [eL|]] eqn:HL.
  { apply os_link_fail in HL as ->. by apply Hcopy. }
  clear Hcopy. pose proof (os_link_dirs _ _ _ _ _ HL) as HLd.
  apply os_link_spec in HL as (i & Hsrc & Hdp & Hdr & Hdn & ->).
  destruct (stat_File _ _ _ Hsrc) as (Hsp & Hsr & Hst).
  set (s := resolve (cwd fs1) src) in *. set (d := resolve (cwd fs1) dst) in *.
  assert (Hsd : s <> d) by congruence.
  set (fsL := set_tree fs1 (<[d := File i]> (tree fs1))) in *.
  assert (HsrcL : stat fsL src = Some (File i)).
  { rewrite stat_tree by done. cbn. fold s. by rewrite lookup_insert_ne. }
  assert (HdstL : stat fsL dst = Some (File i)).
  { rewrite stat_tree by done. cbn. fold d. by rewrite lookup_insert_eq. }
  exists i, i. split; [done|]. destruct del.
  - destruct (os_remove fsL src) as [fs3 [e3|]] eqn:Hrm.
    { unfold os_remove in Hrm. rewrite HsrcL in Hrm. discriminate. }
    pose proof (os_remove_dirs _ _ _ _ Hrm) as Hrd.
    apply os_remove_spec in Hrm as (i' & _ & ->). injection Hsc as <-.
    split; [by eapply dirs_preserved_trans|]. cbn [cwd set_tree fsL]. fold s.
    split; [|split].
    + rewrite stat_tree by done. cbn. fold d.
      by rewrite lookup_delete_ne, lookup_insert_eq.
    + done.
    + rewrite stat_tree by done. cbn. fold s. by rewrite lookup_delete_eq.
  - injection Hsc as <-. split; [done|]. repeat split; try done. by left.
Qed.

Lemma copy_then_remove_succeeds (fs1 : FS) (src dst : string) (del : bool) (i : nat) :
  stat fs1 src = Some (File i) -> dst <> "" ->
  parent_is_dir fs1 (resolve (cwd fs1) dst) = true ->
  stat fs1 dst = None \/ (exists j, stat fs1 dst = Some (File j) /\ j <> i) ->
  exists r j,
    copy_then_remove fs1 src dst del = (r, None) /\
    cwd r = cwd fs1 /\
    tree r = (if del
              then delete (resolve (cwd fs1) src)
                     (<[resolve (cwd fs1) dst := File j]> (tree fs1))
              else <[resolve (cwd fs1) dst := File j]> (tree fs1)) /\
    content r j = content fs1 i.
Proof.
  intros Hsrc Hdst0 Hpar Hdst.
  pose proof (stat_File _ _ _ Hsrc) as (Hp & Hr & Ht).
  assert (isdir fs1 dst = false) as Hnd.
  { unfold isdir. by destruct Hdst as [->|(j & -> & _)]. }
  assert (exists fs2 j,
            shutil_copy2 fs1 src dst = (fs2, None) /\ cwd fs2 = cwd fs1 /\
            tree fs2 = <[resolve (cwd fs1) dst := File j]> (tree fs1) /\
            content fs2 j = content fs1 i /\ resolve (cwd fs1) dst <> [] /\
            resolve (cwd fs1) src <> resolve (cwd fs1) dst)
    as (fs2 & j & Hcopy & Hc2 & Ht2 & Hcont & Hrd & Hdiff).
  { unfold shutil_copy2. rewrite Hnd, Hsrc. destruct Hdst as [Hnone|(j & Hj & Hne)].
    - rewrite Hnone. unfold write_file. rewrite Hnone.
      destruct (String.eqb_spec dst ""); [done|]. cbn [negb andb]. rewrite Hpar.
      apply stat_None in Hnone as [|[Hrd Htd]]; [done|].
      eexists _, (next_ino fs1). split; [done|]. cbn [cwd tree].
      split; [done|]. split; [done|]. split; [|split; [done|congruence]].
      unfold content at 1. cbn [data]. by rewrite lookup_insert_eq.
    - rewrite Hj. destruct (Nat.eqb_spec i j); [congruence|].
      unfold write_file. rewrite Hj.
      apply stat_File in Hj as (_ & Hrd & Htd).
      eexists _, j. split; [done|]. cbn [cwd tree].
      split; [done|]. split; [by rewrite insert_id|]. split; [|split; [done|congruence]].
      unfold content at 1. cbn [data]. by rewrite lookup_insert_eq. }
  unfold copy_then_remove. rewrite Hcopy. destruct del.
  - assert (stat fs2 src = Some (File i)) as Hsrc2.
    { rewrite stat_tree by (by rewrite ?Hc2). by rewrite Hc2, Ht2, lookup_insert_ne. }
    unfold os_remove. rewrite Hsrc2. exists (set_tree fs2 (delete (resolve (cwd fs2) src) (tree fs2))), j.
    split; [done|]. cbn [cwd tree set_tree data]. rewrite Hc2, Ht2.
    split; [done|]. split; [done|]. exact Hcont.
  - exists fs2, j. by repeat split.
Qed.

Lemma smart_copy_succeeds (fs fs1 : FS) (src dst : string) (hl del : bool) (i : nat) :
  abspath (cwd fs) src <> abspath (cwd fs) dst ->
  stat fs src = Some (File i) ->
  os_makedirs fs (dirname dst) = (fs1, None) ->
  dst <> "" ->
  parent_is_dir fs1 (resolve (cwd fs) dst) = true ->
  stat fs1 dst = None \/ (exists j, stat fs1 dst = Some (File j) /\ j <> i) ->
  exists r j,
    smart_copy fs src dst hl del = (r, None) /\
    cwd r = cwd fs /\
    tree r = (if del
              then delete (resolve (cwd fs) src)
                     (<[resolve (cwd fs) dst := File j]> (tree fs1))
              else <[resolve (cwd fs) dst := File j]> (tree fs1)) /\
    content r j = content fs i.
Proof.
  intros Hne Hsrc Hmk Hdst0 Hpar Hdst. unfold smart_copy.
  destruct (abspath_eqb _ _) eqn:Heq; [by apply abspath_eqb_eq in Heq|].
  rewrite Hmk. pose proof (os_makedirs_facts _ _ _ _ Hmk) as (Hc & Hd & Hmono & _).
  assert (stat fs1 src = Some (File i)) as Hsrc1.
  { apply stat_File in Hsrc as (Hp & Hr & Ht).
    rewrite stat_tree by (by rewrite ?Hc). rewrite Hc. by apply Hmono. }
  assert (content fs1 i = content fs i) as Hcont by (unfold content; by rewrite Hd).
  rewrite <- Hc in *. rewrite <- Hcont. clear Hc Hcont Hd Hmono Hmk Hsrc Heq Hne.
  pose proof (copy_then_remove_succeeds fs1 src dst del i Hsrc1 Hdst0 Hpar Hdst) as Hcopy.
  destruct hl; [|exact Hcopy].
  destruct (os_link fs1 src dst) as [fs2 [e|]] eqn:Hl.
  { apply os_link_fail in Hl as ->. exact Hcopy. }
  clear Hcopy. apply os_link_spec in Hl as (i' & Hs' & _ & Hrd & Htd & ->).
  rewrite Hsrc1 in Hs'. injection Hs' as <-.
  pose proof (stat_File _ _ _ Hsrc1) as (Hp & Hr & Ht).
  set (fs2 := set_tree fs1 _).
  destruct del.
  - assert (stat fs2 src = Some (File i)) as Hsrc2.
    { rewrite stat_tree by done. cbn [fs2 tree set_tree cwd].
      rewrite lookup_insert_ne; [done|congruence]. }
    unfold os_remove. rewrite Hsrc2. eexists _, i. split; [done|]. by repeat split.
  - exists fs2, i. by repeat split.
Qed.

(** C4.  smart_copy does nothing when the absolute paths of source and
    destination are equal, in every mode.  For distinct paths, a source that
    is a file and a destination whose directory can be made and which is
    free or another file, the call returns in every mode (plain copy, hard
    link, move, refused link), having added exactly one entry, the file at
    the destination with the content the source had (and removed the source
    name in move mode); a second call with the same arguments leaves the
    file system exactly as the first call left it. *)
Theorem smart_copy_idempotent (fs fs1 : FS) (src dst : string) (hl del : bool)
    (i : nat) :
  (abspath (cwd fs) src = abspath (cwd fs) dst ->
   smart_copy fs src dst hl del = (fs, None)) /\
  (abspath (cwd fs) src <> abspath (cwd fs) dst ->
   stat fs src = Some (File i) ->
   os_makedirs fs (dirname dst) = (fs1, None) ->
   dst <> "" ->
   parent_is_dir fs1 (resolve (cwd fs) dst) = true ->
   stat fs1 dst = None \/ (exists j, stat fs1 dst = Some (File j) /\ j <> i) ->
   let once := smart_copy fs src dst hl del in
   once.2 = None /\
   exists j,
     stat once.1 dst = Some (File j) /\
     content once.1 j = content fs i /\
     tree once.1 =
       (if del
        then delete (resolve (cwd fs) src) (<[resolve (cwd fs) dst := File j]> (tree fs1))
        else <[resolve (cwd fs) dst := File j]> (tree fs1)) /\
     stat once.1 src = (if del then None else Some (File i)) /\
     (smart_copy once.1 src dst hl del).1 = once.1).
Proof.
  split.
  - intros Heq. unfold smart_copy.
    by rewrite (proj2 (abspath_eqb_eq _ _) Heq).
  - intros Hne Hsrc Hmk Hdst0 Hpar Hdst. cbv zeta.
    destruct (smart_copy_succeeds fs fs1 src dst hl del i Hne Hsrc Hmk Hdst0 Hpar Hdst)
      as (r & j & Honce & Hc & Ht & Hcont).
    rewrite Honce. cbn [fst snd]. split; [done|]. exists j.
    pose proof (os_makedirs_facts _ _ _ _ Hmk) as (Hc1 & _ & Hmono & _).
    pose proof (stat_File _ _ _ Hsrc) as (Hp & Hr & Hts). apply Hmono in Hts.
    assert (resolve (cwd fs) dst <> [] /\ resolve (cwd fs) src <> resolve (cwd fs) dst)
      as [Hrd Hdiff].
    { rewrite <- Hc1 in *. destruct Hdst as [Hnone|(j' & Hj & Hji)].
      - apply stat_None in Hnone as [|[? ?]]; [done|]. split; [done|congruence].
      - apply stat_File in Hj as (_ & ? & ?). split; [done|congruence]. }
    assert (stat r dst = Some (File j)) as Hdst_r.
    { rewrite stat_tree by (by rewrite ?Hc). rewrite Hc, Ht. destruct del.
      - rewrite lookup_delete_ne by done. by rewrite lookup_insert_eq.
      - by rewrite lookup_insert_eq. }
    assert (stat r src = (if del then None else Some (File i))) as Hsrc_r.
    { rewrite stat_tree by (by rewrite ?Hc). rewrite Hc, Ht. destruct del.
      - by rewrite lookup_delete_eq.
      - by rewrite lookup_insert_ne. }
    split; [done|]. split; [done|]. split; [done|]. split; [done|].
    assert (abspath_eqb (abspath (cwd fs) src) (abspath (cwd fs) dst) = false) as Hneb.
    { destruct (abspath_eqb _ _) eqn:E; [|done]. by apply abspath_eqb_eq in E. }
    assert (isdir r dst = false) as Hnd by (unfold isdir; by rewrite Hdst_r).
    destruct (smart_copy_first _ _ _ _ _ _ Hneb Honce Hnd)
      as (fs1' & i' & j' & Hmk' & _ & Htr).
    by eapply smart_copy_second.
Qed.

(** How the second call ends: it returns after a plain copy, and raises
    after a move (the source is gone) and after a hard link (source and
    destination are one file); the state is the same in all three. *)
Example smart_copy_second_call_outcome :
  let twice hl del :=
    smart_copy (smart_copy sample_fs "/dl/a.mp3" "/lib/X/Y.mp3" hl del).1
      "/dl/a.mp3" "/lib/X/Y.mp3" hl del in
  ((twice false false).2, (twice false true).2, (twice true false).2) =
  (None, Some FileNotFoundError, Some SameFileError).
Proof. vm_compute. reflexivity. Qed.

Lemma smart_copy_idempotent_witness :
  Forall
    (fun mode : bool * bool =>
       let once := smart_copy sample_fs "/dl/a.mp3" "/lib/X/Y.mp3" mode.1 mode.2 in
       once.2 = None /\
       exists j,
         stat once.1 "/lib/X/Y.mp3" = Some (File j) /\
         content once.1 j = "AUDIO" /\
         (smart_copy once.1 "/dl/a.mp3" "/lib/X/Y.mp3" mode.1 mode.2).1 = once.1)
    [(false, false); (false, true); (true, false); (true, true)].
Proof.
  assert (forall hl del,
            let once := smart_copy sample_fs "/dl/a.mp3" "/lib/X/Y.mp3" hl del in
            once.2 = None /\
            exists j,
              stat once.1 "/lib/X/Y.mp3" = Some (File j) /\
              content once.1 j = "AUDIO" /\
              (smart_copy once.1 "/dl/a.mp3" "/lib/X/Y.mp3" hl del).1 = once.1) as H.
  { intros hl del.
    destruct (proj2 (smart_copy_idempotent sample_fs
                       (os_makedirs sample_fs (dirname "/lib/X/Y.mp3")).1
                       "/dl/a.mp3" "/lib/X/Y.mp3" hl del 0))
      as (Hok & j & Hdst & Hcont & _ & _ & Htwice).
    - vm_compute. discriminate.
    - vm_compute. reflexivity.
    - vm_compute. reflexivity.
    - discriminate.
    - vm_compute. reflexivity.
    - left. vm_compute. reflexivity.
    - split; [exact Hok|]. exists j. split; [exact Hdst|]. split; [exact Hcont|].
      exact Htwice. }
  repeat constructor; apply H.
Defined.

(** ** process_completed_download *)

(** C7.  When the catalog has no record for the request's asin, or no
    library root is configured, process_completed_download logs one message
    and returns: database, file system and request object are what they
    were, nothing was committed and no import session exists that did not
    before. *)
Theorem process_completed_download_aborts_unchanged (P : ProcessorEnv)
    (session : Session) (fs : FS) (book_request : AudiobookRequest)
    (download_path : string) (delete_source collection : bool)
    (collection_label : option string) :
  audiobooks session !! asin book_request = None \/ get_library_path session = None ->
  let run := process_completed_download P session fs book_request download_path
               delete_source collection collection_label in
  run_session run = session /\ run_fs run = fs /\
  run_request run = book_request /\ run_commits run = [] /\
  run_raised run = None /\
  (run_log run = ["Processor: Book not found in database"] \/
   run_log run = ["Processor: Library path not configured"]).
Proof.
  intros H. cbv zeta. unfold process_completed_download.
  destruct (audiobooks session !! asin book_request) as [book|].
  - destruct H as [H|H]; [discriminate|]. rewrite H. cbn. by repeat split; auto.
  - cbn. by repeat split; auto.
Qed.

Lemma process_completed_download_aborts_unchanged_witness :
  run_session (process_completed_download idle_processor no_catalog_session sample_fs
                 collection_request "/dl" false false None) = no_catalog_session.
Proof.
  apply (process_completed_download_aborts_unchanged idle_processor no_catalog_session
           sample_fs collection_request "/dl" false false None).
  left. reflexivity.
Defined.

(** C2, as the specification states it, fails: with a scan collaborator
    that returns normally, the import session ends [failed], not
    [completed]; the collaborator is never run. *)
Lemma collection_status_as_stated_fails :
  ~ collection_status_as_stated idle_processor collection_session sample_fs
      collection_request "/dl" false None.
Proof.
  intros H.
  specialize (H ltac:(by eexists) ltac:(by eexists) _ _ _ eq_refl).
  vm_compute in H. discriminate.
Qed.

Lemma import_status_failed (session : Session) (id : nat) :
  is_Some (import_status session id) ->
  import_status (commit_import_status session id failed) id = Some failed.
Proof.
  unfold import_status, commit_import_status. cbn [import_sessions set_import_sessions].
  induction (import_sessions session) as [|r l IH]; cbn [find map].
  - by intros [x Hx].
  - destruct (Nat.eqb_spec (import_id r) id) as [Heq|Hne]; cbn [import_id].
    + intros _. destruct (Nat.eqb_spec (import_id r) id); [done | congruence].
    + destruct (Nat.eqb_spec (import_id r) id); [congruence | done].
Qed.

Lemma import_id_below_fresh (rows : list LibraryImportSession) (r : LibraryImportSession) :
  r ∈ rows -> import_id r <= foldr Nat.max 0 (map import_id rows).
Proof.
  induction rows as [|x rows IH]; [by intros ?%elem_of_nil|].
  intros [->|Hin]%elem_of_cons; cbn [map foldr]; [lia|]. specialize (IH Hin). lia.
Qed.

Lemma commit_import_status_fresh (rows : list LibraryImportSession) (id : nat)
    (st : ImportSessionStatus) :
  foldr Nat.max 0 (map import_id rows) < id ->
  map (fun r => if (import_id r =? id)%nat
                then mkLibraryImportSession (import_id r) (root_path r) st else r) rows
  = rows.
Proof.
  intros Hlt. rewrite <- (map_id rows) at 2. apply map_ext_in. intros r Hr.
  apply list_elem_of_In, import_id_below_fresh in Hr.
  destruct (Nat.eqb_spec (import_id r) id); [lia | done].
Qed.

Lemma find_import_fresh (rows : list LibraryImportSession) (id : nat)
    (new : LibraryImportSession) :
  foldr Nat.max 0 (map import_id rows) < id -> import_id new = id ->
  find (fun r => (import_id r =? id)%nat) (rows ++ [new]) = Some new.
Proof.
  intros Hlt Hnew. induction rows as [|x rows IH]; cbn [app find].
  - by rewrite Hnew, Nat.eqb_refl.
  - cbn [map foldr] in Hlt. destruct (Nat.eqb_spec (import_id x) id); [lia|].
    apply IH. lia.
Qed.

(** C2, what the code does.  With collection=true (and a catalog record and
    a library root), process_completed_download adds a LibraryImportSession
    with the download path as root_path and status scanning, and then, at
    the first line of its try block, raises UnboundLocalError: aiohttp is a
    local name of the function and not yet bound.  The scan collaborator is
    never run, whatever it would do.  The handler sets the new session to
    failed and logs an error event with the text of the exception; the
    request is committed with processing_status "completed" and the call
    returns.  The file system is untouched: nothing is copied or deleted,
    whatever the completion action and delete_source. *)
Theorem process_completed_download_collection (P : ProcessorEnv)
    (session : Session) (fs : FS) (book_request : AudiobookRequest)
    (download_path : string) (delete_source : bool)
    (collection_label : option string) :
  is_Some (audiobooks session !! asin book_request) ->
  is_Some (get_library_path session) ->
  let run := process_completed_download P session fs book_request download_path
               delete_source true collection_label in
  let id := fresh_import_id session in
  let a := asin book_request in
  let u := user_username book_request in
  let label := match collection_label with
               | Some l => if String.eqb l "" then "collection" else l
               | None => "collection"
               end in
  import_sessions (session_before_scan session book_request download_path
                     collection_label) =
    import_sessions session ++ [mkLibraryImportSession id download_path scanning] /\
  import_sessions (run_session run) =
    import_sessions session ++ [mkLibraryImportSession id download_path failed] /\
  import_status (run_session run) id = Some failed /\
  request_logs (run_session run) =
    request_logs session ++
    [mkRequestLogEvent a u
       ("Collection download completed. Scanning folder for books (" +:+ label +:+ ")")
       info;
     mkRequestLogEvent a u ("Collection scan failed: " +:+ unbound_local_text P) error] /\
  run_log run = ["Processor: Collection scan failed"] /\
  run_fs run = fs /\
  run_raised run = None /\
  run_request run = set_processing_status book_request "completed" /\
  run_commits run = [set_processing_status book_request "completed"] /\
  requests (run_session run) =
    write_back (set_processing_status book_request "completed") (requests session) /\
  audiobooks (run_session run) = audiobooks session /\
  users (run_session run) = users session /\
  settings (run_session run) = settings session.
Proof.
  intros [book Hb] [lib Hl]. cbv zeta.
  unfold process_completed_download. rewrite Hb, Hl.
  cbn [run_session run_fs run_raised run_request run_commits run_log commit_run
         with_session with_log with_fs commit_request set_requests requests
         import_sessions request_logs audiobooks users settings
         log_request_event set_request_logs set_import_sessions commit_import_status
         session_before_scan].
  assert (foldr Nat.max 0 (map import_id (import_sessions session))
          < fresh_import_id session) as Hfresh.
  { unfold fresh_import_id. cbn [import_sessions log_request_event set_request_logs]. lia. }
  assert (fresh_import_id
            (log_request_event session (asin book_request) (user_username book_request)
               ("Collection download completed. Scanning folder for books (" +:+
                match collection_label with
                | Some l => if String.eqb l "" then "collection" else l
                | None => "collection"
                end +:+ ")") info) = fresh_import_id session) as Hid by done.
  rewrite Hid. split; [done|].
  assert (map (fun r => if (import_id r =? fresh_import_id session)%nat
                        then mkLibraryImportSession (import_id r) (root_path r) failed
                        else r)
            (import_sessions session ++
             [mkLibraryImportSession (fresh_import_id session) download_path scanning])
          = import_sessions session ++
            [mkLibraryImportSession (fresh_import_id session) download_path failed])
    as Hmap.
  { rewrite map_app, commit_import_status_fresh by done.
    cbn [map import_id root_path]. by rewrite Nat.eqb_refl. }
  rewrite Hmap. split; [done|]. split.
  { unfold import_status.
    cbn [run_session commit_run with_session commit_request set_requests
           import_sessions log_request_event set_request_logs set_import_sessions
           commit_import_status].
    rewrite Hmap. by rewrite find_import_fresh. }
  split; [by rewrite <- app_assoc|]. by repeat split.
Qed.

Lemma process_completed_download_collection_witness :
  import_status
    (run_session (process_completed_download idle_processor collection_session sample_fs
                    collection_request "/dl" true true None))
    (fresh_import_id collection_session) = Some failed /\
  run_fs (process_completed_download idle_processor collection_session sample_fs
            collection_request "/dl" true true None) = sample_fs.
Proof.
  destruct (process_completed_download_collection idle_processor collection_session
              sample_fs collection_request "/dl" true None)
    as (_ & _ & Hst & _ & _ & Hfs & _); [by eexists | by eexists |].
  split; [exact Hst | exact Hfs].
Defined.

(** ** Progress *)

Lemma ratio_mono (N i j : nat) :
  i <= j ->
  (inject_Z (Z.of_nat i) / inject_Z (Z.of_nat N) <=
   inject_Z (Z.of_nat j) / inject_Z (Z.of_nat N))%Q.
Proof.
  intros H. unfold Qdiv. apply Qmult_le_compat_r.
  - rewrite <- Zle_Qle. lia.
  - apply Qinv_le_0_compat. change 0%Q with (inject_Z 0). rewrite <- Zle_Qle. lia.
Qed.

Lemma ratio_full (N : nat) :
  0 < N -> (inject_Z (Z.of_nat N) / inject_Z (Z.of_nat N) == 1)%Q.
Proof.
  intros H. unfold Qdiv. apply Qmult_inv_r. intros E.
  unfold Qeq in E. simpl in E. lia.
Qed.

Lemma copy_progress_mono (N i j : nat) :
  i <= j -> (copy_progress i N <= copy_progress j N)%Q.
Proof. intros H. unfold copy_progress. pose proof (ratio_mono N i j H). lra. Qed.

Lemma copy_progress_full (N : nat) : 0 < N -> (copy_progress N N == 92 # 100)%Q.
Proof. intros H. unfold copy_progress. rewrite (ratio_full N H). reflexivity. Qed.

Lemma copy_progress_lower (N i : nat) : (9 # 10 <= copy_progress i N)%Q.
Proof.
  unfold copy_progress. pose proof (ratio_mono N 0 i ltac:(lia)) as H.
  assert (H0 : (inject_Z (Z.of_nat 0) / inject_Z (Z.of_nat N) == 0)%Q)
    by (unfold Qdiv; simpl; ring).
  lra.
Qed.

Lemma copy_progress_upper (N i : nat) : i <= N -> (copy_progress i N <= 92 # 100)%Q.
Proof.
  intros H. destruct N as [|N].
  - assert (i = 0) as -> by lia. unfold copy_progress, Qle. simpl. lia.
  - rewrite <- (copy_progress_full (S N)) by lia. apply copy_progress_mono. lia.
Qed.

Lemma seq_StronglySorted (a n : nat) : StronglySorted le (seq a n).
Proof.
  revert a. induction n as [|n IH]; intros a; cbn [seq]; constructor; [apply IH|].
  apply Forall_forall. intros x Hx%list_elem_of_In%in_seq. lia.
Qed.

Lemma copy_values_sorted (N : nat) : StronglySorted Qle (copy_values N).
Proof.
  unfold copy_values.
  apply (StronglySorted_fmap (fun idx => copy_progress idx N) le Qle);
    [|apply seq_StronglySorted].
  intros x y. apply copy_progress_mono.
Qed.

Lemma copy_values_bounds (N : nat) (q : Q) :
  q ∈ copy_values N -> (9 # 10 <= q /\ q <= 92 # 100)%Q.
Proof.
  unfold copy_values.
  intros (idx & Hq & Hidx)%list_elem_of_In%in_map_iff. subst q.
  apply in_seq in Hidx. split; [apply copy_progress_lower|].
  apply copy_progress_upper. lia.
Qed.

Lemma progress_updates_sorted (N : nat) (cover : bool) :
  StronglySorted Qle (progress_updates N cover).
Proof.
  unfold progress_updates. apply StronglySorted_app_2.
  - intros x y Hx%copy_values_bounds Hy.
    assert (95 # 100 <= y)%Q; [|lra].
    destruct cover; cbn in Hy;
      repeat (apply elem_of_cons in Hy as [->|Hy]); try (by apply elem_of_nil in Hy);
      unfold Qle; simpl; lia.
  - apply copy_values_sorted.
  - destruct cover; cbn; repeat constructor; unfold Qle; simpl; lia.
Qed.

Lemma progress_updates_bounds (N : nat) (cover : bool) (q : Q) :
  q ∈ progress_updates N cover -> (9 # 10 <= q /\ q <= 1)%Q.
Proof.
  unfold progress_updates. intros [Hq%copy_values_bounds|Hq]%elem_of_app; [lra|].
  destruct cover; cbn in Hq;
    repeat (apply elem_of_cons in Hq as [->|Hq]); try (by apply elem_of_nil in Hq);
    unfold Qle; simpl; lia.
Qed.

Lemma progress_updates_lookup (N : nat) (cover : bool) (idx : nat) :
  1 <= idx <= N ->
  progress_updates N cover !! (idx - 1) = Some (copy_progress idx N).
Proof.
  intros H. unfold progress_updates, copy_values.
  rewrite lookup_app_l by (rewrite length_map, length_seq; lia).
  change (map ?f ?l) with (f <$> l).
  rewrite list_lookup_fmap, lookup_seq_lt by lia. cbn. f_equal. f_equal. lia.
Qed.

Lemma copy_and_rename_commits (P : ProcessorEnv) (book : Audiobook)
    (pattern dest_path : string) (hl del : bool) (total : nat)
    (todo : list (nat * string)) (run : Run) :
  run_raised run = None ->
  let run' := copy_and_rename P book pattern dest_path hl del total todo run in
  exists k,
    k <= length todo /\
    map download_progress (run_commits run') =
      map download_progress (run_commits run) ++
      map (fun idx => copy_progress idx total) (take k (map fst todo)) /\
    (run_raised run' = None -> k = length todo).
Proof.
  revert run. induction todo as [|[idx s_path] todo IH]; intros run Hr; cbv zeta.
  - exists 0. cbn. by rewrite app_nil_r.
  - cbn [copy_and_rename].
    destruct (smart_copy (run_fs run) s_path _ hl del) as [fs [e|]].
    + exists 0. cbn. rewrite app_nil_r. repeat split; [lia | done].
    + destruct (IH (commit_run (with_fs run fs)
                      (set_download_progress (run_request run) (copy_progress idx total)))
                  Hr) as (k & Hk & Hc & Hn).
      exists (S k). cbn [length]. split; [lia|]. split; [|intros H; by rewrite Hn].
      rewrite Hc. cbn [commit_run run_commits with_fs map fst take].
      rewrite map_app. cbn [map download_progress set_download_progress].
      by rewrite <- app_assoc.
Qed.

Lemma enumerate1_fst {A} (l : list A) : map fst (enumerate1 l) = seq 1 (length l).
Proof.
  unfold enumerate1. generalize 1. induction l as [|x l IH]; intros a; [done|].
  cbn. by rewrite IH.
Qed.

Lemma take_progress_updates (N k : nat) (cover : bool) :
  k <= N ->
  map (fun idx => copy_progress idx N) (take k (seq 1 N)) =
  take k (progress_updates N cover).
Proof.
  intros Hk. unfold progress_updates.
  rewrite take_app_le by (unfold copy_values; rewrite length_map, length_seq; lia).
  unfold copy_values. symmetry. apply firstn_map.
Qed.

Lemma StronglySorted_take {A} (R : relation A) (l : list A) (k : nat) :
  StronglySorted R l -> StronglySorted R (take k l).
Proof.
  intros H. rewrite <- (take_drop k l) in H. by apply StronglySorted_app_1_l in H.
Qed.

Lemma elem_of_take_weaken {A} (l : list A) (k : nat) (x : A) : x ∈ take k l -> x ∈ l.
Proof. intros H. rewrite <- (take_drop k l). apply elem_of_app. by left. Qed.

Lemma save_cover_commits (P : ProcessorEnv) (book : Audiobook)
    (dest_path url : string) (run : Run) :
  run_commits (save_cover P book dest_path url run) =
    run_commits run ++
    [set_download_progress (set_processing_status (run_request run) "saving_cover")
       (98 # 100)%Q] /\
  run_request (save_cover P book dest_path url run) =
    set_download_progress (set_processing_status (run_request run) "saving_cover")
      (98 # 100)%Q /\
  run_raised (save_cover P book dest_path url run) = run_raised run.
Proof.
  unfold save_cover. destruct (http_get P url) as [[code bytes]|]; [|done].
  by destruct (code =? 200)%nat.
Qed.

Lemma finish_single_book_commits (P : ProcessorEnv) (book : Audiobook)
    (dest_path : string) (mam : option string) (run : Run) :
  map download_progress (run_commits (finish_single_book P book dest_path mam run)) =
    map download_progress (run_commits run) ++
    [(95 # 100)%Q] ++ (if has_cover book then [(98 # 100)%Q] else []) ++ [1%Q] /\
  run_raised (finish_single_book P book dest_path mam run) = run_raised run.
Proof.
  unfold finish_single_book, has_cover. cbn [cover_image set_downloaded].
  destruct (cover_image book) as [url|]; [destruct (String.eqb url "")|]; cbn [negb].
  - cbn. rewrite !map_app. cbn. by rewrite <- !app_assoc.
  - match goal with
    | |- context [save_cover P ?b ?d ?u ?r] =>
        destruct (save_cover_commits P b d u r) as (Hc & Hq & Hr);
        set (covered := save_cover P b d u r) in *
    end.
    cbn [run_commits commit_run with_session run_raised].
    rewrite !map_app, Hc, Hr. cbn. by rewrite !map_app, <- !app_assoc.
  - cbn. rewrite !map_app. cbn. by rewrite <- !app_assoc.
Qed.

Lemma copy_and_rename_stops (P : ProcessorEnv) (book : Audiobook)
    (pattern dest_path : string) (hl del : bool) (total : nat)
    (todo : list (nat * string)) (run : Run) :
  run_raised run = None ->
  let run' := copy_and_rename P book pattern dest_path hl del total todo run in
  exists k,
    k <= length todo /\
    map download_progress (run_commits run') =
      map download_progress (run_commits run) ++
      map (fun idx => copy_progress idx total) (take k (map fst todo)) /\
    (run_raised run' = None -> k = length todo) /\
    (is_Some (run_raised run') -> k < length todo).
Proof.
  revert run. induction todo as [|[idx s_path] todo IH]; intros run Hr; cbv zeta.
  - exists 0. cbn [copy_and_rename]. rewrite Hr. cbn. rewrite app_nil_r.
    repeat split; try done; by intros [? ?].
  - cbn [copy_and_rename].
    destruct (smart_copy (run_fs run) s_path _ hl del) as [fs [e|]].
    + exists 0. cbn. rewrite app_nil_r. repeat split; try done; lia.
    + destruct (IH (commit_run (with_fs run fs)
                      (set_download_progress (run_request run) (copy_progress idx total)))
                  Hr) as (k & Hk & Hc & Hn & Hs).
      exists (S k). cbn [length]. split; [lia|].
      split; [|split; [intros H; by rewrite Hn | intros H; specialize (Hs H); lia]].
      rewrite Hc. cbn [commit_run run_commits with_fs map fst take].
      rewrite map_app. cbn [map download_progress set_download_progress].
      by rewrite <- app_assoc.
Qed.

Lemma enrich_from_mam_cover (P : ProcessorEnv) (session : Session) (book : Audiobook)
    (req : AudiobookRequest) :
  has_cover (enrich_from_mam P session book req).1.2 = has_cover book.
Proof.
  unfold has_cover, enrich_from_mam.
  destruct (mam_id req) as [id|]; [|done].
  destruct (String.eqb id ""); [done|].
  destruct (fetch_mam_book_details P session id) as [raw|]; [|done].
  destruct (match series_index book with Some i => String.eqb i "" | None => true end);
    [|done].
  destruct (_normalize_series P raw) as [mam_series mam_index]. cbn [fst snd].
  destruct mam_index as [i|]; [destruct (String.eqb i "")|];
    by destruct (series _), mam_series.
Qed.

(** C3, amended.  A call of process_completed_download on the single-book
    branch that ends before its first commit writes nothing.  Otherwise,
    with N the number of audio files handed to the copy loop, the
    committed values of download_progress are, in order: the value the
    request came in with (the commit that opens the branch changes the
    status only), 0.90 + (idx/N)*0.02 after the idx-th file for idx = 1..k,
    and, where the call returns, k = N and then 0.95 for metadata
    generation, 0.98 for the cover when the book has a cover image, and 1.0
    on completion; where an exception ends the call, k < N and nothing
    follows.  The values the run writes are non-decreasing, lie in
    [0.90, 1.0] (so none is 0.0) and reach 0.92 after the last file; the
    whole committed sequence is non-decreasing when the request came in with
    at most 0.90.  0.0 is what create_download writes, on a request it
    creates or re-opens. *)
Theorem download_progress_monotone (P : ProcessorEnv) (session : Session) (fs : FS)
    (book_request : AudiobookRequest) (download_path : string)
    (delete_source : bool) (collection_label : option string) :
  let run := process_completed_download P session fs book_request download_path
               delete_source false collection_label in
  let committed := map download_progress (run_commits run) in
  match single_book_start P session fs book_request with
  | None => committed = []
  | Some (book, fs1) =>
      let N := length (audio_files_to_process P fs1 download_path) in
      let after_file (idx : nat) : Q :=
        ((9 # 10) + (inject_Z (Z.of_nat idx) / inject_Z (Z.of_nat N)) * (2 # 100))%Q in
      let closing : list Q :=
        [(95 # 100)%Q] ++ (if has_cover book then [(98 # 100)%Q] else []) ++ [1%Q] in
      (exists k,
         k <= N /\
         committed =
           download_progress book_request ::
           map after_file (seq 1 k) ++
           match run_raised run with None => closing | Some _ => [] end /\
         (run_raised run = None -> k = N) /\
         (is_Some (run_raised run) -> k < N)) /\
      StronglySorted Qle (map after_file (seq 1 N) ++ closing) /\
      (forall q, q ∈ map after_file (seq 1 N) ++ closing -> (9 # 10 <= q /\ q <= 1)%Q) /\
      (0 < N -> (after_file N == 92 # 100)%Q) /\
      ((download_progress book_request <= 9 # 10)%Q -> StronglySorted Qle committed)
  end /\
  (forall r, download_progress (reopened r) = 0%Q) /\
  (forall a u, download_progress (new_AudiobookRequest a u) = 0%Q).
Proof.
  cbv zeta. split; [|done].
  unfold single_book_start, process_completed_download.
  destruct (audiobooks session !! asin book_request) as [book|]; [|done].
  destruct (get_library_path session) as [lib|]; [|done].
  destruct (os_makedirs fs _) as [fs1 [e|]]; [done|].
  pose proof (enrich_from_mam_cover P
                (run_session (commit_run
                   (with_session
                      (with_log (with_fs (mkRun session fs book_request [] [] None) fs1)
                         "Processor: Organizing and renaming files")
                      (log_request_event session (asin book_request)
                         (user_username book_request) "Organizing and renaming files."
                         info))
                   (set_processing_status book_request "organizing_files")))
                book (set_processing_status book_request "organizing_files")) as Hcover.
  destruct (enrich_from_mam P _ book _) as [[session' book'] mam]. cbn [fst snd] in Hcover.
  set (audio := audio_files_to_process P fs1 download_path).
  set (N := length audio).
  change (fun idx : nat =>
            ((9 # 10) + (inject_Z (Z.of_nat idx) / inject_Z (Z.of_nat N)) * (2 # 100))%Q)
    with (fun idx : nat => copy_progress idx N).
  change (map (fun idx : nat => copy_progress idx N) (seq 1 N) ++
          [(95 # 100)%Q] ++ (if has_cover book then [(98 # 100)%Q] else []) ++ [1%Q])
    with (progress_updates N (has_cover book)).
  change (((9 # 10) + (inject_Z (Z.of_nat N) / inject_Z (Z.of_nat N)) * (2 # 100))%Q)
    with (copy_progress N N).
  match goal with
  | |- context [copy_and_rename P book' ?pat ?dest ?hl ?del N (enumerate1 audio) ?r0] =>
      destruct (copy_and_rename_stops P book' pat dest hl del N (enumerate1 audio) r0
                  eq_refl) as (k & Hk & Hc & Hn & Hs);
      set (looped := copy_and_rename P book' pat dest hl del N (enumerate1 audio) r0) in *
  end.
  rewrite enumerate1_fst in Hc. fold N in Hc.
  assert (length (enumerate1 audio) = N) as Hlen.
  { by rewrite <- (length_map fst), enumerate1_fst, length_seq. }
  rewrite Hlen in Hk, Hn, Hs.
  rewrite take_seq, Nat.min_l in Hc by done.
  cbn [run_commits commit_run with_session with_fs with_log map app
         download_progress set_processing_status] in Hc.
  set (final := match run_raised looped with
                | Some _ => looped
                | None => finish_single_book P book'
                            (path_join lib (folder_rel_path P session book)) mam looped
                end).
  assert (exists k0,
            k0 <= N /\
            map download_progress (run_commits final) =
            download_progress book_request ::
            map (fun idx => copy_progress idx N) (seq 1 k0) ++
            match run_raised final with
            | None => [(95 # 100)%Q] ++
                      (if has_cover book then [(98 # 100)%Q] else []) ++ [1%Q]
            | Some _ => []
            end /\
            (run_raised final = None -> k0 = N) /\
            (is_Some (run_raised final) -> k0 < N)) as Hshape.
  { exists k. split; [done|]. subst final.
    destruct (run_raised looped) as [e|] eqn:Hraised.
    - rewrite Hraised. split; [by rewrite Hc, app_nil_r|]. split; [done|].
      intros _. apply Hs. by eexists.
    - destruct (finish_single_book_commits P book'
                  (path_join lib (folder_rel_path P session book)) mam looped)
        as [Hf Hfr].
      rewrite Hfr, Hraised, Hf, Hc, Hcover. split; [done|].
      split; [intros _; by apply Hn | by intros [? ?]]. }
  clearbody final.
  split; [exact Hshape|].
  split; [apply progress_updates_sorted|].
  split; [apply progress_updates_bounds|].
  split; [apply copy_progress_full|].
  intros Hentry. destruct Hshape as (k0 & Hk0 & -> & Hn0 & _).
  constructor.
  - destruct (run_raised final) as [e|].
    + rewrite app_nil_r.
      rewrite <- (Nat.min_l k0 N), <- take_seq, <- (firstn_map _ k0) by done.
      apply StronglySorted_take. apply copy_values_sorted.
    + rewrite (Hn0 eq_refl). apply (progress_updates_sorted N (has_cover book)).
  - apply Forall_forall. intros q Hq.
    assert (q ∈ progress_updates N (has_cover book)) as Hin.
    { unfold progress_updates, copy_values.
      apply elem_of_app in Hq as [Hq|Hq]; apply elem_of_app.
      - left. apply list_elem_of_fmap in Hq as (idx & -> & Hidx).
        apply list_elem_of_fmap. exists idx. split; [done|].
        apply elem_of_seq in Hidx. apply elem_of_seq. lia.
      - right. by destruct (run_raised final); [apply elem_of_nil in Hq|]. }
    apply progress_updates_bounds in Hin. lra.
Qed.

Lemma download_progress_monotone_witness :
  map download_progress
    (run_commits (process_completed_download idle_processor single_book_session
                    three_files_fs collection_request "/dl" false false None)) =
    [(9 # 10)%Q;
     ((9 # 10) + (inject_Z 1 / inject_Z 3) * (2 # 100))%Q;
     ((9 # 10) + (inject_Z 2 / inject_Z 3) * (2 # 100))%Q;
     ((9 # 10) + (inject_Z 3 / inject_Z 3) * (2 # 100))%Q;
     (95 # 100)%Q; 1%Q] /\
  StronglySorted Qle
    (map download_progress
       (run_commits (process_completed_download idle_processor single_book_session
                       three_files_fs collection_request "/dl" false false None))).
Proof.
  split; [vm_compute; reflexivity|].
  pose proof (proj1 (download_progress_monotone idle_processor single_book_session
                       three_files_fs collection_request "/dl" false None)) as H.
  cbv zeta in H.
  change (single_book_start idle_processor single_book_session three_files_fs
            collection_request)
    with (Some (sample_book "B001" false,
                (os_makedirs three_files_fs "/lib/X/Y (2020)").1)) in H.
  cbv iota beta in H. destruct H as (_ & _ & _ & _ & H). apply H.
  vm_compute. discriminate.
Defined.

(** C3, as the specification states it, fails: a request that an earlier
    run left at 0.90 + (2/3)*0.02 is processed again, and the run commits
    that value with its first commit and 0.90 + (1/3)*0.02 after its first
    file. *)
Lemma progress_monotone_as_stated_fails :
  ~ progress_monotone_as_stated idle_processor retry_session three_files_fs
      retry_request "/dl".
Proof.
  unfold progress_monotone_as_stated. intros H.
  assert (map download_progress
            (run_commits (process_completed_download idle_processor retry_session
                            three_files_fs retry_request "/dl" false false None)) =
          [(137 # 150)%Q; copy_progress 1 3; copy_progress 2 3; copy_progress 3 3;
           (95 # 100)%Q; 1%Q]) as Heq by (vm_compute; reflexivity).
  rewrite Heq in H. apply StronglySorted_inv in H as [_ H].
  apply Forall_inv in H. vm_compute in H. by apply H.
Qed.

Example single_book_run :
  let run := process_completed_download idle_processor single_book_session sample_fs
               collection_request "/dl" false false None in
  (map download_progress (run_commits run), run_raised run,
   stat (run_fs run) "/lib/X/Y (2020)/Y .mp3",
   downloaded <$> audiobooks (run_session run) !! "B001",
   processing_status (run_request run)) =
  ([(9 # 10)%Q; copy_progress 1 1; (95 # 100)%Q; 1%Q], None, Some (File 1),
   Some true, "completed").
Proof. vm_compute. reflexivity. Qed.

(** ** reorganize_existing_book *)

Example reorganize_removes_empty_directory :
  let r := reorganize_existing_book 10 idle_processor single_book_session library_fs
             (sample_book "B001" true) (Some "/lib/X/Y (2020)") in
  (reorg_moves <$> r, reorg_raised <$> r,
   (fun r => stat (reorg_fs r) "/lib/X/Y (2020)/extras") <$> r,
   stat library_fs "/lib/X/Y (2020)/extras",
   audio_in_place idle_processor single_book_session library_fs
     (sample_book "B001" true) "/lib/X/Y (2020)" "/lib/X/Y (2020)",
   wf_fs library_fs) =
  (Some [], Some None, Some None, Some Dir, true, true).
Proof. vm_compute. reflexivity. Qed.

Example reorganize_keeps_full_directory :
  reorganize_existing_book 10 idle_processor single_book_session library_fs_full
    (sample_book "B001" true) (Some "/lib/X/Y (2020)") =
  Some (mkReorg library_fs_full [] None).
Proof. vm_compute. reflexivity. Qed.

(** C9, as the specification states it, fails: an empty sub-directory of a
    book folder that is already in place is removed by the clean-up loop. *)
Lemma reorganize_in_place_as_stated_fails :
  ~ reorganize_in_place_as_stated 10 idle_processor single_book_session library_fs
      (sample_book "B001" true) (Some "/lib/X/Y (2020)").
Proof.
  intros H.
  destruct (H "/lib" "/lib/X/Y (2020)" eq_refl eq_refl eq_refl eq_refl)
    as (r & organized & Hr & _ & Hfs & Hd).
  assert (Hrun : reorganize_existing_book 10 idle_processor single_book_session
                   library_fs (sample_book "B001" true) (Some "/lib/X/Y (2020)")
                 = Some (mkReorg
                           (set_tree library_fs
                              (delete ["lib"; "X"; "Y (2020)"; "extras"] (tree library_fs)))
                           [] None))
    by (vm_compute; reflexivity).
  rewrite Hrun in Hr. injection Hr as <-.
  assert (Horg : organized =
                 set_tree library_fs
                   (delete ["lib"; "X"; "Y (2020)"; "extras"] (tree library_fs)))
    by (destruct Hfs as [Hfs|Hfs]; symmetry; exact Hfs).
  subst organized.
  pose proof (proj2 (Hd ["lib"; "X"; "Y (2020)"; "extras"]) eq_refl) as Hk.
  cbn [tree set_tree] in Hk. rewrite lookup_delete_eq in Hk. discriminate.
Qed.

(** *** Path algebra *)

Lemma str_prefix_nil (s : string) : String.prefix "" s = true.
Proof. by destruct s. Qed.

Lemma str_prefix_cons (c d : ascii) (p s : string) :
  String.prefix (String c p) (String d s) =
  if ascii_dec c d then String.prefix p s else false.
Proof. reflexivity. Qed.

Lemma split_on_nonempty (sep : ascii) (s : string) :
  exists w ws, split_on sep s = w :: ws.
Proof.
  destruct s as [|c s]; cbn [split_on]; [by eexists _, _|].
  destruct (Ascii.eqb c sep); [by eexists _, _|].
  destruct (split_on sep s); by eexists _, _.
Qed.

Lemma append_nil_l (s : string) : "" +:+ s = s.
Proof. reflexivity. Qed.

Lemma append_cons (c : ascii) (a s : string) : String c a +:+ s = String c (a +:+ s).
Proof. reflexivity. Qed.

Lemma str_append_assoc (a b c : string) : (a +:+ b) +:+ c = a +:+ (b +:+ c).
Proof.
  induction a as [|x a IH]; [done|]. rewrite !append_cons. by rewrite IH.
Qed.

Lemma split_on_app (sep : ascii) (a b : string) :
  split_on sep (a +:+ String sep b) = split_on sep a ++ split_on sep b.
Proof.
  induction a as [|c a IH]; rewrite ?append_nil_l, ?append_cons; cbn [split_on].
  - by rewrite Ascii.eqb_refl.
  - destruct (Ascii.eqb c sep); [by rewrite IH|].
    rewrite IH. by destruct (split_on_nonempty sep a) as (w & ws & ->).
Qed.

Lemma no_slash_cons (c : ascii) (n : string) :
  str_in "/" (String c n) = false -> c <> "/"%char /\ str_in "/" n = false.
Proof.
  cbn [str_in]. intros [H1 H2]%orb_false_iff. split; [|done].
  intros ->. rewrite str_prefix_cons, str_prefix_nil in H1. by destruct (ascii_dec "/" "/").
Qed.

Lemma split_on_no_slash (n : string) :
  str_in "/" n = false -> split_on "/" n = [n].
Proof.
  induction n as [|c n IH]; [done|].
  intros [Hc Hn]%no_slash_cons. cbn [split_on].
  destruct (Ascii.eqb_spec c "/"); [done|]. by rewrite IH.
Qed.

Lemma plain_name_spec (n : string) :
  plain_name n = true ->
  n <> "" /\ n <> "." /\ n <> ".." /\ str_in "/" n = false.
Proof.
  unfold plain_name. rewrite !andb_true_iff, !negb_true_iff.
  intros [[[H1 H2] H3] H4]. repeat split; try done;
    intros ->; discriminate.
Qed.

Lemma norm_step_plain (acc : list string) (n : string) :
  plain_name n = true -> norm_step acc n = acc ++ [n].
Proof.
  intros (H1 & H2 & H3 & _)%plain_name_spec. unfold norm_step.
  destruct (String.eqb_spec n ""); [done|].
  destruct (String.eqb_spec n "."); [done|].
  by destruct (String.eqb_spec n "..").
Qed.

Lemma fold_norm_plain (names acc : list string) :
  forallb plain_name names = true ->
  fold_left norm_step names acc = acc ++ names.
Proof.
  revert acc. induction names as [|n names IH]; intros acc; cbn [fold_left forallb].
  - by rewrite app_nil_r.
  - intros [Hn Hns]%andb_true_iff. rewrite norm_step_plain, IH by done.
    by rewrite <- app_assoc.
Qed.

Lemma isabs_app (a b : string) : a <> "" -> isabs (a +:+ b) = isabs a.
Proof.
  destruct a as [|c a]; [done|]. intros _. rewrite append_cons.
  unfold isabs, startswith. rewrite !str_prefix_cons.
  destruct (ascii_dec "/" c); [by rewrite !str_prefix_nil | done].
Qed.

Lemma substring_skip (n m : nat) (c : ascii) (s : string) :
  String.substring (S n) m (String c s) = String.substring n m s.
Proof. reflexivity. Qed.

Lemma endswith_slash (s : string) :
  endswith s "/" = true -> exists r, s = r +:+ "/".
Proof.
  unfold endswith. cbn [String.length].
  induction s as [|c s IH]; cbn [String.length]; [done|].
  destruct s as [|d s].
  - cbn. destruct (Ascii.eqb_spec c "/") as [->|]; [|done]. intros _. by exists "".
  - cbn [String.length] in *. replace (S (S (String.length s)) - 1) with
      (S (S (String.length s) - 1)) by lia.
    rewrite substring_skip. cbn [Nat.leb] in *. intros H.
    destruct (IH H) as [r Hr]. exists (String c r). by rewrite append_cons, <- Hr.
Qed.

(** Joining a relative path continues the resolution of the first. *)
Lemma resolve_join (c : list string) (a b : string) :
  isabs b = false ->
  resolve c (path_join a b) = fold_left norm_step (split_on "/" b) (resolve c a).
Proof.
  intros Hb. unfold path_join. rewrite Hb.
  destruct (String.eqb_spec a "") as [->|Ha]; cbn [orb].
  - unfold resolve. rewrite append_nil_l. by rewrite Hb.
  - destruct (endswith a "/") eqn:He.
    + destruct (endswith_slash _ He) as [r ->]. unfold resolve.
      rewrite !isabs_app by done.
      replace ((r +:+ "/") +:+ b) with (r +:+ String "/" b)
        by (by rewrite str_append_assoc).
      replace (r +:+ "/") with (r +:+ String "/" "") by done.
      rewrite !split_on_app, !fold_left_app. reflexivity.
    + unfold resolve. rewrite isabs_app by done.
      change (a +:+ "/" +:+ b) with (a +:+ String "/" b).
      by rewrite split_on_app, fold_left_app.
Qed.

Lemma plain_not_abs (n : string) : plain_name n = true -> isabs n = false.
Proof.
  intros (H1 & _ & _ & H4)%plain_name_spec. destruct n as [|c n]; [done|].
  apply no_slash_cons in H4 as [Hc _]. unfold isabs, startswith.
  rewrite str_prefix_cons. destruct (ascii_dec "/" c); [congruence | done].
Qed.

Lemma resolve_join_plain (c : list string) (root n : string) :
  plain_name n = true -> resolve c (path_join root n) = resolve c root ++ [n].
Proof.
  intros Hn. rewrite resolve_join by (by apply plain_not_abs).
  destruct (plain_name_spec _ Hn) as (_ & _ & _ & Hs).
  rewrite split_on_no_slash by done. cbn. by apply norm_step_plain.
Qed.

Lemma double_slash_cons3 (c1 c2 c3 : ascii) (a x : string) :
  double_slash (String c1 (String c2 (String c3 a)) +:+ x) =
  double_slash (String c1 (String c2 (String c3 a))).
Proof.
  rewrite !append_cons. unfold double_slash, startswith. rewrite !str_prefix_cons.
  destruct (ascii_dec "/" c1); [|done]. destruct (ascii_dec "/" c2); [|done].
  rewrite !str_prefix_nil. by destruct (ascii_dec "/" c3); rewrite ?str_prefix_nil.
Qed.

Lemma relative_first (b : string) :
  b <> "" -> isabs b = false -> exists d b', b = String d b' /\ d <> "/"%char.
Proof.
  destruct b as [|d b']; [done|]. intros _ H. exists d, b'. split; [done|].
  intros ->. unfold isabs, startswith in H. rewrite str_prefix_cons in H.
  rewrite str_prefix_nil in H. by destruct (ascii_dec "/" "/").
Qed.

(** Joining a relative path keeps the number of leading slashes that
    [normpath] looks at. *)
Lemma double_slash_join (a b : string) :
  b <> "" -> isabs b = false -> double_slash (path_join a b) = double_slash a.
Proof.
  intros Hb Hrel. destruct (relative_first b Hb Hrel) as (d & b' & -> & Hd).
  unfold path_join. rewrite Hrel.
  destruct a as [|c1 [|c2 [|c3 a3]]].
  - cbn [String.eqb orb]. rewrite append_nil_l.
    unfold double_slash, startswith. rewrite ?str_prefix_cons.
    destruct (ascii_dec "/" d); [congruence | done].
  - destruct (ascii_dec "/" c1) as [<-|Hc].
    + replace (String.eqb "/" "" || endswith "/" "/") with true by done.
      rewrite append_cons, append_nil_l.
      unfold double_slash, startswith. rewrite ?str_prefix_cons.
      destruct (ascii_dec "/" "/"); [|done].
      rewrite ?str_prefix_cons. destruct (ascii_dec "/" d); [congruence | done].
    + destruct (_ || _); rewrite !append_cons;
        unfold double_slash, startswith; rewrite ?str_prefix_cons;
        by destruct (ascii_dec "/" c1).
  - destruct (ascii_dec "/" c1) as [<-|Hc1]; [destruct (ascii_dec "/" c2) as [<-|Hc2]|].
    + replace (String.eqb "//" "" || endswith "//" "/") with true by done.
      rewrite !append_cons, append_nil_l.
      unfold double_slash, startswith. rewrite ?str_prefix_cons.
      destruct (ascii_dec "/" "/"); [|done].
      rewrite ?str_prefix_cons, ?str_prefix_nil.
      destruct (ascii_dec "/" d); [congruence | done].
    + destruct (_ || _); rewrite !append_cons;
        unfold double_slash, startswith; rewrite ?str_prefix_cons;
        destruct (ascii_dec "/" "/"); try done; rewrite ?str_prefix_cons;
        by destruct (ascii_dec "/" c2).
    + destruct (_ || _); rewrite !append_cons;
        unfold double_slash, startswith; rewrite ?str_prefix_cons;
        by destruct (ascii_dec "/" c1).
  - destruct (_ || _); apply double_slash_cons3.
Qed.

Lemma path_join_nonempty (a b : string) : a <> "" -> path_join a b <> "".
Proof.
  intros Ha. unfold path_join. destruct (isabs b) eqn:Hb.
  - intros ->. discriminate.
  - destruct a as [|c a]; [done|]. destruct (_ || _); rewrite append_cons; discriminate.
Qed.

Lemma common_prefix_length_app (a b : list string) :
  common_prefix_length a (a ++ b) = length a.
Proof.
  induction a as [|x a IH]; cbn [common_prefix_length app length]; [by destruct b|].
  by rewrite String.eqb_refl, IH.
Qed.

Lemma relpath_below (c : list string) (root start : string) (names : list string) :
  resolve c root = resolve c start ++ names ->
  relpath c root start = match names with [] => "." | _ => str_join "/" names end.
Proof.
  intros H. unfold relpath. rewrite H, common_prefix_length_app.
  rewrite Nat.sub_diag, drop_app_length. cbn [repeat app]. by destruct names.
Qed.

Lemma str_join_cons (sep x y : string) (l : list string) :
  str_join sep (x :: y :: l) = x +:+ sep +:+ str_join sep (y :: l).
Proof. reflexivity. Qed.

Lemma forallb_plain_cons (x : string) (l : list string) :
  forallb plain_name (x :: l) = true ->
  plain_name x = true /\ forallb plain_name l = true.
Proof. cbn [forallb]. by intros ?%andb_true_iff. Qed.

Lemma split_on_join (names : list string) :
  names <> [] -> forallb plain_name names = true ->
  split_on "/" (str_join "/" names) = names.
Proof.
  induction names as [|x [|y l] IH]; [done| |]; intros _ [Hx Hl]%forallb_plain_cons.
  - destruct (plain_name_spec _ Hx) as (_ & _ & _ & Hs). by apply split_on_no_slash.
  - destruct (plain_name_spec _ Hx) as (_ & _ & _ & Hs).
    rewrite str_join_cons. change (x +:+ "/" +:+ ?r) with (x +:+ String "/" r).
    rewrite split_on_app, split_on_no_slash, IH by done. reflexivity.
Qed.

Lemma str_join_first (names : list string) :
  names <> [] -> forallb plain_name names = true ->
  exists d r, str_join "/" names = String d r /\ d <> "/"%char /\
              (r = "" -> names = [String d ""]).
Proof.
  destruct names as [|x l]; [done|]. intros _ [Hx Hl]%forallb_plain_cons.
  destruct (plain_name_spec _ Hx) as (Hne & _ & _ & Hs).
  destruct x as [|d x']; [done|]. apply no_slash_cons in Hs as [Hd _].
  destruct l as [|y l].
  - exists d, x'. cbn. repeat split; try done. by intros ->.
  - exists d, (x' +:+ "/" +:+ str_join "/" (y :: l)). rewrite str_join_cons, append_cons.
    repeat split; try done. intros H. destruct x'; discriminate.
Qed.

Lemma str_join_relative (names : list string) :
  names <> [] -> forallb plain_name names = true ->
  str_join "/" names <> "" /\ str_join "/" names <> "." /\
  isabs (str_join "/" names) = false.
Proof.
  intros Hne Hp. destruct (str_join_first names Hne Hp) as (d & r & Hj & Hd & Hr).
  rewrite Hj. split; [done|]. split.
  - intros [= -> ->]. specialize (Hr eq_refl). subst names. by cbn in Hp.
  - unfold isabs, startswith. rewrite str_prefix_cons.
    destruct (ascii_dec "/" d); [congruence | done].
Qed.

(** *** Directory listings *)

Lemma child_name_spec (comps k : list string) (name : string) :
  child_name comps k = Some name <-> k = comps ++ [name].
Proof.
  unfold child_name. split.
  - case_bool_decide as H; [|done]. destruct H as [Hk <-]. intros Hl.
    destruct k as [|x k] using rev_ind; [done|].
    rewrite last_snoc in Hl. injection Hl as ->. by rewrite removelast_last.
  - intros ->. rewrite bool_decide_true, last_snoc; [done|].
    split; [by destruct comps | apply removelast_last].
Qed.

Lemma entries_of_spec (fs : FS) (comps : list string) (name : string) (n : node) :
  (name, n) ∈ entries_of fs comps <-> tree fs !! (comps ++ [name]) = Some n.
Proof.
  unfold entries_of. rewrite list_elem_of_omap. split.
  - intros ([k n'] & Hin & Hf). cbn [fst snd] in Hf.
    destruct (child_name comps k) as [nm|] eqn:Hc; [|done].
    injection Hf as -> ->. apply child_name_spec in Hc as ->.
    by apply elem_of_map_to_list in Hin.
  - intros Hk. exists (comps ++ [name], n). split; [by apply elem_of_map_to_list|].
    cbn [fst snd]. by rewrite (proj2 (child_name_spec _ _ _) eq_refl).
Qed.

Lemma scandir_spec (fs : FS) (p : string) (dirs files : list string) :
  scandir fs p = Some (dirs, files) ->
  stat fs p = Some Dir /\
  (forall name, name ∈ dirs -> tree fs !! (resolve (cwd fs) p ++ [name]) = Some Dir) /\
  (forall name, name ∈ files ->
     exists i, tree fs !! (resolve (cwd fs) p ++ [name]) = Some (File i)) /\
  (dirs = [] -> files = [] -> entries_of fs (resolve (cwd fs) p) = []).
Proof.
  unfold scandir. destruct (stat fs p) as [[|i]|]; try done.
  intros [= <- <-]. split; [done|]. repeat split.
  - intros name ([nm n] & <- & Hin)%list_elem_of_In%in_map_iff.
    apply list_elem_of_In, list_elem_of_filter in Hin as [Hd Hin]. cbn [fst snd] in *.
    destruct n; [|done]. by apply entries_of_spec.
  - intros name ([nm n] & <- & Hin)%list_elem_of_In%in_map_iff.
    apply list_elem_of_In, list_elem_of_filter in Hin as [Hd Hin]. cbn [fst snd] in *.
    destruct n as [|i]; [done|]. exists i. by apply entries_of_spec.
  - destruct (entries_of fs _) as [|[nm n] es]; [done|].
    rewrite !filter_cons. cbn [snd]. destruct n; cbn; repeat case_decide; try done.
Qed.

Lemma wf_fs_spec (fs : FS) (k : list string) (n : node) :
  wf_fs fs = true -> tree fs !! k = Some n ->
  exists name, last k = Some name /\ plain_name name = true /\
               parent_is_dir fs k = true.
Proof.
  unfold wf_fs. rewrite forallb_forall. intros Hwf Hk.
  specialize (Hwf (k, n)). cbn [fst] in Hwf.
  destruct (last k) as [name|]; [|by discriminate Hwf;
    apply list_elem_of_In, elem_of_map_to_list].
  exists name. split; [done|]. apply andb_true_iff, Hwf.
  by apply list_elem_of_In, elem_of_map_to_list.
Qed.

Lemma scandir_plain (fs : FS) (p : string) (dirs files : list string) :
  wf_fs fs = true -> scandir fs p = Some (dirs, files) ->
  forall name, name ∈ dirs ++ files -> plain_name name = true.
Proof.
  intros Hwf (_ & Hd & Hf & _)%scandir_spec name [Hn|Hn]%elem_of_app.
  - destruct (wf_fs_spec _ _ _ Hwf (Hd _ Hn)) as (nm & Hl & Hp & _).
    rewrite last_snoc in Hl. by injection Hl as ->.
  - destruct (Hf _ Hn) as [i Hi].
    destruct (wf_fs_spec _ _ _ Hwf Hi) as (nm & Hl & Hp & _).
    rewrite last_snoc in Hl. by injection Hl as ->.
Qed.

Lemma max_depth_bound (fs : FS) (k : list string) (n : node) :
  tree fs !! k = Some n -> length k <= max_depth fs.
Proof.
  intros Hk%elem_of_map_to_list. unfold max_depth.
  induction (map_to_list (tree fs)) as [|x l IH]; [by apply elem_of_nil in Hk|].
  cbn [map foldr]. apply elem_of_cons in Hk as [<-|Hk]; [cbn; lia|].
  specialize (IH Hk). lia.
Qed.

(** In a well-formed file system every proper prefix of an entry is a
    directory. *)
Lemma node_at_parent (fs : FS) (k : list string) (x : string) :
  wf_fs fs = true -> is_Some (tree fs !! (k ++ [x])) -> node_at fs k = Some Dir.
Proof.
  intros Hwf [n Hn]. destruct (wf_fs_spec _ _ _ Hwf Hn) as (_ & _ & _ & Hp).
  unfold parent_is_dir in Hp. rewrite removelast_last in Hp.
  destruct (k ++ [x]) eqn:E; [by destruct k|].
  by destruct (node_at fs k) as [[|i]|].
Qed.

Lemma prefixes_are_dirs (fs : FS) (base rest : list string) :
  wf_fs fs = true -> node_at fs (base ++ rest) = Some Dir ->
  forall i, i <= length rest -> node_at fs (base ++ take i rest) = Some Dir.
Proof.
  intros Hwf. induction rest as [|x rest IH] using rev_ind; intros Hd i Hi.
  - by rewrite take_nil.
  - rewrite length_app in Hi. cbn in Hi.
    destruct (decide (i = length rest + 1)) as [->|Hne].
    + by rewrite take_ge by (rewrite length_app; cbn; lia).
    + rewrite take_app_le by lia. apply IH; [|lia].
      apply (node_at_parent fs (base ++ rest) x Hwf).
      rewrite <- app_assoc. unfold node_at in Hd.
      destruct (base ++ rest ++ [x]) eqn:E; [by destruct base, rest|]. by rewrite Hd.
Qed.

Lemma makedirs_from_noop (base rest : list string) (t : gmap (list string) node) :
  (forall i, 1 <= i <= length rest -> t !! (base ++ take i rest) = Some Dir) ->
  makedirs_from base rest t = (t, None).
Proof.
  revert base. induction rest as [|c rest IH]; intros base H; [done|].
  cbn [makedirs_from]. pose proof (H 1 ltac:(cbn; lia)) as H1. cbn [take] in H1.
  rewrite take_0 in H1. rewrite H1.
  apply IH. intros i Hi. specialize (H (S i)). cbn [take length] in H.
  rewrite <- app_assoc. apply H. lia.
Qed.

Lemma os_makedirs_noop (fs : FS) (p : string) :
  wf_fs fs = true -> isdir fs p = true -> os_makedirs fs p = (fs, None).
Proof.
  intros Hwf Hd. unfold isdir in Hd.
  destruct (stat fs p) as [[|i]|] eqn:Hs; try done.
  apply stat_Some in Hs as [Hp Hn]. unfold os_makedirs.
  destruct (String.eqb_spec p ""); [done|].
  rewrite makedirs_from_noop; [by destruct fs|].
  intros i Hi. pose proof (prefixes_are_dirs fs [] _ Hwf Hn i ltac:(lia)) as H.
  cbn [app] in *. unfold node_at in H.
  destruct (take i (resolve (cwd fs) p)) eqn:E; [|done].
  destruct (resolve (cwd fs) p); [cbn in Hi; lia|]. destruct i; [lia | done].
Qed.

(** *** Walks *)

Lemma below_top (c : list string) (top : string) : top <> "" -> below c top top [].
Proof. intros H. unfold below. by rewrite app_nil_r. Qed.

Lemma below_child (c : list string) (top root n : string) (names : list string) :
  below c top root names -> plain_name n = true ->
  below c top (path_join root n) (names ++ [n]).
Proof.
  intros (Hr & Hd & Hne & _ & Hp) Hn. destruct (plain_name_spec _ Hn) as (Hn0 & _).
  repeat split.
  - by rewrite resolve_join_plain, Hr, <- app_assoc.
  - rewrite double_slash_join; [done | done | by apply plain_not_abs].
  - by apply path_join_nonempty.
  - by destruct names.
  - rewrite forallb_app, Hp. cbn. by rewrite Hn.
Qed.

Lemma walk_bottomup_below (fs : FS) (top : string) (depth : nat) (root : string)
    (names : list string) (e : walk_entry) :
  wf_fs fs = true -> below (cwd fs) top root names ->
  e ∈ walk_bottomup depth fs root ->
  exists names', below (cwd fs) top e.1.1 names' /\
                 scandir fs e.1.1 = Some (e.1.2, e.2).
Proof.
  intros Hwf. revert root names. induction depth as [|depth IH]; intros root names Hb.
  - cbn. by intros ?%elem_of_nil.
  - cbn [walk_bottomup]. destruct (scandir fs root) as [[dirs files]|] eqn:Hs;
      [|by intros ?%elem_of_nil].
    intros [Hin | ->%list_elem_of_singleton]%elem_of_app; [|by exists names].
    apply list_elem_of_In, in_flat_map in Hin as (name & Hname & Hin).
    apply (IH (path_join root name) (names ++ [name])); [|by apply list_elem_of_In].
    apply below_child; [done|].
    apply (scandir_plain fs root dirs files Hwf Hs).
    apply elem_of_app. left. by apply list_elem_of_In.
Qed.

(** A lazy walk whose body keeps the invariant [Inv], and the file system
    with it, visits every directory below [top] and ends, given fuel beyond
    the depth of the tree. *)
Lemma walk_lazy_invariant (Inv : ReorgState -> Prop)
    (body : walk_entry -> ReorgState -> ReorgState * option exn)
    (fs : FS) (top : string) :
  wf_fs fs = true ->
  (forall st, Inv st -> rs_fs st = fs) ->
  (forall root names dirs files st,
     below (cwd fs) top root names -> scandir fs root = Some (dirs, files) ->
     Inv st -> exists st', body (root, dirs, files) st = (st', None) /\ Inv st') ->
  forall fuel root names st,
    below (cwd fs) top root names -> Inv st ->
    1 <= fuel -> max_depth fs < fuel + length (resolve (cwd fs) root) ->
    exists st', walk_lazy fuel body root st = Some (st', None) /\ Inv st'.
Proof.
  intros Hwf Hfs Hbody. induction fuel as [|fuel IH]; intros root names st Hb Hi H1 Hd;
    [lia|].
  cbn [walk_lazy]. rewrite (Hfs _ Hi).
  destruct (scandir fs root) as [[dirs files]|] eqn:Hs; [|by exists st].
  destruct (Hbody _ _ _ _ _ Hb Hs Hi) as (st1 & -> & Hi1).
  pose proof (scandir_spec _ _ _ _ Hs) as (_ & Hdirs & _).
  pose proof (scandir_plain _ _ _ _ Hwf Hs) as Hplain.
  assert (Hsub : forall l st, (forall n, n ∈ l -> n ∈ dirs) -> Inv st ->
            exists st', walk_subdirs (walk_lazy fuel body) root l st = Some (st', None)
                        /\ Inv st').
  { induction l as [|n l IHl]; intros st2 Hl Hi2; [by exists st2|].
    cbn [walk_subdirs].
    assert (Hn : n ∈ dirs) by (apply Hl; left).
    pose proof (max_depth_bound _ _ _ (Hdirs _ Hn)) as Hlen.
    rewrite length_app in Hlen. cbn [length] in Hlen.
    destruct (IH (path_join root n) (names ++ [n]) st2) as (st3 & -> & Hi3).
    - apply below_child; [done|]. apply Hplain, elem_of_app. by left.
    - done.
    - lia.
    - rewrite resolve_join_plain by (apply Hplain, elem_of_app; by left).
      rewrite length_app. cbn [length]. lia.
    - apply IHl; [|done]. intros m Hm. apply Hl. by right. }
  by apply Hsub.
Qed.

(** *** The loops of the reorganizer on a book that is in place *)

Lemma rename_audio_in_place (P : ProcessorEnv) (book : Audiobook)
    (pattern dest_path : string) (audio_files : list string)
    (todo : list (nat * string)) (st : ReorgState) :
  forallb
    (fun item : nat * string =>
       abspath_eqb (abspath (cwd (rs_fs st)) item.2)
         (abspath (cwd (rs_fs st))
            (audio_destination P book pattern dest_path audio_files item.1 item.2)))
    todo = true ->
  exists moved,
    for_each (rename_audio P book pattern dest_path audio_files) todo st =
    (mkReorgState (rs_fs st) (rs_moves st) moved, None).
Proof.
  revert st. induction todo as [|item todo IH]; intros st; cbn [forallb for_each].
  - intros _. exists (rs_moved st). by destruct st.
  - intros [Hitem Htodo]%andb_true_iff.
    unfold rename_audio at 1, move_unless_same. rewrite Hitem. cbn [rs_fs rs_moves].
    match goal with
    | |- context [for_each _ todo ?s] => destruct (IH s Htodo) as [moved ->]
    end.
    by exists moved.
Qed.

Lemma isdir_resolve_eq (fs : FS) (p q : string) :
  p <> "" -> q <> "" -> resolve (cwd fs) p = resolve (cwd fs) q ->
  isdir fs p = isdir fs q.
Proof.
  intros Hp Hq Hr. unfold isdir, stat. rewrite Hr.
  destruct (String.eqb_spec p ""), (String.eqb_spec q ""); done.
Qed.

Lemma abspath_join_eq (c : list string) (a b f : string) :
  plain_name f = true -> a <> "" ->
  resolve c a = resolve c b -> double_slash a = double_slash b ->
  abspath_eqb (abspath c (path_join b f)) (abspath c (path_join a f)) = true.
Proof.
  intros Hf Ha Hr Hd. destruct (plain_name_spec _ Hf) as (Hf0 & _).
  apply abspath_eqb_eq. unfold abspath.
  rewrite !resolve_join_plain, !double_slash_join, Hr, Hd by
    (done || by apply plain_not_abs).
  reflexivity.
Qed.

(** Where [relocate_other] wants the files of [root]: at [root] itself. *)
Lemma relocate_target (fs : FS) (source_path dest_path root : string)
    (names : list string) :
  dest_path <> "" ->
  abspath (cwd fs) source_path = abspath (cwd fs) dest_path ->
  below (cwd fs) source_path root names ->
  let rel_dir := relpath (cwd fs) root source_path in
  let d_dir := if String.eqb rel_dir "." then dest_path
               else path_join dest_path rel_dir in
  d_dir <> "" /\ resolve (cwd fs) d_dir = resolve (cwd fs) root /\
  double_slash d_dir = double_slash root.
Proof.
  intros Hdest [= Hds Hrs] (Hr & Hd & Hne & Htop & Hp). cbv zeta.
  rewrite (relpath_below _ _ _ _ Hr). destruct names as [|n names].
  - rewrite ?String.eqb_refl. cbn [String.eqb Ascii.eqb Bool.eqb].
    rewrite (Htop eq_refl). by rewrite Hrs, Hds.
  - set (rel := str_join "/" (n :: names)).
    destruct (str_join_relative (n :: names) ltac:(done) Hp) as (Hrel0 & Hrel1 & Hrel2).
    fold rel in Hrel0, Hrel1, Hrel2.
    destruct (String.eqb_spec rel "."); [done|]. repeat split.
    + by apply path_join_nonempty.
    + rewrite resolve_join by done. unfold rel.
      rewrite split_on_join, fold_norm_plain by done. by rewrite Hr, Hrs.
    + rewrite double_slash_join by done. by rewrite Hd, Hds.
Qed.

Lemma relocate_other_in_place (fs : FS) (source_path dest_path root : string)
    (names files : list string) (st : ReorgState) :
  wf_fs fs = true -> dest_path <> "" ->
  abspath (cwd fs) source_path = abspath (cwd fs) dest_path ->
  below (cwd fs) source_path root names ->
  isdir fs root = true ->
  (forall f, f ∈ files -> plain_name f = true) ->
  untouched fs st ->
  exists st',
    for_each (relocate_other source_path dest_path root) files st = (st', None) /\
    untouched fs st'.
Proof.
  intros Hwf Hdest Habs Hb Hroot. revert st.
  induction files as [|f files IH]; intros st Hplain [Hfs Hmv]; [by exists st|].
  cbn [for_each]. unfold relocate_other at 1.
  assert (Hf : plain_name f = true) by (apply Hplain; left).
  assert (Hrest : forall g, g ∈ files -> plain_name g = true)
    by (intros g Hg; apply Hplain; by right).
  case_bool_decide; [by apply IH|].
  rewrite Hfs.
  destruct (relocate_target fs source_path dest_path root names Hdest Habs Hb)
    as (Hd0 & Hdr & Hdd).
  set (d_dir := if String.eqb (relpath (cwd fs) root source_path) "." then dest_path
                else path_join dest_path (relpath (cwd fs) root source_path)) in *.
  destruct Hb as (_ & _ & Hroot0 & _).
  rewrite os_makedirs_noop; [|done|by rewrite (isdir_resolve_eq fs d_dir root)].
  unfold move_unless_same. cbn [rs_fs rs_moves rs_moved].
  rewrite (abspath_join_eq (cwd fs) d_dir root f) by done.
  apply IH; [done|]. split; [done|]. by cbn.
Qed.

Lemma is_strict_prefix_app (a names : list string) :
  names <> [] -> is_strict_prefix_of a (a ++ names) = true.
Proof.
  intros Hn. unfold is_strict_prefix_of, is_prefix_of.
  rewrite take_app_length, bool_decide_true by done. cbn [andb].
  apply Nat.ltb_lt. rewrite length_app. destruct names; [done | cbn; lia].
Qed.

Lemma no_empty_directory_spec (fs : FS) (top : string) (names : list string) :
  no_empty_directory_below fs top = true -> names <> [] ->
  tree fs !! (resolve (cwd fs) top ++ names) = Some Dir ->
  entries_of fs (resolve (cwd fs) top ++ names) <> [].
Proof.
  unfold no_empty_directory_below. rewrite forallb_forall. intros H Hn Hk.
  specialize (H (resolve (cwd fs) top ++ names, Dir)).
  cbn [fst snd] in H. rewrite is_strict_prefix_app in H by done. cbn [negb orb] in H.
  intros He. rewrite He in H. discriminate H.
  by apply list_elem_of_In, elem_of_map_to_list.
Qed.

Lemma cleanup_in_place (fs : FS) (source_path dest_path : string) :
  wf_fs fs = true -> source_path <> "" ->
  abspath (cwd fs) source_path = abspath (cwd fs) dest_path ->
  no_empty_directory_below fs source_path = true ->
  fold_left (remove_if_empty dest_path) (os_walk_bottomup fs source_path) fs = fs.
Proof.
  intros Hwf Hsrc Habs Hne.
  assert (Hall : forall e, e ∈ os_walk_bottomup fs source_path ->
                           remove_if_empty dest_path fs e = fs).
  { intros [[root dirs] files] He.
    destruct (walk_bottomup_below fs source_path _ source_path [] _ Hwf
                (below_top _ _ Hsrc) He) as (names & Hb & Hs).
    cbn [fst snd] in *. unfold remove_if_empty.
    destruct (abspath_eqb _ _) eqn:Heq; [done|].
    destruct dirs; [|done]. destruct files; [|done]. exfalso.
    destruct Hb as (Hr & Hd & _ & Htop & _).
    destruct names as [|n names].
    { rewrite (Htop eq_refl), Habs in Heq.
      by rewrite (proj2 (abspath_eqb_eq _ _) eq_refl) in Heq. }
    pose proof (scandir_spec _ _ _ _ Hs) as (Hst & _ & _ & Hempty).
    apply stat_Some in Hst as [_ Hnode]. rewrite Hr in Hnode, Hempty.
    apply (no_empty_directory_spec fs source_path (n :: names) Hne); [done| |by apply Hempty].
    unfold node_at in Hnode.
    by destruct (resolve (cwd fs) source_path ++ n :: names) eqn:E;
      [destruct (resolve (cwd fs) source_path)|]. }
  induction (os_walk_bottomup fs source_path) as [|e l IH]; [done|].
  cbn [fold_left]. rewrite Hall by left. apply IH. intros e' He'. apply Hall. by right.
Qed.

Lemma get_library_path_nonempty (session : Session) (lib_root : string) :
  get_library_path session = Some lib_root -> lib_root <> "".
Proof.
  unfold get_library_path. destruct (library_path (settings session)) as [p|]; [|done].
  destruct (String.eqb_spec p ""); [done|]. by intros [= <-].
Qed.

Lemma reorg_source_path_nonempty (P : ProcessorEnv) (fs : FS) (book : Audiobook)
    (lib_root : string) (current_path : option string) (source_path : string) :
  reorg_source_path P fs book lib_root current_path = Some source_path ->
  source_path <> "".
Proof.
  unfold reorg_source_path.
  assert (Hfound : match find_book_path_by_asin P fs lib_root (book_asin book) with
                   | Some p => if String.eqb p "" then None else Some p
                   | None => None
                   end = Some source_path -> source_path <> "").
  { destruct (find_book_path_by_asin P fs lib_root (book_asin book)) as [p|]; [|done].
    destruct (String.eqb_spec p ""); [done|]. by intros [= <-]. }
  destruct current_path as [p|]; [|done].
  destruct (String.eqb_spec p ""); [done|]. by intros [= <-].
Qed.

(** C9, amended.  When the book's current folder is a directory that is
    already the computed canonical destination, its audio files already
    bear the computed names, and no directory below the folder is empty,
    reorganize_existing_book moves nothing, raises nothing and leaves the
    file system as it found it, so no directory is created or removed; all
    it does afterwards is regenerate the metadata sidecars.  (The file
    system is well formed and the fuel of the walk exceeds its depth.) *)
Theorem reorganize_existing_book_in_place (fuel : nat) (P : ProcessorEnv)
    (session : Session) (fs : FS) (book : Audiobook) (current_path : option string)
    (lib_root source_path : string) :
  wf_fs fs = true ->
  get_library_path session = Some lib_root ->
  reorg_source_path P fs book lib_root current_path = Some source_path ->
  let dest_path := path_join lib_root (folder_rel_path P session book) in
  isdir fs source_path = true ->
  abspath (cwd fs) source_path = abspath (cwd fs) dest_path ->
  audio_in_place P session fs book source_path dest_path = true ->
  no_empty_directory_below fs source_path = true ->
  max_depth fs < fuel ->
  exists r,
    reorganize_existing_book fuel P session fs book current_path = Some r /\
    reorg_moves r = [] /\ reorg_raised r = None /\
    (reorg_fs r = fs \/
     reorg_fs r =
       generate_opf_metadata P session book dest_path None
         (generate_abs_metadata P book dest_path None fs)).
Proof.
  intros Hwf Hlib Hsrc dest_path Hdir Habs Haudio Hne Hfuel.
  pose proof (get_library_path_nonempty _ _ Hlib) as Hlib0.
  pose proof (reorg_source_path_nonempty _ _ _ _ _ _ Hsrc) as Hsrc0.
  assert (Hdest0 : dest_path <> "") by (by apply path_join_nonempty).
  unfold reorganize_existing_book. rewrite Hlib, Hsrc. fold dest_path.
  unfold audio_in_place in Haudio.
  destruct (natural_sort P (audio_files_under fs source_path)) as [|a l] eqn:Hsorted.
  { exists (mkReorg fs [] None). repeat split. by left. }
  assert (Hdestdir : isdir fs dest_path = true).
  { rewrite <- Hdir. apply isdir_resolve_eq; [done | done|]. by injection Habs. }
  rewrite os_makedirs_noop by done.
  destruct (rename_audio_in_place P book (file_pattern (settings session)) dest_path
              (a :: l) (enumerate1 (a :: l)) (mkReorgState fs [] ∅) Haudio)
    as [moved ->]. cbn [rs_fs rs_moves].
  destruct (walk_lazy_invariant (untouched fs)
              (fun e st => for_each (relocate_other source_path dest_path e.1.1) e.2 st)
              fs source_path Hwf ltac:(by intros st [? ?])) with
      (fuel := fuel) (root := source_path) (names := @nil string)
      (st := mkReorgState fs [] moved) as (st2 & -> & Hfs2 & Hmv2).
  - intros root names dirs files st Hb Hs Hi. cbn [fst snd].
    apply (relocate_other_in_place fs source_path dest_path root names); try done.
    + apply scandir_spec in Hs as [Hst _]. unfold isdir. by rewrite Hst.
    + intros f Hf. apply (scandir_plain fs root dirs files Hwf Hs), elem_of_app. by right.
  - by apply below_top.
  - by split.
  - lia.
  - lia.
  - rewrite Hfs2, Hmv2. rewrite cleanup_in_place by done.
    rewrite (proj2 (abspath_eqb_eq _ _) Habs).
    eexists. repeat split. by right.
Qed.

Lemma reorganize_existing_book_in_place_witness :
  exists r,
    reorganize_existing_book 10 idle_processor single_book_session library_fs_full
      (sample_book "B001" true) (Some "/lib/X/Y (2020)") = Some r /\
    reorg_moves r = [] /\ reorg_raised r = None /\
    (reorg_fs r = library_fs_full \/
     reorg_fs r =
       generate_opf_metadata idle_processor single_book_session
         (sample_book "B001" true) "/lib/X/Y (2020)" None
         (generate_abs_metadata idle_processor (sample_book "B001" true)
            "/lib/X/Y (2020)" None library_fs_full)).
Proof.
  apply (reorganize_existing_book_in_place 10 idle_processor single_book_session
           library_fs_full (sample_book "B001" true) (Some "/lib/X/Y (2020)")
           "/lib" "/lib/X/Y (2020)");
    try (vm_compute; reflexivity).
  vm_compute. lia.
Defined.

(** * Further properties of the embedded code *)

(** ** get_system_user *)

(** X1.  get_system_user makes sure a user "system" exists and returns it: a
    stored system user is returned as it is and nothing is written; when
    none is stored, the user created and stored is the one of line 14, named
    "system", with an empty password, in the admin group and with the root
    flag; a second call changes nothing and returns the same user; other
    users and the other tables are never touched. *)
Theorem get_system_user_idempotent (s : Session) :
  let s1 := (get_system_user s).1 in
  let u := (get_system_user s).2 in
  users s1 !! "system" = Some u /\
  get_system_user s1 = (s1, u) /\
  (forall stored, users s !! "system" = Some stored -> s1 = s /\ u = stored) /\
  (users s !! "system" = None ->
   u = mkUser "system" "" "admin" true /\
   s1 = set_users s (<["system" := mkUser "system" "" "admin" true]> (users s))) /\
  (forall name, name <> "system" -> users s1 !! name = users s !! name) /\
  audiobooks s1 = audiobooks s /\ requests s1 = requests s /\
  import_sessions s1 = import_sessions s /\ request_logs s1 = request_logs s /\
  settings s1 = settings s.
Proof.
  cbv zeta. unfold get_system_user.
  destruct (users s !! "system") as [stored|] eqn:Hu; cbn [fst snd].
  - rewrite Hu. repeat split; try done; congruence.
  - cbn [users set_users]. rewrite lookup_insert_eq. repeat split; try done.
    intros name Hn. by rewrite lookup_insert_ne.
Qed.

Lemma get_system_user_idempotent_witness :
  (get_system_user requeue_session).2 = mkUser "system" "" "admin" true /\
  (get_system_user (get_system_user requeue_session).1).1 =
  (get_system_user requeue_session).1.
Proof.
  pose proof (get_system_user_idempotent requeue_session) as (_ & H & _ & Hnew & _).
  cbv zeta in H, Hnew. split; [by apply Hnew | by rewrite H].
Defined.

(** ** delete_download *)

Lemma find_filter_other (a b : string) (rows : list AudiobookRequest) :
  a <> b ->
  find (fun r => String.eqb (asin r) b)
    (filter (fun r => String.eqb (asin r) a = false) rows) =
  find (fun r => String.eqb (asin r) b) rows.
Proof.
  intros Hab. induction rows as [|r rows IH]; [done|].
  rewrite filter_cons. cbn [find].
  destruct (String.eqb_spec (asin r) a) as [Ha|Ha]; case_decide; try done.
  - destruct (String.eqb_spec (asin r) b); [congruence | done].
  - cbn [find]. by rewrite IH.
Qed.

Lemma find_filter_same (a : string) (rows : list AudiobookRequest) :
  find (fun r => String.eqb (asin r) a)
    (filter (fun r => String.eqb (asin r) a = false) rows) = None.
Proof.
  induction rows as [|r rows IH]; [done|]. rewrite filter_cons.
  case_decide as H; [|done]. cbn [find]. by rewrite H.
Qed.

Lemma delete_download_frame (app : App) (a : string) (df : bool)
    (dfq : option bool) :
  _get_request (app_session (delete_download app a df dfq).1.1) a = None /\
  audiobooks (app_session (delete_download app a df dfq).1.1) =
    audiobooks (app_session app).
Proof.
  unfold delete_download. cbn [fst snd app_session]. split; [apply find_filter_same|done].
Qed.

(** X2.  delete_download always answers 204 and removes every request row of
    the asin, whether the torrent client is disabled, unreachable or
    working; the requests of other asins, the catalog and the cache stay as
    they are.  With the client disabled or unreachable no torrent is
    removed.  A rescan of the media server is scheduled exactly when files
    are to be deleted and the media server is configured. *)
Theorem delete_download_removes_request (app : App) (a : string) (df : bool)
    (dfq : option bool) :
  let out := delete_download app a df dfq in
  let after := app_session out.1.1 in
  out.1.2 = Returned 204 /\
  _get_request after a = None /\
  (forall r, r ∈ requests after <-> r ∈ requests (app_session app) /\ asin r <> a) /\
  (forall b, b <> a -> _get_request after b = _get_request (app_session app) b) /\
  audiobooks after = audiobooks (app_session app) /\
  app_cache out.1.1 = app_cache app /\
  (qbit_enabled (settings (app_session app)) = false \/
   reachable (app_qbit app) = false -> app_qbit out.1.1 = app_qbit app) /\
  out.2 =
    (if (match dfq with Some b => b | None => df end)
        && abs_is_valid (settings (app_session app))
     then [background_abs_trigger_scan] else []).
Proof.
  cbv zeta. unfold delete_download. cbn [fst snd app_session app_cache app_qbit].
  split; [done|]. split; [apply find_filter_same|]. split; [|split].
  - intros r. cbn [requests set_requests]. rewrite list_elem_of_filter. split.
    + intros [H Hin]. split; [done|]. intros Heq. by rewrite Heq, String.eqb_refl in H.
    + intros [Hin Hne]. split; [|done]. by apply String.eqb_neq.
  - intros b Hb. unfold _get_request. cbn [requests set_requests].
    by apply find_filter_other.
  - repeat split.
    intros [He|Hr].
    + by rewrite He.
    + unfold get_torrents. rewrite Hr. by destruct (qbit_enabled _).
Qed.

Lemma delete_download_removes_request_witness :
  app_qbit (delete_download
              (mkApp (app_session tagged_B0012)
                 (mkQbittorrent false (torrents (app_qbit tagged_B0012)) [])
                 (app_cache tagged_B0012))
              "B0012" true None).1.1 =
  mkQbittorrent false (torrents (app_qbit tagged_B0012)) [].
Proof.
  apply (proj1 (proj2 (proj2 (proj2 (proj2 (proj2 (proj2
           (delete_download_removes_request
              (mkApp (app_session tagged_B0012)
                 (mkQbittorrent false (torrents (app_qbit tagged_B0012)) [])
                 (app_cache tagged_B0012))
              "B0012" true None)))))))).
  right. reflexivity.
Defined.


(** ** create_download *)

Lemma find_write_back_other (b : string) (obj : AudiobookRequest)
    (rows : list AudiobookRequest) :
  asin obj <> b ->
  find (fun r => String.eqb (asin r) b) (write_back obj rows) =
  find (fun r => String.eqb (asin r) b) rows.
Proof.
  intros Hne. induction rows as [|r rows IH]; [done|]. cbn [write_back].
  destruct (String.eqb_spec (asin r) (asin obj)) as [Heq|Hne'].
  - cbn [find]. rewrite Heq.
    by destruct (String.eqb_spec (asin obj) b).
  - cbn [find]. by rewrite IH.
Qed.

Lemma find_app_other (b : string) (rows : list AudiobookRequest)
    (r : AudiobookRequest) :
  asin r <> b ->
  find (fun r => String.eqb (asin r) b) (rows ++ [r]) =
  find (fun r => String.eqb (asin r) b) rows.
Proof.
  intros Hne. induction rows as [|r0 rows IH]; cbn [find app].
  - by destruct (String.eqb_spec (asin r) b).
  - by rewrite IH.
Qed.

Lemma get_system_user_logs (s : Session) :
  request_logs (get_system_user s).1 = request_logs s.
Proof. unfold get_system_user. by destruct (users s !! "system"). Qed.

Lemma get_system_user_settings (s : Session) :
  settings (get_system_user s).1 = settings s.
Proof. unfold get_system_user. by destruct (users s !! "system"). Qed.

(** X3.  An accepted create_download leaves exactly one state of the request
    of the asin: a request found is reset to pending, progress 0.0, no
    torrent hash and no download state, and keeps its requester and its
    alternate metadata key; otherwise a new pending request of the system
    user is appended.  The job returned shows that request, and the requests
    of other asins are read as before. *)
Theorem create_download_accepted (E : DownloadsEnv) (s : Session) (a : string)
    (region : option string) (job : DownloadJob) :
  (create_download E s a region).1.2 = Returned job ->
  let after := (create_download E s a region).1.1 in
  _get_request after a =
    Some (match _get_request s a with
          | Some r0 => reopened r0
          | None => new_AudiobookRequest a (username (get_system_user s).2)
          end) /\
  job_status job = "pending" /\ job_progress job = 0%Q /\
  job_torrent_hash job = None /\ job_download_state job = None /\
  (forall b, b <> a -> _get_request after b = _get_request s b).
Proof.
  cbv zeta. unfold create_download.
  pose proof (get_system_user_requests s) as Hreq.
  destruct (get_system_user s) as [s1 user]. cbn [fst snd] in *.
  destruct (negb (audible_regions E _)); [done|].
  destruct (get_book_by_asin E a _) as [fetched|]; [|done].
  set (line98 := match audiobooks s1 !! a with
                 | Some b => (s1, b)
                 | None => (commit_book s1 fetched, fetched)
                 end).
  assert (requests line98.1 = requests s) as Hreq2.
  { subst line98. by destruct (audiobooks s1 !! a). }
  destruct line98 as [s2 book]. cbn [fst] in Hreq2.
  destruct (library_contains_asin E s2 a && _); [done|].
  destruct (match audiobooks s1 !! a with Some b => downloaded b | None => false end);
    [done|].
  unfold _get_request. rewrite Hreq2.
  destruct (find _ (requests s)) as [r0|] eqn:Hf; cbn [fst snd].
  - destruct (find_asin _ _ _ Hf) as [Ha _].
    assert (find (fun r => String.eqb (asin r) a)
              (requests (log_request_event
                 (commit_request s2
                    (set_download_state
                       (set_torrent_hash
                          (set_download_progress (set_processing_status r0 "pending") 0%Q)
                          None) None)) a (username user) "Download re-opened." info))
            = Some (reopened r0)) as Hfind.
    { cbn [requests log_request_event set_request_logs commit_request set_requests].
      rewrite Hreq2. by apply (find_write_back a _ _ r0). }
    rewrite Hfind. intros [= <-]. repeat split; try done.
    intros b Hb.
    cbn [requests log_request_event set_request_logs commit_request set_requests].
    rewrite Hreq2. apply find_write_back_other. cbn. congruence.
  - assert (find (fun r => String.eqb (asin r) a)
              (requests (log_request_event
                 (set_requests s2 (requests s ++ [new_AudiobookRequest a (username user)]))
                 a (username user) "Download created." info))
            = Some (new_AudiobookRequest a (username user))) as Hfind.
    { cbn [requests log_request_event set_request_logs set_requests].
      rewrite find_app_None by done. cbn [find asin new_AudiobookRequest].
      by rewrite String.eqb_refl. }
    rewrite Hfind. intros [= <-]. repeat split; try done.
    intros b Hb.
    cbn [requests log_request_event set_request_logs set_requests].
    apply find_app_other. cbn. congruence.
Qed.

Lemma create_download_accepted_witness :
  _get_request (create_download nothing_on_disk requeue_session "B001" None).1.1 "B001"
  = Some (mkAudiobookRequest "B001" "system" "pending" 0%Q None None None).
Proof.
  refine (proj1 (create_download_accepted nothing_on_disk requeue_session "B001" None
                   (mkDownloadJob "B001" "Y" None "pending" 0%Q None None false) _)).
  vm_compute. reflexivity.
Defined.

(** X4.  A create_download that is refused answers 400 or 404 and leaves the
    request table and the audit trail as they were, and schedules nothing. *)
Theorem create_download_rejected (E : DownloadsEnv) (s : Session) (a : string)
    (region : option string) (code : nat) (detail : string) :
  (create_download E s a region).1.2 = HTTPException code detail ->
  let out := create_download E s a region in
  (code = 400 \/ code = 404) /\
  requests out.1.1 = requests s /\
  request_logs out.1.1 = request_logs s /\
  settings out.1.1 = settings s /\
  out.2 = [].
Proof.
  cbv zeta. unfold create_download.
  pose proof (get_system_user_requests s) as Hreq.
  pose proof (get_system_user_logs s) as Hlog.
  pose proof (get_system_user_settings s) as Hset.
  destruct (get_system_user s) as [s1 user]. cbn [fst snd] in *.
  destruct (negb (audible_regions E _)); [intros [= <- <-]; auto 10|].
  destruct (get_book_by_asin E a _) as [fetched|]; [|intros [= <- <-]; auto 10].
  destruct (audiobooks s1 !! a) as [b|].
  - destruct (library_contains_asin E s1 a && _); [intros [= <- <-]; auto 10|].
    destruct (downloaded b); [intros [= <- <-]; auto 10|]. done.
  - destruct (library_contains_asin E _ a && _); [intros [= <- <-]; auto 10|]. done.
Qed.

Lemma create_download_rejected_witness :
  requests (create_download nothing_on_disk downloaded_not_on_disk "B001" None).1.1 = [].
Proof.
  refine (proj1 (proj2 (create_download_rejected nothing_on_disk downloaded_not_on_disk
                          "B001" None 400 "Book already in library" _))).
  vm_compute. reflexivity.
Defined.


(** X5.  create_download never overwrites or removes a catalog record.  When
    the asin is not tracked and the book service knows it (in a valid
    region), the fetched record is stored under the asin, also when the call
    is then refused because the book is found in the library folder; in
    every other case the catalog is left as it was. *)
Theorem create_download_catalog (E : DownloadsEnv) (s : Session) (a : string)
    (region : option string) :
  fetches_asked_asin E a ->
  let after := (create_download E s a region).1.1 in
  (forall k b, audiobooks s !! k = Some b -> audiobooks after !! k = Some b) /\
  (forall fetched,
     audible_regions E (effective_region E region) = true ->
     get_book_by_asin E a (effective_region E region) = Some fetched ->
     audiobooks s !! a = None ->
     audiobooks after = <[a := fetched]> (audiobooks s)) /\
  (audible_regions E (effective_region E region) = false \/
   get_book_by_asin E a (effective_region E region) = None \/
   is_Some (audiobooks s !! a) ->
   audiobooks after = audiobooks s).
Proof.
  intros Hfetch. cbv zeta. unfold create_download, effective_region.
  pose proof (get_system_user_audiobooks s) as Hcat.
  destruct (get_system_user s) as [s1 user]. cbn [fst snd] in *.
  set (reg := match region with Some r => r | None => get_region_from_settings E end).
  destruct (audible_regions E reg) eqn:Hreg; cbn [negb].
  2:{ cbn [fst snd]. rewrite Hcat. split; [done|]. split; [done|]. done. }
  destruct (get_book_by_asin E a reg) as [fetched|] eqn:Hget.
  2:{ cbn [fst snd]. rewrite Hcat. split; [done|]. split; [done|]. done. }
  rewrite Hcat. specialize (Hfetch _ _ Hget).
  destruct (audiobooks s !! a) as [b|] eqn:Hb.
  - assert (forall out : Session * response DownloadJob * list BackgroundTask,
              audiobooks out.1.1 = audiobooks s ->
              (forall k b0, audiobooks s !! k = Some b0 ->
                            audiobooks out.1.1 !! k = Some b0) /\
              (forall fetched0, true = true -> Some fetched = Some fetched0 ->
                 Some b = None -> audiobooks out.1.1 = <[a := fetched0]> (audiobooks s)) /\
              (true = false \/ Some fetched = None \/ is_Some (Some b) ->
               audiobooks out.1.1 = audiobooks s)) as Hshape.
    { intros out ->. split; [done|]. split; [done|]. done. }
    destruct (library_contains_asin E s1 a && _); [by apply Hshape|].
    destruct (downloaded b); [by apply Hshape|].
    apply Hshape. destruct (_get_request s1 a); cbn; by rewrite Hcat.
  - assert (forall out : Session * response DownloadJob * list BackgroundTask,
              audiobooks out.1.1 = <[a := fetched]> (audiobooks s) ->
              (forall k b0, audiobooks s !! k = Some b0 ->
                            audiobooks out.1.1 !! k = Some b0) /\
              (forall fetched0, true = true -> Some fetched = Some fetched0 ->
                 @None Audiobook = None ->
                 audiobooks out.1.1 = <[a := fetched0]> (audiobooks s)) /\
              (true = false \/ Some fetched = None \/ is_Some (@None Audiobook) ->
               audiobooks out.1.1 = audiobooks s)) as Hshape.
    { intros out ->. split; [|split].
      - intros k b0 Hk. rewrite lookup_insert_ne; [done|]. congruence.
      - by intros ? _ [= <-] _.
      - intros [|[|[? ?]]]; done. }
    destruct (library_contains_asin E _ a && _);
      [apply Hshape; cbn; by rewrite Hcat, Hfetch|].
    apply Hshape. destruct (_get_request _ a); cbn; by rewrite Hcat, Hfetch.
Qed.

Lemma create_download_catalog_witness :
  (create_download found_on_disk empty_session "B001" None).1.2 =
    HTTPException 400 "Book already exists in library folder" /\
  audiobooks (create_download found_on_disk empty_session "B001" None).1.1 =
    <["B001" := sample_book "B001" false]> ∅.
Proof.
  split; [vm_compute; reflexivity|].
  refine (proj1 (proj2 (create_download_catalog found_on_disk empty_session "B001" None _))
            (sample_book "B001" false) _ _ _); try reflexivity.
  intros region b [= <-]. reflexivity.
Defined.

(** X6.  An accepted create_download appends one event to the audit trail,
    "Download re-opened." when a request of the asin existed and "Download
    created." otherwise, in the name of the system user, and schedules the
    search in the background exactly when auto-download is switched on. *)
Theorem create_download_audit_and_tasks (E : DownloadsEnv) (s : Session)
    (a : string) (region : option string) (job : DownloadJob) :
  (create_download E s a region).1.2 = Returned job ->
  let out := create_download E s a region in
  let user := (get_system_user s).2 in
  request_logs out.1.1 =
    request_logs s ++
    [mkRequestLogEvent a (username user)
       (match _get_request s a with
        | Some _ => "Download re-opened."
        | None => "Download created."
        end) info] /\
  out.2 = (if auto_download (settings s)
           then [background_start_query a user true] else []) /\
  settings out.1.1 = settings s /\
  users out.1.1 = users (get_system_user s).1.
Proof.
  cbv zeta. unfold create_download.
  pose proof (get_system_user_requests s) as Hreq.
  pose proof (get_system_user_logs s) as Hlog.
  pose proof (get_system_user_settings s) as Hset.
  destruct (get_system_user s) as [s1 user]. cbn [fst snd] in *.
  destruct (negb (audible_regions E _)); [done|].
  destruct (get_book_by_asin E a _) as [fetched|]; [|done].
  unfold _get_request.
  destruct (audiobooks s1 !! a) as [b|].
  - destruct (library_contains_asin E s1 a && _); [done|].
    destruct (downloaded b); [done|]. rewrite Hreq.
    destruct (find _ (requests s)); intros _; cbn; by rewrite Hlog, Hset.
  - destruct (library_contains_asin E _ a && _); [done|].
    cbn [requests commit_book set_audiobooks]. rewrite Hreq.
    destruct (find _ (requests s)); intros _; cbn; by rewrite Hlog, Hset.
Qed.

Lemma create_download_audit_and_tasks_witness :
  (create_download nothing_on_disk auto_session "B001" None).2 =
  [background_start_query "B001" (mkUser "system" "" "admin" true) true].
Proof.
  refine (proj1 (proj2 (create_download_audit_and_tasks nothing_on_disk auto_session
                          "B001" None
                          (mkDownloadJob "B001" "Y" None "pending" 0%Q None None false) _))).
  vm_compute. reflexivity.
Defined.


(** ** get_download and list_downloads *)

(** X7.  The job create_download returns is the job get_download shows for
    the asin afterwards; and once the download is deleted, get_download
    still finds the book and shows it as not queued, with progress 0.0 and
    no torrent. *)
Theorem create_get_delete_round_trip (E : DownloadsEnv) (s : Session) (a : string)
    (region : option string) (job : DownloadJob) (q : Qbittorrent) (c : SourceCache)
    (df : bool) (dfq : option bool) :
  fetches_asked_asin E a ->
  (create_download E s a region).1.2 = Returned job ->
  let after := (create_download E s a region).1.1 in
  let deleted := app_session (delete_download (mkApp after q c) a df dfq).1.1 in
  get_download after a = Returned job /\
  get_download deleted a =
    Returned (mkDownloadJob (job_asin job) (job_title job) (job_subtitle job)
                "not_queued" 0%Q None None (job_downloaded job)).
Proof.
  intros Hfetch Hjob. cbv zeta.
  pose proof (delete_download_frame (mkApp (create_download E s a region).1.1 q c)
                a df dfq) as [Hnone Hcat].
  unfold get_download. rewrite Hcat, Hnone. cbn [app_session]. clear Hcat Hnone.
  revert Hjob. unfold create_download.
  pose proof (get_system_user_audiobooks s) as Hs1.
  destruct (get_system_user s) as [s1 user]. cbn [fst snd] in *.
  destruct (negb (audible_regions E _)); [done|].
  destruct (get_book_by_asin E a _) as [fetched|] eqn:Hget; [|done].
  specialize (Hfetch _ _ Hget).
  destruct (audiobooks s1 !! a) as [b|] eqn:Hb.
  - destruct (library_contains_asin E s1 a && _); [done|].
    destruct (downloaded b); [done|].
    destruct (_get_request s1 a); cbn [fst snd]; intros [= <-];
      cbn [audiobooks log_request_event set_request_logs commit_request set_requests];
      by rewrite Hb.
  - destruct (library_contains_asin E _ a && _); [done|].
    destruct (_get_request _ a); cbn [fst snd]; intros [= <-];
      cbn [audiobooks log_request_event set_request_logs commit_request set_requests
             commit_book set_audiobooks];
      by rewrite Hfetch, lookup_insert_eq.
Qed.

Lemma create_get_delete_round_trip_witness :
  get_download (create_download nothing_on_disk requeue_session "B001" None).1.1 "B001" =
  Returned (mkDownloadJob "B001" "Y" None "pending" 0%Q None None false).
Proof.
  refine (proj1 (create_get_delete_round_trip nothing_on_disk requeue_session "B001" None
                   (mkDownloadJob "B001" "Y" None "pending" 0%Q None None false)
                   (mkQbittorrent true [] []) (mkSourceCache 0 ∅) false None _ _)).
  - intros region b [= <-]. reflexivity.
  - vm_compute. reflexivity.
Defined.


Lemma find_NoDup_asin (rows : list AudiobookRequest) (req : AudiobookRequest) :
  NoDup (map asin rows) -> req ∈ rows ->
  find (fun r => String.eqb (asin r) (asin req)) rows = Some req.
Proof.
  induction rows as [|r rows IH]; intros Hnd Hin; [by apply elem_of_nil in Hin|].
  cbn [map] in Hnd. apply NoDup_cons in Hnd as [Hnotin Hnd]. cbn [find].
  apply elem_of_cons in Hin as [->|Hin]; [by rewrite String.eqb_refl|].
  destruct (String.eqb_spec (asin r) (asin req)) as [Heq|_]; [|by apply IH].
  exfalso. apply Hnotin. rewrite Heq. apply list_elem_of_fmap. by exists req.
Qed.

(** X8.  When every request has its own asin and every catalog record is
    stored under its asin, a job listed by list_downloads (under any filter)
    is the job get_download returns for its asin; and the job get_download
    returns for an asin that has a request is among the jobs listed under
    "all". *)
Theorem list_downloads_agrees_with_get_download (s : Session) (f : DownloadFilter) :
  NoDup (map asin (requests s)) -> catalog_keyed s ->
  (forall j, j ∈ list_downloads s f -> get_download s (job_asin j) = Returned j) /\
  (forall a j, get_download s a = Returned j -> is_Some (_get_request s a) ->
               j ∈ list_downloads s filter_all).
Proof.
  intros Hnd Hkey. split.
  - intros j Hj. unfold list_downloads in Hj.
    apply list_elem_of_omap in Hj as [req [Hin Hj]].
    destruct (audiobooks s !! asin req) as [book|] eqn:Hb; [|done].
    destruct (filter_keeps f book); [|done]. injection Hj as <-.
    cbn [job_asin _job_view]. rewrite (Hkey _ _ Hb).
    unfold get_download, _get_request. by rewrite Hb, find_NoDup_asin.
  - intros a j Hget [req Hreq]. unfold get_download in Hget. rewrite Hreq in Hget.
    destruct (audiobooks s !! a) as [book|] eqn:Hb; [|done]. injection Hget as <-.
    apply find_asin in Hreq as [Ha Hin]. apply list_elem_of_In in Hin.
    unfold list_downloads. apply list_elem_of_omap. exists req. split; [done|].
    by rewrite Ha, Hb.
Qed.

Lemma list_downloads_agrees_with_get_download_witness :
  Forall (fun j => get_download requeue_session (job_asin j) = Returned j)
    (list_downloads requeue_session filter_not_downloaded).
Proof.
  apply Forall_forall.
  refine (proj1 (list_downloads_agrees_with_get_download requeue_session
                   filter_not_downloaded _ _)).
  - vm_compute. apply NoDup_singleton.
  - intros a b Hb. unfold requeue_session in Hb. cbn [audiobooks] in Hb.
    apply lookup_singleton_Some in Hb as [<- <-]. reflexivity.
Defined.

(** X9.  list_downloads is an inner join: a job is listed exactly for a
    request whose asin has a catalog record, so never with the status
    "not_queued" of a book without request.  The filters "downloaded" and
    "not_downloaded" split the jobs listed under "all" in two, by the
    downloaded mark of the job. *)
Theorem list_downloads_partition (s : Session) :
  (forall f j, j ∈ list_downloads s f <->
     exists req book, req ∈ requests s /\ audiobooks s !! asin req = Some book /\
                      filter_keeps f book = true /\ j = _job_view book (Some req)) /\
  list_downloads s filter_all ≡ₚ
    list_downloads s filter_downloaded ++ list_downloads s filter_not_downloaded /\
  Forall (fun j => job_downloaded j = true) (list_downloads s filter_downloaded) /\
  Forall (fun j => job_downloaded j = false) (list_downloads s filter_not_downloaded).
Proof.
  split; [|split; [|split]].
  - intros f j. unfold list_downloads. rewrite list_elem_of_omap. split.
    + intros [req [Hin Hj]]. destruct (audiobooks s !! asin req) as [book|] eqn:Hb; [|done].
      destruct (filter_keeps f book) eqn:Hk; [|done]. injection Hj as <-. eauto 10.
    + intros (req & book & Hin & Hb & Hk & ->). exists req. by rewrite Hb, Hk.
  - unfold list_downloads. induction (requests s) as [|req rows IH]; [done|].
    cbn [omap list_omap]. destruct (audiobooks s !! asin req) as [book|]; [|done].
    cbn [filter_keeps]. destruct (downloaded book); cbn [negb].
    + cbn [app]. by constructor.
    + rewrite IH. apply Permutation_middle.
  - apply Forall_forall. intros j Hj. unfold list_downloads in Hj.
    apply list_elem_of_omap in Hj as [req [_ Hj]].
    destruct (audiobooks s !! asin req) as [book|]; [|done]. cbn [filter_keeps] in Hj.
    destruct (downloaded book) eqn:Hd; [|done]. by injection Hj as <-.
  - apply Forall_forall. intros j Hj. unfold list_downloads in Hj.
    apply list_elem_of_omap in Hj as [req [_ Hj]].
    destruct (audiobooks s !! asin req) as [book|]; [|done]. cbn [filter_keeps] in Hj.
    destruct (downloaded book) eqn:Hd; [done|]. by injection Hj as <-.
Qed.

(** ** start_download_source *)

(** X10.  start_download_source answers 404 "Active download for this
    audiobook not found." when the asin has no request, no catalog record,
    or a catalog record marked downloaded, whatever the cache holds: nothing
    is started or scheduled, and the only write is the system user. *)
Theorem start_download_source_inactive (E : DownloadsEnv) (app : App) (a : string)
    (body : DownloadSourceBody) :
  _get_request (app_session app) a = None \/
  audiobooks (app_session app) !! a = None \/
  (exists b, audiobooks (app_session app) !! a = Some b /\ downloaded b = true) ->
  let out := start_download_source E app a body in
  out.1.2 = HTTPException 404 "Active download for this audiobook not found." /\
  out.2 = [] /\
  out.1.1 = mkApp (get_system_user (app_session app)).1 (app_qbit app) (app_cache app).
Proof.
  intros H. cbv zeta. unfold start_download_source.
  pose proof (get_system_user_requests (app_session app)) as Hreq.
  pose proof (get_system_user_audiobooks (app_session app)) as Hcat.
  destruct (get_system_user (app_session app)) as [s1 user]. cbn [fst snd] in *.
  rewrite Hreq, Hcat.
  destruct (find _ (requests (app_session app))) as [r|] eqn:Hf; [exfalso|done].
  apply find_some in Hf as [Hin Hf]. apply andb_true_iff in Hf as [Ha Hd].
  apply String.eqb_eq in Ha. rewrite Ha in Hd.
  destruct H as [Hnone|[Hnone|(b & Hb & Hdl)]].
  - apply (find_asin_None _ _ Hnone). apply in_map_iff. by exists r.
  - by rewrite Hnone in Hd.
  - by rewrite Hb, Hdl in Hd.
Qed.

Lemma start_download_source_inactive_witness :
  (start_download_source nothing_on_disk
     (mkApp downloaded_not_on_disk (mkQbittorrent true [] []) (mkSourceCache 0 ∅))
     "B001" sample_body).1.2 =
  HTTPException 404 "Active download for this audiobook not found.".
Proof.
  refine (proj1 (start_download_source_inactive nothing_on_disk
                   (mkApp downloaded_not_on_disk (mkQbittorrent true [] [])
                      (mkSourceCache 0 ∅)) "B001" sample_body _)).
  left. reflexivity.
Defined.

(** ** Prowlarr settings *)

(** X11.  Each of the five updates of the Prowlarr settings answers 204 and
    flushes the source cache, whatever the setter writes: until sources are
    fetched again, every request to start a download from a listed source is
    answered 404 and starts nothing. *)
Theorem prowlarr_update_invalidates_sources (C : ProwlarrConfig) (E : DownloadsEnv)
    (app : App) (text : string) (categories : list Z) :
  Forall (fun out : App * nat =>
            out.2 = 204 /\ entries (app_cache out.1) = ∅ /\
            app_qbit out.1 = app_qbit app /\ answers_not_found E out.1)
    [update_prowlarr_api_key C app text; update_prowlarr_base_url C app text;
     update_indexer_categories C app categories; update_default_language C app text;
     update_search_template C app text].
Proof.
  assert (forall session,
            answers_not_found E
              (mkApp session (app_qbit app) (flush_prowlarr_cache (app_cache app))))
    as Hflush.
  { intros session a body.
    destruct (start_download_source_miss E
                (mkApp session (app_qbit app) (flush_prowlarr_cache (app_cache app)))
                a body) as (H1 & H2 & H3 & _); [apply cache_get_flushed|].
    by repeat split. }
  repeat constructor; apply Hflush.
Qed.

Lemma prowlarr_update_invalidates_sources_witness :
  (start_download_source nothing_on_disk live_cache_app "B001" sample_body).1.2
    = Returned 204 /\
  exists detail,
    (start_download_source nothing_on_disk
       (update_search_template idle_config live_cache_app "{title}").1
       "B001" sample_body).1.2 = HTTPException 404 detail.
Proof.
  split; [vm_compute; reflexivity|].
  pose proof (prowlarr_update_invalidates_sources idle_config nothing_on_disk
                live_cache_app "{title}" []) as H.
  apply Forall_forall with (x := update_search_template idle_config live_cache_app "{title}")
    in H; [|set_solver].
  destruct H as (_ & _ & _ & Hnf). apply (Hnf "B001" sample_body).
Defined.


(** ** smart_copy: what it leaves alone *)

Lemma entries_kept_refl (g : option (list string)) (fs : FS) : entries_kept g fs fs.
Proof. by split. Qed.

Lemma entries_kept_trans (g : option (list string)) (a b c : FS) :
  entries_kept g a b -> entries_kept g b c -> entries_kept g a c.
Proof.
  intros [Hc1 H1] [Hc2 H2]. split; [congruence|]. intros k n Hk Hg.
  apply H2; [by apply H1 | done].
Qed.

Lemma entries_kept_weaken (g : option (list string)) (a b : FS) :
  entries_kept None a b -> entries_kept g a b.
Proof. intros [Hc H]. split; [done|]. intros k n Hk _. by apply H. Qed.

Lemma stat_kept (g : option (list string)) (fs fs' : FS) (p : string) (n : node) :
  entries_kept g fs fs' -> stat fs p = Some n -> g <> Some (resolve (cwd fs) p) ->
  stat fs' p = Some n.
Proof.
  intros [Hc H] Hs Hg. unfold stat in *. rewrite Hc.
  destruct (String.eqb p ""); [done|]. unfold node_at in *.
  destruct (resolve (cwd fs) p) as [|c l] eqn:Hr; [done|]. by apply H.
Qed.

Lemma write_file_kept (fs fs' : FS) (p c : string) (e : option exn) :
  write_file fs p c = (fs', e) -> entries_kept None fs fs'.
Proof.
  unfold write_file. destruct (stat fs p) as [[|j]|] eqn:Hs.
  - intros [= <- _]. apply entries_kept_refl.
  - intros [= <- _]. by split.
  - destruct (String.eqb_spec p "") as [|Hp]; cbn [negb andb];
      [intros [= <- _]; apply entries_kept_refl|].
    destruct (parent_is_dir fs _); [|intros [= <- _]; apply entries_kept_refl].
    apply stat_None in Hs as [|[Hr Ht]]; [done|].
    intros [= <- _]. split; [done|]. cbn [tree]. intros k n Hk _.
    rewrite lookup_insert_ne; [done|]. congruence.
Qed.

Lemma write_file_content (fs fs' : FS) (p : string) (i : nat) (e : option exn) :
  write_file fs p (content fs i) = (fs', e) -> stat fs p <> Some (File i) ->
  content fs' i = content fs i.
Proof.
  unfold write_file. destruct (stat fs p) as [[|j]|] eqn:Hs.
  - by intros [= <- _].
  - intros [= <- _] Hne. unfold content at 1. cbn [data].
    rewrite lookup_insert_ne; [done|]. congruence.
  - destruct (_ && _); [|by intros [= <- _]].
    intros [= <- _] _. unfold content at 1. cbn [data].
    destruct (decide (next_ino fs = i)) as [->|Hne].
    + by rewrite lookup_insert_eq.
    + by rewrite lookup_insert_ne.
Qed.

Lemma shutil_copy2_kept (fs fs' : FS) (src dst : string) (e : option exn) :
  shutil_copy2 fs src dst = (fs', e) -> entries_kept None fs fs'.
Proof.
  unfold shutil_copy2. destruct (stat fs src) as [[|i]|].
  - intros [= <- _]. apply entries_kept_refl.
  - destruct (stat fs _) as [[|j]|]; try apply write_file_kept.
    destruct (i =? j)%nat; [intros [= <- _]; apply entries_kept_refl|].
    apply write_file_kept.
  - intros [= <- _]. apply entries_kept_refl.
Qed.

Lemma shutil_copy2_content (fs fs' : FS) (src dst : string) (i : nat) (e : option exn) :
  shutil_copy2 fs src dst = (fs', e) -> stat fs src = Some (File i) ->
  content fs' i = content fs i.
Proof.
  unfold shutil_copy2. intros H Hs. rewrite Hs in H.
  destruct (stat fs (if isdir fs dst then _ else _)) as [[|j]|] eqn:Hd.
  - apply write_file_content in H; [done|]. by rewrite Hd.
  - destruct (Nat.eqb_spec i j) as [|Hne]; [by injection H as <-|].
    apply write_file_content in H; [done|]. rewrite Hd. congruence.
  - apply write_file_content in H; [done|]. by rewrite Hd.
Qed.

Lemma os_remove_kept (fs fs' : FS) (p : string) (e : option exn) :
  os_remove fs p = (fs', e) ->
  entries_kept (Some (resolve (cwd fs) p)) fs fs' /\ data fs' = data fs.
Proof.
  unfold os_remove. destruct (stat fs p) as [[|i]|];
    try (intros [= <- _]; split; [apply entries_kept_refl|done]).
  intros [= <- _]. split; [|done]. split; [done|]. cbn [tree set_tree].
  intros k n Hk Hg. rewrite lookup_delete_ne; [done|]. congruence.
Qed.

Lemma os_link_kept (fs fs' : FS) (s d : string) (e : option exn) :
  os_link fs s d = (fs', e) -> entries_kept None fs fs' /\ data fs' = data fs.
Proof.
  destruct e as [e|]; intros H.
  - apply os_link_fail in H as ->. split; [apply entries_kept_refl|done].
  - apply os_link_spec in H as (i & _ & _ & _ & Hnone & ->). split; [|done].
    split; [done|]. cbn [tree set_tree]. intros k n Hk _.
    rewrite lookup_insert_ne; [done|]. congruence.
Qed.

Lemma copy_then_remove_kept (fs r : FS) (src dst : string) (del : bool) (e : option exn) :
  copy_then_remove fs src dst del = (r, e) ->
  entries_kept (if del then Some (resolve (cwd fs) src) else None) fs r /\
  forall i, stat fs src = Some (File i) -> content r i = content fs i.
Proof.
  unfold copy_then_remove.
  destruct (shutil_copy2 fs src dst) as [fs2 [e2|]] eqn:Hc.
  - intros [= <- _]. split.
    + apply entries_kept_weaken. by eapply shutil_copy2_kept.
    + intros i. by eapply shutil_copy2_content.
  - pose proof (shutil_copy2_kept _ _ _ _ _ Hc) as Hk.
    pose proof (fun i => shutil_copy2_content _ _ _ _ i _ Hc) as Hcont.
    destruct del; [|by intros [= <- _]].
    intros Hr. apply os_remove_kept in Hr as [Hr Hd]. rewrite (proj1 Hk) in Hr.
    split.
    + eapply entries_kept_trans; [by apply entries_kept_weaken|done].
    + intros i Hi. unfold content at 1. rewrite Hd. by apply Hcont.
Qed.

Lemma smart_copy_kept (fs r : FS) (src dst : string) (hl del : bool)
    (e : option exn) :
  smart_copy fs src dst hl del = (r, e) ->
  entries_kept (if del then Some (resolve (cwd fs) src) else None) fs r /\
  forall i, stat fs src = Some (File i) -> content r i = content fs i.
Proof.
  unfold smart_copy.
  destruct (abspath_eqb _ _); [intros [= <- _]; split; [apply entries_kept_refl|done]|].
  destruct (os_makedirs fs (dirname dst)) as [fs1 [e1|]] eqn:Hm;
    apply os_makedirs_facts in Hm as (Hc & Hd & Hmono & _).
  { intros [= <- _]. split; [by split; [|intros k n Hk _; apply Hmono]|].
    intros i _. unfold content. by rewrite Hd. }
  assert (entries_kept None fs fs1) as Hk1 by (split; [done|]; intros k n Hk _; by apply Hmono).
  assert (forall fs2 e2,
            entries_kept (if del then Some (resolve (cwd fs1) src) else None) fs1 fs2 /\
            (forall i, stat fs1 src = Some (File i) -> content fs2 i = content fs1 i) ->
            (fs2, e2) = (r, e) ->
            entries_kept (if del then Some (resolve (cwd fs) src) else None) fs r /\
            (forall i, stat fs src = Some (File i) -> content r i = content fs i)) as Hwrap.
  { intros fs2 e2 [Hk2 Hcont] [= <- _]. rewrite Hc in Hk2. split.
    - eapply entries_kept_trans; [by apply entries_kept_weaken|done].
    - intros i Hi. rewrite Hcont.
      + unfold content. by rewrite Hd.
      + by apply (stat_kept None fs). }
  assert (forall fs2 e2, copy_then_remove fs1 src dst del = (fs2, e2) ->
            (fs2, e2) = (r, e) ->
            entries_kept (if del then Some (resolve (cwd fs) src) else None) fs r /\
            (forall i, stat fs src = Some (File i) -> content r i = content fs i)) as Hcopy.
  { intros fs2 e2 H. apply Hwrap. by eapply copy_then_remove_kept. }
  destruct hl.
  2:{ destruct (copy_then_remove fs1 src dst del) as [fs2 e2] eqn:Hct. by eapply Hcopy. }
  destruct (os_link fs1 src dst) as [fs2 [e2|]] eqn:Hl.
  { apply os_link_fail in Hl as ->.
    destruct (copy_then_remove fs1 src dst del) as [fs3 e3] eqn:Hct. by eapply Hcopy. }
  apply os_link_kept in Hl as [Hk2 Hd2].
  destruct del.
  2:{ apply Hwrap. split; [done|]. intros i _. unfold content. by rewrite Hd2. }
  destruct (os_remove fs2 src) as [fs3 [e3|]] eqn:Hr.
  - assert (fs3 = fs2) as ->.
    { unfold os_remove in Hr. destruct (stat fs2 src) as [[|?]|]; congruence. }
    destruct (copy_then_remove fs2 src dst true) as [fs4 e4] eqn:Hct.
    apply copy_then_remove_kept in Hct as [Hk4 Hcont4]. rewrite (proj1 Hk2) in Hk4.
    apply Hwrap. split.
    + eapply entries_kept_trans; [by apply entries_kept_weaken|done].
    + intros i Hi. rewrite Hcont4.
      * unfold content. by rewrite Hd2.
      * by apply (stat_kept None fs1).
  - apply os_remove_kept in Hr as [Hk3 Hd3]. rewrite (proj1 Hk2) in Hk3.
    apply Hwrap. split.
    + eapply entries_kept_trans; [by apply entries_kept_weaken|done].
    + intros i _. unfold content. by rewrite Hd3, Hd2.
Qed.

(** X12.  Whatever smart_copy does, and whether it returns or raises, it
    removes or re-points no directory entry other than the source of a move:
    every other file and directory is still there, a file with the inode it
    had.  Without delete_source that holds of the source as well.  The
    content of the source file is never altered. *)
Theorem smart_copy_frame (fs r : FS) (src dst : string) (hl del : bool)
    (e : option exn) :
  smart_copy fs src dst hl del = (r, e) ->
  cwd r = cwd fs /\
  (forall k n, tree fs !! k = Some n -> del = false \/ k <> resolve (cwd fs) src ->
               tree r !! k = Some n) /\
  (forall i, stat fs src = Some (File i) -> content r i = content fs i).
Proof.
  intros H. apply smart_copy_kept in H as [[Hc Hk] Hcont].
  split; [done|]. split; [|done]. intros k n Hn Hor. apply Hk; [done|].
  destruct Hor as [->|Hne]; [done|]. destruct del; congruence.
Qed.

Lemma smart_copy_frame_witness :
  tree (smart_copy sample_fs "/dl/a.mp3" "/lib/b.mp3" false false).1 !! ["dl"; "a.mp3"]
  = Some (File 0).
Proof.
  refine (proj1 (proj2 (smart_copy_frame sample_fs _ "/dl/a.mp3" "/lib/b.mp3" false false
                          _ _)) ["dl"; "a.mp3"] (File 0) _ _).
  - apply surjective_pairing.
  - vm_compute. reflexivity.
  - by left.
Defined.

(** X13.  When the source is not a file (it is missing, or a directory) and
    is not the destination itself, smart_copy raises, with or without hard
    links; what it leaves behind is the file system with the directories of
    the destination created: no file is added, removed or written. *)
Theorem smart_copy_source_not_a_file (fs : FS) (src dst : string) (hl del : bool) :
  abspath (cwd fs) src <> abspath (cwd fs) dst ->
  (forall i, stat fs src <> Some (File i)) ->
  let out := smart_copy fs src dst hl del in
  out.2 <> None /\
  out.1 = (os_makedirs fs (dirname dst)).1 /\
  data out.1 = data fs /\
  (forall k i, tree out.1 !! k = Some (File i) <-> tree fs !! k = Some (File i)).
Proof.
  intros Hne Hsrc. cbv zeta. unfold smart_copy.
  destruct (abspath_eqb _ _) eqn:Heq; [by apply abspath_eqb_eq in Heq|].
  destruct (os_makedirs fs (dirname dst)) as [fs1 e1] eqn:Hm.
  pose proof (os_makedirs_facts _ _ _ _ Hm) as (Hc & Hd & Hmono & Hback).
  assert (forall k i, tree fs1 !! k = Some (File i) <-> tree fs !! k = Some (File i)) as Hfiles.
  { intros k i. split; [apply Hback | apply Hmono]. }
  destruct e1 as [e1|]; cbn [fst snd]; [done|].
  assert (forall i, stat fs1 src <> Some (File i)) as Hsrc1.
  { intros i Hs. apply stat_File in Hs as (Hp & Hr & Ht). rewrite Hc in Hr, Ht.
    apply Hback in Ht. apply (Hsrc i). by rewrite stat_tree. }
  assert (copy_then_remove fs1 src dst del = (fs1, (copy_then_remove fs1 src dst del).2) /\
          (copy_then_remove fs1 src dst del).2 <> None) as [Hct Hcte].
  { unfold copy_then_remove, shutil_copy2.
    destruct (stat fs1 src) as [[|i]|]; [done| |done]. by destruct (Hsrc1 i). }
  assert (os_link fs1 src dst = (fs1, (os_link fs1 src dst).2) /\
          (os_link fs1 src dst).2 <> None) as [Hl Hle].
  { unfold os_link. destruct (stat fs1 src) as [[|i]|]; [done| |done]. by destruct (Hsrc1 i). }
  destruct hl.
  - rewrite Hl. destruct ((os_link fs1 src dst).2); [|done].
    rewrite Hct. by cbn [fst snd].
  - rewrite Hct. by cbn [fst snd].
Qed.

Lemma smart_copy_source_not_a_file_witness :
  (smart_copy sample_fs "/dl/missing.mp3" "/lib/X/b.mp3" true true).2 <> None /\
  isdir (smart_copy sample_fs "/dl/missing.mp3" "/lib/X/b.mp3" true true).1 "/lib/X" = true.
Proof.
  split.
  - refine (proj1 (smart_copy_source_not_a_file sample_fs "/dl/missing.mp3"
                     "/lib/X/b.mp3" true true _ _)).
    + vm_compute. discriminate.
    + intros i. vm_compute. discriminate.
  - vm_compute. reflexivity.
Defined.


(** ** process_completed_download: the single-book branch *)

Lemma write_back_write_back (r1 r2 : AudiobookRequest) (rows : list AudiobookRequest) :
  asin r1 = asin r2 -> write_back r2 (write_back r1 rows) = write_back r2 rows.
Proof.
  intros Heq. induction rows as [|r rows IH]; [done|]. cbn [write_back]. rewrite Heq.
  destruct (String.eqb_spec (asin r) (asin r2)) as [Hr|Hr]; cbn [write_back].
  - by rewrite Heq, String.eqb_refl.
  - destruct (String.eqb_spec (asin r) (asin r2)); [done|]. by rewrite IH.
Qed.

Lemma row_written_commit (a : string) (rows : list AudiobookRequest) (run : Run)
    (req : AudiobookRequest) :
  asin req = a -> row_written a rows run -> row_written a rows (commit_run run req).
Proof.
  intros Ha [Hr Hrows]. split; [done|].
  cbn [commit_run run_session run_request commit_request requests set_requests].
  rewrite Hrows. apply write_back_write_back. congruence.
Qed.

Lemma enrich_from_mam_facts (P : ProcessorEnv) (s : Session) (book : Audiobook)
    (req : AudiobookRequest) :
  let out := enrich_from_mam P s book req in
  requests out.1.1 = requests s /\ request_logs out.1.1 = request_logs s /\
  same_other_tables s out.1.1 /\
  book_asin out.1.2 = book_asin book /\ downloaded out.1.2 = downloaded book /\
  cover_image out.1.2 = cover_image book /\
  (audiobooks out.1.1 = audiobooks s \/
   audiobooks out.1.1 = <[book_asin book := out.1.2]> (audiobooks s)).
Proof.
  cbv zeta. unfold enrich_from_mam, same_other_tables.
  destruct (mam_id req) as [id|]; [|by auto 10].
  destruct (String.eqb id ""); [by auto 10|].
  destruct (fetch_mam_book_details P s id) as [raw|]; [|by auto 10].
  destruct (match series_index book with Some i => String.eqb i "" | None => true end);
    [|by auto 10].
  destruct (_normalize_series P raw) as [mam_series mam_index].
  set (b1 := match mam_index with
             | Some i => if String.eqb i "" then book else set_series_index book (Some i)
             | None => book
             end).
  assert (book_asin b1 = book_asin book /\ downloaded b1 = downloaded book /\
          cover_image b1 = cover_image book) as (H1 & H2 & H3).
  { subst b1. destruct mam_index as [i|]; [destruct (String.eqb i "")|]; done. }
  set (b2 := match series b1, mam_series with
             | [], _ :: _ => set_series b1 mam_series
             | _, _ => b1
             end).
  assert (book_asin b2 = book_asin book /\ downloaded b2 = downloaded book /\
          cover_image b2 = cover_image book) as (H4 & H5 & H6).
  { subst b2. destruct (series b1), mam_series; done. }
  cbn [fst snd commit_book requests request_logs users settings import_sessions
         audiobooks set_audiobooks].
  rewrite H4. by auto 10.
Qed.

Lemma copy_and_rename_session (P : ProcessorEnv) (book : Audiobook)
    (pattern dest_path : string) (hl del : bool) (total : nat)
    (todo : list (nat * string)) (a : string) (rows : list AudiobookRequest) (run : Run) :
  row_written a rows run ->
  let run' := copy_and_rename P book pattern dest_path hl del total todo run in
  row_written a rows run' /\
  audiobooks (run_session run') = audiobooks (run_session run) /\
  request_logs (run_session run') = request_logs (run_session run) /\
  same_other_tables (run_session run) (run_session run') /\
  processing_status (run_request run') = processing_status (run_request run) /\
  user_username (run_request run') = user_username (run_request run) /\
  (run_raised run = None -> todo = [] -> run' = run).
Proof.
  revert run. induction todo as [|[idx s_path] todo IH]; intros run Hw; cbv zeta.
  - cbn [copy_and_rename]. destruct Hw. by repeat split.
  - cbn [copy_and_rename].
    destruct (smart_copy (run_fs run) s_path _ hl del) as [fs [e|]].
    + cbn [raising with_fs run_session run_request]. destruct Hw. by repeat split.
    + set (req := set_download_progress (run_request run) (copy_progress idx total)).
      assert (row_written a rows (commit_run (with_fs run fs) req)) as Hw'.
      { apply row_written_commit; [apply Hw|]. destruct Hw as [Ha Hr]. by split. }
      destruct (IH _ Hw') as (H1 & H2 & H3 & (H4 & H5 & H6) & H7 & H8 & _).
      split; [done|]. unfold same_other_tables.
      rewrite H2, H3, H4, H5, H6, H7, H8. by repeat split.
Qed.

Lemma copy_and_rename_fs (P : ProcessorEnv) (book : Audiobook)
    (pattern dest_path : string) (hl : bool) (total : nat)
    (todo : list (nat * string)) (run : Run) :
  entries_kept None (run_fs run)
    (run_fs (copy_and_rename P book pattern dest_path hl false total todo run)).
Proof.
  revert run. induction todo as [|[idx s_path] todo IH]; intros run.
  - apply entries_kept_refl.
  - cbn [copy_and_rename].
    destruct (smart_copy (run_fs run) s_path _ hl false) as [fs e] eqn:Hs.
    apply smart_copy_kept in Hs as [Hk _]. destruct e as [e|]; [done|].
    eapply entries_kept_trans; [exact Hk|]. apply (IH (commit_run (with_fs run fs) _)).
Qed.

Lemma save_cover_session (P : ProcessorEnv) (book : Audiobook)
    (dest_path url : string) (a : string) (rows : list AudiobookRequest) (run : Run) :
  row_written a rows run ->
  let run' := save_cover P book dest_path url run in
  row_written a rows run' /\
  audiobooks (run_session run') = audiobooks (run_session run) /\
  same_other_tables (run_session run) (run_session run') /\
  user_username (run_request run') = user_username (run_request run) /\
  entries_kept None (run_fs run) (run_fs run').
Proof.
  intros [Ha Hr]. cbv zeta. unfold save_cover.
  set (run1 := commit_run _ _).
  assert (row_written a rows run1) as Hw1.
  { subst run1. apply row_written_commit; [done|]. by split. }
  assert (entries_kept None (run_fs run) (run_fs run1)) as Hfs by apply entries_kept_refl.
  destruct Hw1 as [Ha1 Hr1].
  destruct (http_get P url) as [[code bytes]|]; [|by repeat split].
  destruct (code =? 200)%nat; [|by repeat split].
  split; [by split|]. do 3 (split; [by repeat split|]).
  change (entries_kept None (run_fs run1) (write_file (run_fs run1)
            (path_join dest_path
               ("cover" +:+
                (if String.eqb (splitext_ext (hd "" (split_on "?" url))) "" then ".jpg"
                 else splitext_ext (hd "" (split_on "?" url))))) bytes).1).
  eapply write_file_kept. apply surjective_pairing.
Qed.

Lemma finish_single_book_session (P : ProcessorEnv) (book : Audiobook)
    (dest_path : string) (mam : option string) (a : string)
    (rows : list AudiobookRequest) (run : Run) :
  row_written a rows run ->
  let run' := finish_single_book P book dest_path mam run in
  row_written a rows run' /\
  processing_status (run_request run') = "completed" /\
  download_progress (run_request run') = 1%Q /\
  user_username (run_request run') = user_username (run_request run) /\
  audiobooks (run_session run') =
    <[book_asin book := set_downloaded book true]> (audiobooks (run_session run)) /\
  same_other_tables (run_session run) (run_session run') /\
  last (request_logs (run_session run')) =
    Some (mkRequestLogEvent a (user_username (run_request run)) "Import completed." info) /\
  (generators_keep_entries P -> entries_kept None (run_fs run) (run_fs run')).
Proof.
  intros [Ha Hr]. cbv zeta. unfold finish_single_book.
  set (book' := set_downloaded book true).
  set (run1 := with_fs (with_fs (commit_run _ _) _) _).
  assert (row_written a rows run1 /\
          audiobooks (run_session run1) =
            <[book_asin book := book']> (audiobooks (run_session run)) /\
          same_other_tables (run_session run) (run_session run1) /\
          user_username (run_request run1) = user_username (run_request run) /\
          asin (run_request run1) = asin (run_request run) /\
          (generators_keep_entries P -> entries_kept None (run_fs run) (run_fs run1)))
    as (Hw1 & Hc1 & Ho1 & Hu1 & Ha1 & Hf1).
  { subst run1. split; [|split; [|split; [|split; [|split]]]]; try done.
    - split; [done|]. cbn. by rewrite Hr, write_back_write_back.
    - intros [Habs Hopf]. cbn [run_fs with_fs commit_run with_session].
      eapply entries_kept_trans; [apply Habs | apply Hopf]. }
  clearbody run1.
  set (run2 := match cover_image book' with
               | Some url => if String.eqb url "" then run1
                             else save_cover P book' dest_path url run1
               | None => run1
               end).
  assert (row_written a rows run2 /\
          audiobooks (run_session run2) = audiobooks (run_session run1) /\
          same_other_tables (run_session run1) (run_session run2) /\
          user_username (run_request run2) = user_username (run_request run1) /\
          entries_kept None (run_fs run1) (run_fs run2))
    as (Hw2 & Hc2 & (Ho2a & Ho2b & Ho2c) & Hu2 & Hf2).
  { subst run2. destruct (cover_image book') as [url|];
      [destruct (String.eqb url "")|]; try (repeat split; try apply Hw1; done).
    by apply save_cover_session. }
  clearbody run2. destruct Ho1 as (Ho1a & Ho1b & Ho1c). destruct Hw2 as [Ha2 Hr2].
  split; [|split; [done|split; [done|split; [|split; [|split; [|split]]]]]].
  - split; [done|]. cbn. by rewrite Hr2, write_back_write_back.
  - cbn. congruence.
  - cbn. congruence.
  - unfold same_other_tables. cbn. repeat split; congruence.
  - cbn [run_session commit_run with_session commit_request set_requests request_logs
           log_request_event set_request_logs].
    rewrite last_snoc. do 2 f_equal; congruence.
  - intros HP. cbn [run_fs commit_run with_session].
    eapply entries_kept_trans; [by apply Hf1 | done].
Qed.


Lemma process_single_book_facts (P : ProcessorEnv) (session : Session) (fs : FS)
    (book_request : AudiobookRequest) (download_path : string) (delete_source : bool)
    (collection_label : option string) (book : Audiobook) (lib : string) :
  audiobooks session !! asin book_request = Some book ->
  get_library_path session = Some lib ->
  let a := asin book_request in
  let u := user_username book_request in
  let run := process_completed_download P session fs book_request download_path
               delete_source false collection_label in
  let made := os_makedirs fs (path_join lib (folder_rel_path P session book)) in
  match made.2 with
  | Some e => run = raising (with_fs (mkRun session fs book_request [] [] None) made.1) e
  | None =>
      row_written a (requests session) run /\
      same_other_tables session (run_session run) /\
      user_username (run_request run) = u /\
      (book_asin book = a ->
       forall k, k <> a -> audiobooks (run_session run) !! k = audiobooks session !! k) /\
      (book_asin book = a ->
       exists b, audiobooks (run_session run) !! a = Some b /\
                 downloaded b = match run_raised run with
                                | Some _ => downloaded book
                                | None => true
                                end) /\
      match run_raised run with
      | Some _ =>
          processing_status (run_request run) = "organizing_files" /\
          last (request_logs (run_session run)) =
            Some (mkRequestLogEvent a u "Organizing and renaming files." info)
      | None =>
          processing_status (run_request run) = "completed" /\
          download_progress (run_request run) = 1%Q /\
          last (request_logs (run_session run)) =
            Some (mkRequestLogEvent a u "Import completed." info)
      end /\
      (audio_files_to_process P made.1 download_path = [] -> run_raised run = None) /\
      (delete_source = false -> qbit_complete_action (settings session) <> "move" ->
       generators_keep_entries P -> entries_kept None fs (run_fs run))
  end.
Proof.
  intros Hb Hl. cbv zeta. unfold process_completed_download. rewrite Hb, Hl.
  destruct (os_makedirs fs _) as [fs1 [e|]] eqn:Hm; cbn [fst snd]; [done|].
  set (req := set_processing_status book_request "organizing_files").
  set (run0 := commit_run _ req).
  assert (row_written (asin book_request) (requests session) run0) as Hw0 by (by split).
  pose proof (enrich_from_mam_facts P (run_session run0) book req) as Hen.
  cbv zeta in Hen.
  destruct (enrich_from_mam P (run_session run0) book req) as [[s' b'] mam].
  cbn [fst snd] in Hen.
  destruct Hen as (Hreq' & Hlog' & (Hu' & Hs' & Hi') & Hasin' & Hdl' & _ & Hcat').
  set (run1 := with_session run0 s').
  assert (row_written (asin book_request) (requests session) run1) as Hw1.
  { destruct Hw0 as [Ha0 Hr0]. split; [done|]. cbn [run1 with_session run_session run_request].
    by rewrite Hreq'. }
  match goal with
  | |- context [copy_and_rename P b' ?pat ?dest ?hl ?del ?N ?todo run1] =>
      pose proof (copy_and_rename_session P b' pat dest hl del N todo _ _ run1 Hw1) as Hloop;
      pose proof (copy_and_rename_fs P b' pat dest hl N todo run1) as Hfs;
      set (del_eff := del) in *;
      set (looped := copy_and_rename P b' pat dest hl del_eff N todo run1) in *
  end.
  cbv zeta in Hloop.
  destruct Hloop as (Hw2 & Hc2 & Hlog2 & (Hu2 & Hs2 & Hi2) & Hst2 & Hun2 & Hnil).
  assert (book_asin book = asin book_request ->
          forall k, k <> asin book_request ->
            audiobooks s' !! k = audiobooks session !! k) as Hother.
  { intros Hkey k Hk. destruct Hcat' as [->| ->]; [done|].
    rewrite lookup_insert_ne; [done|]. congruence. }
  assert (book_asin book = asin book_request ->
          exists b, audiobooks s' !! asin book_request = Some b /\
                    downloaded b = downloaded book) as Hrec.
  { intros Hkey. destruct Hcat' as [->| ->].
    - by exists book.
    - exists b'. by rewrite Hkey, lookup_insert_eq. }
  assert (run_raised run1 = None) as Hr1 by done.
  assert (entries_kept None fs fs1) as Hk1.
  { apply os_makedirs_facts in Hm as (Hc & _ & Hmono & _). split; [done|].
    intros k n Hk _. by apply Hmono. }
  destruct (run_raised looped) as [e|] eqn:Hraised.
  - rewrite Hraised.
    split; [done|]. split; [unfold same_other_tables; by rewrite Hu2, Hs2, Hi2|].
    split; [by rewrite Hun2|].
    split; [intros Hkey k Hk; rewrite Hc2; exact (Hother Hkey k Hk)|].
    split; [intros Hkey; rewrite Hc2; destruct (Hrec Hkey) as (b & Hb1 & Hb2); exists b;
            split; [exact Hb1 | exact Hb2]|].
    split; [split; [by rewrite Hst2|]|split].
    + rewrite Hlog2. cbn [run1 with_session run_session]. rewrite Hlog'.
      cbn [run0 run_session commit_run with_session commit_request set_requests
             request_logs log_request_event set_request_logs with_log with_fs].
      by rewrite last_snoc.
    + intros Hnone. exfalso.
      assert (looped = run1) as Heq.
      { apply Hnil; [done|]. by rewrite Hnone. }
      rewrite Heq in Hraised. by rewrite Hr1 in Hraised.
    + intros -> Hmove HP. subst del_eff.
      destruct (String.eqb_spec (qbit_complete_action (settings session)) "move");
        [done|]. cbn [orb] in Hfs. eapply entries_kept_trans; [exact Hk1|]. apply Hfs.
  - cbv iota.
    match goal with
    | |- context [finish_single_book P b' ?dest mam looped] =>
        pose proof (finish_single_book_session P b' dest mam _ _ looped Hw2) as Hfin;
        cbv zeta in Hfin;
        set (final := finish_single_book P b' dest mam looped) in *
    end.
    destruct Hfin as (Hw3 & Hst3 & Hp3 & Hun3 & Hc3 & (Hu3 & Hs3 & Hi3) & Hlog3 & Hfs3).
    assert (run_raised final = None) as Hrf.
    { subst final. by rewrite (proj2 (finish_single_book_commits P b' _ mam looped)). }
    clearbody final.
    rewrite Hrf.
    split; [done|]. split; [unfold same_other_tables; by rewrite Hu3, Hs3, Hi3, Hu2, Hs2, Hi2|].
    split; [by rewrite Hun3, Hun2|].
    split; [intros Hkey k Hk; rewrite Hc3, lookup_insert_ne, Hc2 by congruence;
            exact (Hother Hkey k Hk)|].
    split; [intros Hkey; exists (set_downloaded b' true);
            by rewrite Hc3, Hasin', Hkey, lookup_insert_eq|].
    split; [split; [done|split; [done|]]|split; [done|]].
    + by rewrite Hlog3, Hun2.
    + intros -> Hmove HP. subst del_eff.
      destruct (String.eqb_spec (qbit_complete_action (settings session)) "move");
        [done|]. cbn [orb] in Hfs.
      eapply entries_kept_trans; [exact Hk1|].
      eapply entries_kept_trans; [apply Hfs | by apply Hfs3].
Qed.


Lemma audio_files_to_process_none (P : ProcessorEnv) (fs : FS) (download_path : string) :
  Forall (fun p => exists_ fs p = false) (split_on "|" download_path) ->
  audio_files_to_process P fs download_path = [].
Proof.
  intros Hall. unfold audio_files_to_process.
  assert (List.filter (fun p => exists_ fs p && negb (isdir fs p))
            (split_on "|" download_path) = []) as Hnone.
  { induction Hall as [|p l Hp _ IH]; [done|]. cbn [List.filter]. by rewrite Hp. }
  destruct (split_on "|" download_path) as [|top [|second rest]]; try done.
  apply Forall_inv in Hall. unfold isdir. unfold exists_ in Hall.
  destruct (stat fs top); [done|]. exact Hnone.
Qed.

(** X14.  A single-book run of process_completed_download that returns
    (book in the catalog under its asin, library path set) leaves the
    request completed with progress 1.0 and written back to its row, the
    catalog record of the asin marked downloaded, and "Import completed." as
    the last event of the audit trail. *)
Theorem process_completed_download_completes (P : ProcessorEnv) (session : Session)
    (fs : FS) (book_request : AudiobookRequest) (download_path : string)
    (delete_source : bool) (collection_label : option string) (book : Audiobook) :
  audiobooks session !! asin book_request = Some book ->
  book_asin book = asin book_request ->
  is_Some (get_library_path session) ->
  let run := process_completed_download P session fs book_request download_path
               delete_source false collection_label in
  run_raised run = None ->
  processing_status (run_request run) = "completed" /\
  download_progress (run_request run) = 1%Q /\
  requests (run_session run) = write_back (run_request run) (requests session) /\
  (is_Some (_get_request session (asin book_request)) ->
   _get_request (run_session run) (asin book_request) = Some (run_request run)) /\
  (exists b, audiobooks (run_session run) !! asin book_request = Some b /\
             downloaded b = true) /\
  last (request_logs (run_session run)) =
    Some (mkRequestLogEvent (asin book_request) (user_username book_request)
            "Import completed." info).
Proof.
  intros Hb Hkey [lib Hl]. cbv zeta. intros Hraised.
  pose proof (process_single_book_facts P session fs book_request download_path
                delete_source collection_label book lib Hb Hl) as H.
  cbv zeta in H.
  destruct (os_makedirs fs _).2 as [e|].
  { rewrite H in Hraised. discriminate. }
  rewrite Hraised in H.
  destruct H as ([Ha Hrows] & _ & _ & _ & Hrec & (Hst & Hp & Hlog) & _).
  repeat split; try done.
  - intros [r Hr]. unfold _get_request in *. rewrite Hrows.
    by apply (find_write_back _ _ _ r).
  - by apply Hrec.
Qed.

Lemma process_completed_download_completes_witness :
  processing_status
    (run_request (process_completed_download idle_processor single_book_session sample_fs
                    collection_request "/dl" false false None)) = "completed".
Proof.
  refine (proj1 (process_completed_download_completes idle_processor single_book_session
                   sample_fs collection_request "/dl" false None
                   (sample_book "B001" false) _ _ _ _)).
  - reflexivity.
  - reflexivity.
  - by eexists.
  - vm_compute. reflexivity.
Defined.

(** X15.  A single-book run in which creating the destination folder or
    copying a file raises (the metadata writers are taken not to raise)
    never reports the failure in the database: either creating the
    destination folder failed and nothing was written, or the request is
    left in "organizing_files" with "Organizing and renaming files." as the
    last event of the audit trail.  The catalog record keeps the downloaded
    mark it had. *)
Theorem process_completed_download_raises (P : ProcessorEnv) (session : Session)
    (fs : FS) (book_request : AudiobookRequest) (download_path : string)
    (delete_source : bool) (collection_label : option string) (book : Audiobook)
    (e : exn) :
  audiobooks session !! asin book_request = Some book ->
  book_asin book = asin book_request ->
  let run := process_completed_download P session fs book_request download_path
               delete_source false collection_label in
  run_raised run = Some e ->
  ((run_session run = session /\ run_request run = book_request /\ run_commits run = []) \/
   (processing_status (run_request run) = "organizing_files" /\
    requests (run_session run) = write_back (run_request run) (requests session) /\
    last (request_logs (run_session run)) =
      Some (mkRequestLogEvent (asin book_request) (user_username book_request)
              "Organizing and renaming files." info))) /\
  (exists b, audiobooks (run_session run) !! asin book_request = Some b /\
             downloaded b = downloaded book).
Proof.
  intros Hb Hkey. cbv zeta. intros Hraised.
  destruct (get_library_path session) as [lib|] eqn:Hl.
  2:{ unfold process_completed_download in Hraised. by rewrite Hb, Hl in Hraised. }
  pose proof (process_single_book_facts P session fs book_request download_path
                delete_source collection_label book lib Hb Hl) as H.
  cbv zeta in H.
  destruct (os_makedirs fs _).2 as [e'|].
  { rewrite H. cbn. split; [by left|]. by exists book. }
  rewrite Hraised in H.
  destruct H as ([Ha Hrows] & _ & _ & _ & Hrec & (Hst & Hlog) & _).
  split; [by right|]. by apply Hrec.
Qed.

Lemma process_completed_download_raises_witness :
  processing_status
    (run_request (process_completed_download idle_processor single_book_session
                    blocked_fs collection_request "/dl" false false None))
  = "organizing_files".
Proof.
  destruct (process_completed_download_raises idle_processor single_book_session
              blocked_fs collection_request "/dl" false None
              (sample_book "B001" false) IsADirectoryError) as [[H|H] _].
  - reflexivity.
  - reflexivity.
  - vm_compute. reflexivity.
  - exfalso. destruct H as (_ & _ & H). vm_compute in H. discriminate.
  - exact (proj1 H).
Defined.

(** X16.  A single-book call of process_completed_download touches only the
    request row and the catalog record of its own asin (and the audit
    trail): users, settings and import sessions stay as they are, no request
    row is added or removed, and the rows and catalog records of other asins
    are read as before. *)
Theorem process_completed_download_isolation (P : ProcessorEnv) (session : Session)
    (fs : FS) (book_request : AudiobookRequest) (download_path : string)
    (delete_source : bool) (collection_label : option string) :
  catalog_keyed session ->
  let run := process_completed_download P session fs book_request download_path
               delete_source false collection_label in
  same_other_tables session (run_session run) /\
  map asin (requests (run_session run)) = map asin (requests session) /\
  (forall b, b <> asin book_request ->
             _get_request (run_session run) b = _get_request session b) /\
  (forall k, k <> asin book_request ->
             audiobooks (run_session run) !! k = audiobooks session !! k).
Proof.
  intros Hkeyed. cbv zeta.
  destruct (audiobooks session !! asin book_request) as [book|] eqn:Hb.
  2:{ unfold process_completed_download. by rewrite Hb. }
  destruct (get_library_path session) as [lib|] eqn:Hl.
  2:{ unfold process_completed_download. by rewrite Hb, Hl. }
  pose proof (process_single_book_facts P session fs book_request download_path
                delete_source collection_label book lib Hb Hl) as H.
  cbv zeta in H.
  destruct (os_makedirs fs _).2 as [e'|]; [by rewrite H|].
  destruct H as ([Ha Hrows] & Hsame & _ & Hother & _).
  split; [done|]. split; [by rewrite Hrows, write_back_asins|].
  split; [|by apply Hother, Hkeyed].
  intros b Hne. unfold _get_request. rewrite Hrows. apply find_write_back_other.
  congruence.
Qed.

Lemma process_completed_download_isolation_witness :
  users (run_session (process_completed_download idle_processor single_book_session
                        sample_fs collection_request "/dl" false false None)) = ∅.
Proof.
  refine (proj1 (proj1 (process_completed_download_isolation idle_processor
                          single_book_session sample_fs collection_request "/dl" false
                          None _))).
  intros a b Hb. unfold single_book_session in Hb. cbn [audiobooks] in Hb.
  apply lookup_singleton_Some in Hb as [<- <-]. reflexivity.
Defined.

(** X17.  Unless the files are to be moved (delete_source, or the complete
    action "move"), a single-book call of process_completed_download removes
    and re-points nothing: every file and directory that was there is still
    there, a file under the inode it had, provided the metadata writers
    remove nothing either. *)
Theorem process_completed_download_copy_keeps_files (P : ProcessorEnv)
    (session : Session) (fs : FS) (book_request : AudiobookRequest)
    (download_path : string) (collection_label : option string) :
  generators_keep_entries P ->
  qbit_complete_action (settings session) <> "move" ->
  let run := process_completed_download P session fs book_request download_path
               false false collection_label in
  cwd (run_fs run) = cwd fs /\
  forall k n, tree fs !! k = Some n -> tree (run_fs run) !! k = Some n.
Proof.
  intros HP Hmove. cbv zeta.
  assert (entries_kept None fs
            (run_fs (process_completed_download P session fs book_request download_path
                       false false collection_label))) as [Hc Hk].
  { destruct (audiobooks session !! asin book_request) as [book|] eqn:Hb.
    2:{ unfold process_completed_download. rewrite Hb. apply entries_kept_refl. }
    destruct (get_library_path session) as [lib|] eqn:Hl.
    2:{ unfold process_completed_download. rewrite Hb, Hl. apply entries_kept_refl. }
    pose proof (process_single_book_facts P session fs book_request download_path
                  false collection_label book lib Hb Hl) as H.
    cbv zeta in H.
    destruct (os_makedirs fs _) as [fs1 e'] eqn:Hm. cbn [fst snd] in H.
    destruct e' as [e'|].
    - rewrite H. cbn [run_fs raising with_fs].
      apply os_makedirs_facts in Hm as (Hc & _ & Hmono & _). split; [done|].
      intros k n Hk _. by apply Hmono.
    - by apply H. }
  split; [done|]. intros k n Hn. by apply Hk.
Qed.

Lemma process_completed_download_copy_keeps_files_witness :
  tree (run_fs (process_completed_download idle_processor single_book_session sample_fs
                  collection_request "/dl" false false None)) !! ["dl"; "a.mp3"]
  = Some (File 0).
Proof.
  refine (proj2 (process_completed_download_copy_keeps_files idle_processor
                   single_book_session sample_fs collection_request "/dl" None _ _)
            ["dl"; "a.mp3"] (File 0) _).
  - split; intros; apply entries_kept_refl.
  - discriminate.
  - vm_compute. reflexivity.
Defined.

Lemma finish_single_book_fs (P : ProcessorEnv) (book : Audiobook)
    (dest_path : string) (mam : option string) (run : Run) :
  exists session',
    let fs2 :=
      generate_opf_metadata P session' (set_downloaded book true) dest_path mam
        (generate_abs_metadata P (set_downloaded book true) dest_path mam (run_fs run)) in
    run_fs (finish_single_book P book dest_path mam run) =
      match cover_image book with
      | Some url =>
          if String.eqb url "" then fs2
          else match http_get P url with
               | Some (status_code, bytes) =>
                   if (status_code =? 200)%nat then
                     let ext := splitext_ext (hd "" (split_on "?" url)) in
                     (write_file fs2
                        (path_join dest_path
                           ("cover" +:+ (if String.eqb ext "" then ".jpg" else ext)))
                        bytes).1
                   else fs2
               | None => fs2
               end
      | None => fs2
      end.
Proof.
  unfold finish_single_book. cbn [cover_image set_downloaded].
  eexists. cbv zeta.
  destruct (cover_image book) as [url|]; [destruct (String.eqb url "")|];
    [reflexivity| |reflexivity].
  unfold save_cover. destruct (http_get P url) as [[code bytes]|]; [|reflexivity].
  destruct (code =? 200)%nat; reflexivity.
Qed.

Lemma enrich_from_mam_cover_image (P : ProcessorEnv) (session : Session) (book : Audiobook)
    (req : AudiobookRequest) :
  cover_image (enrich_from_mam P session book req).1.2 = cover_image book.
Proof.
  unfold enrich_from_mam.
  destruct (mam_id req) as [id|]; [|done].
  destruct (String.eqb id ""); [done|].
  destruct (fetch_mam_book_details P session id) as [raw|]; [|done].
  destruct (match series_index book with Some i => String.eqb i "" | None => true end);
    [|done].
  destruct (_normalize_series P raw) as [mam_series mam_index]. cbn [fst snd].
  destruct mam_index as [i|]; [destruct (String.eqb i "")|];
    by destruct (series _), mam_series.
Qed.

(** X18.  When none of the download paths exists, a single-book call of
    process_completed_download copies nothing and still returns normally
    (the metadata writers are taken not to raise), marks the book downloaded
    and completes the request: the list handed to the copy loop is empty,
    no progress value of the copy loop is committed, and the file system
    left behind is the one in which the destination folder was made, passed
    through the two metadata writers and then, only when the book has a
    cover address that answers 200, one write of the cover file. *)
Theorem process_completed_download_nothing_to_copy (P : ProcessorEnv)
    (session : Session) (fs : FS) (book_request : AudiobookRequest)
    (download_path : string) (delete_source : bool) (collection_label : option string)
    (book : Audiobook) (lib : string) :
  audiobooks session !! asin book_request = Some book ->
  book_asin book = asin book_request ->
  get_library_path session = Some lib ->
  let dest_path := path_join lib (folder_rel_path P session book) in
  let made := os_makedirs fs dest_path in
  made.2 = None ->
  Forall (fun p => exists_ made.1 p = false) (split_on "|" download_path) ->
  let run := process_completed_download P session fs book_request download_path
               delete_source false collection_label in
  run_raised run = None /\
  processing_status (run_request run) = "completed" /\
  download_progress (run_request run) = 1%Q /\
  (exists b, audiobooks (run_session run) !! asin book_request = Some b /\
             downloaded b = true) /\
  audio_files_to_process P made.1 download_path = [] /\
  map download_progress (run_commits run) =
    download_progress book_request ::
    [(95 # 100)%Q] ++ (if has_cover book then [(98 # 100)%Q] else []) ++ [1%Q] /\
  exists session0 session1,
    let e := enrich_from_mam P session0 book
               (set_processing_status book_request "organizing_files") in
    let book' := set_downloaded e.1.2 true in
    let fs2 :=
      generate_opf_metadata P session1 book' dest_path e.2
        (generate_abs_metadata P book' dest_path e.2 made.1) in
    run_fs run =
      match cover_image book with
      | Some url =>
          if String.eqb url "" then fs2
          else match http_get P url with
               | Some (status_code, bytes) =>
                   if (status_code =? 200)%nat then
                     let ext := splitext_ext (hd "" (split_on "?" url)) in
                     (write_file fs2
                        (path_join dest_path
                           ("cover" +:+ (if String.eqb ext "" then ".jpg" else ext)))
                        bytes).1
                   else fs2
               | None => fs2
               end
      | None => fs2
      end.
Proof.
  intros Hb Hkey Hl. cbv zeta. intros Hmade Hnone.
  pose proof (audio_files_to_process_none P _ _ Hnone) as Haudio.
  pose proof (process_single_book_facts P session fs book_request download_path
                delete_source collection_label book lib Hb Hl) as H.
  cbv zeta in H. rewrite Hmade in H.
  destruct H as (_ & _ & _ & _ & Hrec & Hst & Hempty & _).
  specialize (Hempty Haudio).
  rewrite Hempty in Hst, Hrec. destruct Hst as (Hst & Hp & _).
  split; [done|]. split; [done|]. split; [done|]. split; [by apply Hrec|].
  split; [done|]. clear Hrec Hst Hp Hempty.
  unfold process_completed_download. rewrite Hb, Hl.
  destruct (os_makedirs fs _) as [fs1 e1]. cbn [fst snd] in *. subst e1.
  rewrite Haudio.
  set (session0 :=
         run_session (commit_run
           (with_session
              (with_log (with_fs (mkRun session fs book_request [] [] None) fs1)
                 "Processor: Organizing and renaming files")
              (log_request_event session (asin book_request)
                 (user_username book_request) "Organizing and renaming files."
                 info))
           (set_processing_status book_request "organizing_files"))).
  pose proof (enrich_from_mam_cover P session0 book
                (set_processing_status book_request "organizing_files")) as Hcover.
  pose proof (enrich_from_mam_cover_image P session0 book
                (set_processing_status book_request "organizing_files")) as Himage.
  assert (exists e, e = enrich_from_mam P session0 book
                          (set_processing_status book_request "organizing_files"))
    as [e He] by by eexists.
  rewrite <- He in Hcover, Himage.
  rewrite <- He.
  destruct e as [[session' book'] mam]. cbn [fst snd] in Hcover, Himage.
  cbn [length enumerate1 seq combine copy_and_rename run_raised with_session commit_run].
  match goal with
  | |- context [finish_single_book P book' ?dest mam ?r0] =>
      destruct (finish_single_book_commits P book' dest mam r0) as [Hc _];
      destruct (finish_single_book_fs P book' dest mam r0) as [s2 Hfs];
      set (final := finish_single_book P book' dest mam r0) in *
  end.
  cbn [run_raised with_log with_fs].
  split.
  - rewrite Hc, Hcover. reflexivity.
  - exists session0, s2. rewrite <- He. cbn [fst snd].
    cbv zeta in Hfs. rewrite Himage in Hfs. exact Hfs.
Qed.

Lemma process_completed_download_nothing_to_copy_witness :
  processing_status
    (run_request (process_completed_download idle_processor single_book_session sample_fs
                    collection_request "/gone" false false None)) = "completed" /\
  run_fs (process_completed_download idle_processor single_book_session sample_fs
            collection_request "/gone" false false None) =
    (os_makedirs sample_fs "/lib/X/Y (2020)").1.
Proof.
  split; [|vm_compute; reflexivity].
  refine (proj1 (proj2 (process_completed_download_nothing_to_copy idle_processor
                          single_book_session sample_fs collection_request "/gone" false
                          None (sample_book "B001" false) "/lib" _ _ _ _ _))).
  - reflexivity.
  - reflexivity.
  - reflexivity.
  - vm_compute. reflexivity.
  - vm_compute. repeat constructor.
Defined.


(** ** Enrichment from the alternate metadata source *)

(** X19.  The enrichment step of process_completed_download (processor.py
    192-230) writes nothing unless the request carries a metadata key, the
    lookup gives a result and the catalog record has no series index: with
    no key, an empty key, a lookup that gives no result, or a record that
    has an index, the session and the record are returned as they came.
    When it writes, only the series index and the series of the record
    change: the index becomes the one found (if one was found), the series
    is filled in only when the record had none and one was found, and that
    record is the one committed.  The result handed to the metadata writers
    is the lookup's result, and none without a key. *)
Theorem enrich_from_mam_never_overwrites (P : ProcessorEnv) (session : Session)
    (book : Audiobook) (book_request : AudiobookRequest) :
  let out := enrich_from_mam P session book book_request in
  let book' := out.1.2 in
  ((mam_id book_request = None \/ mam_id book_request = Some "" \/
    (exists id, mam_id book_request = Some id /\
                fetch_mam_book_details P session id = None) \/
    (exists i, series_index book = Some i /\ i <> "")) ->
   out.1.1 = session /\ book' = book) /\
  ((mam_id book_request = None \/ mam_id book_request = Some "") -> out.2 = None) /\
  (forall id, mam_id book_request = Some id -> id <> "" ->
     out.2 = fetch_mam_book_details P session id) /\
  (forall id raw,
     mam_id book_request = Some id -> id <> "" ->
     fetch_mam_book_details P session id = Some raw ->
     series_index book = None \/ series_index book = Some "" ->
     let found := _normalize_series P raw in
     series_index book' =
       match found.2 with
       | Some i => if String.eqb i "" then series_index book else Some i
       | None => series_index book
       end /\
     series book' =
       match series book, found.1 with
       | [], _ :: _ => found.1
       | _, _ => series book
       end /\
     out.1.1 = commit_book session book') /\
  (series book <> [] -> series book' = series book) /\
  (series_index book' = series_index book \/
   exists raw i, out.2 = Some raw /\ (_normalize_series P raw).2 = Some i /\ i <> "" /\
                 series_index book' = Some i) /\
  book_asin book' = book_asin book /\ title book' = title book /\
  subtitle book' = subtitle book /\ authors book' = authors book /\
  release_year book' = release_year book /\ cover_image book' = cover_image book /\
  downloaded book' = downloaded book /\
  (out.1.1 = session \/ out.1.1 = commit_book session book').
Proof.
  cbv zeta. unfold enrich_from_mam.
  destruct (mam_id book_request) as [id|].
  2:{ cbn [fst snd]. split; [done|]. split; [done|]. split; [done|]. split; [done|].
      by auto 15. }
  destruct (String.eqb_spec id "") as [->|Hid].
  { cbn [fst snd]. split; [done|]. split; [done|].
    split; [by intros ? [= <-] ?|]. split; [by intros ? ? [= <-] ?|]. by auto 15. }
  destruct (fetch_mam_book_details P session id) as [raw|] eqn:Hfetch.
  2:{ cbn [fst snd]. split; [done|]. split; [by intros [|[= ->]]|].
      split; [by intros ? [= <-] _|]. split; [intros ? ? [= <-] _; congruence|].
      by auto 15. }
  assert (forall (b : Audiobook) (T : Prop),
            ((Some id = None \/ Some id = Some "" \/
              (exists id0, Some id = Some id0 /\
                           fetch_mam_book_details P session id0 = None) \/
              (exists i, series_index book = Some i /\ i <> "")) -> T) <->
            ((exists i, series_index book = Some i /\ i <> "") -> T)) as Hcases.
  { intros b T. split; [by auto|].
    intros HT [|[[= ->]|[(id0 & [= <-] & Hnone)|]]]; try done; [congruence|by auto]. }
  destruct (series_index book) as [i|] eqn:Hidx.
  - destruct (String.eqb_spec i "") as [->|Hi].
    + destruct (_normalize_series P raw) as [mam_series mam_index] eqn:Hn.
      cbn [fst snd]. split.
      { apply (Hcases book). intros (i & [= <-] & Hi). done. }
      split; [by intros [|[= ->]]|].
      split; [by intros ? [= <-] _|].
      split.
      { intros id' raw' [= <-] _ Hf _. rewrite Hfetch in Hf. injection Hf as <-.
        rewrite Hn. cbn [fst snd].
        destruct mam_index as [j|]; [destruct (String.eqb j "")|];
          destruct (series book) eqn:Hs, mam_series; cbn; by rewrite ?Hidx, ?Hs. }
      destruct mam_index as [j|]; [destruct (String.eqb_spec j "") as [->|Hj]|];
        destruct (series book) eqn:Hs, mam_series; cbn; rewrite ?Hidx, ?Hs;
        repeat split; auto; try done; right; exists raw, j; by rewrite Hn.
    + cbn [fst snd]. split; [done|].
      split; [by intros [|[= ->]]|].
      split; [by intros ? [= <-] _|].
      split; [intros ? ? _ _ _ [|[= ->]]; done|].
      by auto 15.
  - destruct (_normalize_series P raw) as [mam_series mam_index] eqn:Hn.
    cbn [fst snd]. split.
    { apply (Hcases book). intros (i & ? & Hi). done. }
    split; [by intros [|[= ->]]|].
    split; [by intros ? [= <-] _|].
    split.
    { intros id' raw' [= <-] _ Hf _. rewrite Hfetch in Hf. injection Hf as <-.
      rewrite Hn. cbn [fst snd].
      destruct mam_index as [j|]; [destruct (String.eqb j "")|];
        destruct (series book) eqn:Hs, mam_series; cbn; by rewrite ?Hidx, ?Hs. }
    destruct mam_index as [j|]; [destruct (String.eqb_spec j "") as [->|Hj]|];
      destruct (series book) eqn:Hs, mam_series; cbn; rewrite ?Hidx, ?Hs;
      repeat split; auto; try done; right; exists raw, j; by rewrite Hn.
Qed.

Lemma enrich_from_mam_never_overwrites_witness :
  series_index (enrich_from_mam mam_processor single_book_session
                  (sample_book "B001" false) mam_request).1.2 = Some "2" /\
  (enrich_from_mam mam_processor single_book_session
     (mkAudiobook "B001" "Y" None ["X"] ["Old"] (Some "7") (Some 2020) None false)
     mam_request).1.2 =
  mkAudiobook "B001" "Y" None ["X"] ["Old"] (Some "7") (Some 2020) None false /\
  enrich_from_mam idle_processor single_book_session (sample_book "B001" false)
    mam_request =
  (single_book_session, sample_book "B001" false, None).
Proof.
  split; [vm_compute; reflexivity|]. split.
  - refine (proj2 (proj1 (enrich_from_mam_never_overwrites mam_processor
                            single_book_session
                            (mkAudiobook "B001" "Y" None ["X"] ["Old"] (Some "7")
                               (Some 2020) None false) mam_request) _)).
    right. right. right. exists "7". split; [reflexivity | discriminate].
  - pose proof (enrich_from_mam_never_overwrites idle_processor single_book_session
                  (sample_book "B001" false) mam_request) as (Hsame & _ & Hres & _).
    cbv zeta in Hsame, Hres.
    destruct (enrich_from_mam idle_processor single_book_session
                (sample_book "B001" false) mam_request) as [[s b] m].
    cbn [fst snd] in Hsame, Hres.
    destruct Hsame as [-> ->].
    { right. right. left. exists "77". split; reflexivity. }
    rewrite (Hres "77" eq_refl ltac:(discriminate)). reflexivity.
Defined.

(** ** reorganize_existing_book *)

Lemma wf_fs_intro (fs : FS) :
  (forall k n, tree fs !! k = Some n ->
     exists name, last k = Some name /\ plain_name name = true /\
                  parent_is_dir fs k = true) ->
  wf_fs fs = true.
Proof.
  intros H. unfold wf_fs. apply forallb_forall. intros [k n] Hin.
  apply list_elem_of_In, elem_of_map_to_list in Hin.
  destruct (H _ _ Hin) as (name & Hl & Hp & Hd). cbn [fst]. by rewrite Hl, Hp, Hd.
Qed.

Lemma only_directories_removed_refl (fs : FS) : only_directories_removed fs fs.
Proof. by repeat split. Qed.

Lemma only_directories_removed_trans (a b c : FS) :
  only_directories_removed a b -> only_directories_removed b c ->
  only_directories_removed a c.
Proof.
  intros (H1 & H2 & H3 & H4) (K1 & K2 & K3 & K4).
  split; [congruence|]. split; [congruence|]. split.
  - intros k n Hk. by apply H3, K3.
  - intros k i Hk. by apply K4, H4.
Qed.

Lemma os_rmdir_only_directories (fs fs' : FS) (p : string) (e : option exn) :
  wf_fs fs = true -> os_rmdir fs p = (fs', e) ->
  only_directories_removed fs fs' /\ wf_fs fs' = true.
Proof.
  intros Hwf. unfold os_rmdir.
  destruct (stat fs p) as [[|i]|] eqn:Hs;
    try (intros [= <- _]; split; [apply only_directories_removed_refl|done]).
  destruct (resolve (cwd fs) p) as [|c d] eqn:Hd;
    [intros [= <- _]; split; [apply only_directories_removed_refl|done]|].
  destruct (entries_of fs (c :: d)) as [|x l] eqn:He;
    [|intros [= <- _]; split; [apply only_directories_removed_refl|done]].
  intros [= <- _].
  assert (tree fs !! (c :: d) = Some Dir) as Hdir.
  { apply stat_Some in Hs as [_ Hs]. by rewrite Hd in Hs. }
  split.
  - split; [done|]. split; [done|]. cbn [tree set_tree]. split.
    + intros k n Hk. apply lookup_delete_Some in Hk. apply Hk.
    + intros k i Hk. rewrite lookup_delete_ne; [done|]. congruence.
  - apply wf_fs_intro. cbn [tree set_tree]. intros k n Hk.
    apply lookup_delete_Some in Hk as [Hne Hk].
    destruct (wf_fs_spec _ _ _ Hwf Hk) as (name & Hl & Hp & Hpar).
    exists name. split; [done|]. split; [done|].
    unfold parent_is_dir in *. destruct k as [|k0 k']; [done|].
    unfold node_at in *. cbn [tree set_tree].
    destruct (removelast (k0 :: k')) as [|r0 r'] eqn:Hr; [done|].
    rewrite lookup_delete_ne; [done|]. intros Heq.
    assert ((name, n) ∈ entries_of fs (c :: d)) as Hin.
    { apply entries_of_spec. rewrite Heq, <- Hr.
      apply last_Some in Hl as [l' Hl]. rewrite Hl, removelast_last. by rewrite <- Hl. }
    rewrite He in Hin. by apply elem_of_nil in Hin.
Qed.

Lemma remove_if_empty_only_directories (dest_path : string) (fs : FS) (e : walk_entry) :
  wf_fs fs = true ->
  only_directories_removed fs (remove_if_empty dest_path fs e) /\
  wf_fs (remove_if_empty dest_path fs e) = true.
Proof.
  intros Hwf. destruct e as [[root dirs] files]. unfold remove_if_empty.
  destruct (abspath_eqb _ _); [split; [apply only_directories_removed_refl|done]|].
  destruct dirs; [|split; [apply only_directories_removed_refl|done]].
  destruct files; [|split; [apply only_directories_removed_refl|done]].
  eapply os_rmdir_only_directories; [done|]. apply surjective_pairing.
Qed.

Lemma cleanup_only_directories (dest_path : string) (l : list walk_entry) (fs : FS) :
  wf_fs fs = true ->
  only_directories_removed fs (fold_left (remove_if_empty dest_path) l fs) /\
  wf_fs (fold_left (remove_if_empty dest_path) l fs) = true.
Proof.
  revert fs. induction l as [|e l IH]; intros fs Hwf;
    [split; [apply only_directories_removed_refl|done]|].
  cbn [fold_left].
  destruct (remove_if_empty_only_directories dest_path fs e Hwf) as [H1 Hwf1].
  destruct (IH _ Hwf1) as [H2 Hwf2]. split; [|done].
  by eapply only_directories_removed_trans.
Qed.

Lemma prune_loop_only_directories (fuel : nat) (fs : FS) (path stop_at : bool * list string) :
  wf_fs fs = true ->
  only_directories_removed fs (prune_loop fuel fs path stop_at) /\
  wf_fs (prune_loop fuel fs path stop_at) = true.
Proof.
  revert fs path. induction fuel as [|fuel IH]; intros fs path Hwf;
    [split; [apply only_directories_removed_refl|done]|].
  cbn [prune_loop].
  destruct (_ && _ && _); [|split; [apply only_directories_removed_refl|done]].
  destruct (_ && _); [|split; [apply only_directories_removed_refl|done]].
  destruct (os_rmdir fs (abs_string path)) as [fs1 [e|]] eqn:Hr;
    apply os_rmdir_only_directories in Hr as [H1 Hwf1]; try done.
  destruct (IH fs1 (path.1, removelast path.2) Hwf1) as [H2 Hwf2]. split; [|done].
  by eapply only_directories_removed_trans.
Qed.

(** X21.  The clean-up of reorganize_existing_book (the loop over the
    bottom-up walk and _prune_empty_parents) removes directories only: it
    creates nothing, keeps every file under its inode and writes no content,
    and every entry that is left still has its parent directory, so that no
    directory with something left in it is removed. *)
Theorem reorganize_cleanup_removes_only_empty_directories (fs : FS)
    (source_path dest_path lib_root : string) :
  wf_fs fs = true ->
  let cleaned :=
    fold_left (remove_if_empty dest_path) (os_walk_bottomup fs source_path) fs in
  let pruned := _prune_empty_parents cleaned source_path lib_root in
  only_directories_removed fs cleaned /\ wf_fs cleaned = true /\
  only_directories_removed fs pruned /\ wf_fs pruned = true /\
  (forall k, tree fs !! k = Some Dir -> tree pruned !! k = None ->
             forall k' n, tree pruned !! k' = Some n -> take (length k) k' <> k).
Proof.
  intros Hwf. cbv zeta.
  destruct (cleanup_only_directories dest_path (os_walk_bottomup fs source_path) fs Hwf)
    as [H1 Hwf1].
  set (cleaned := fold_left _ _ fs) in *.
  unfold _prune_empty_parents.
  destruct (prune_loop_only_directories (S (length (abspath (cwd cleaned) source_path).2))
              cleaned (abspath (cwd cleaned) source_path)
              (abspath (cwd cleaned) lib_root) Hwf1) as [H2 Hwf2].
  set (pruned := prune_loop _ _ _ _) in *.
  split; [done|]. split; [done|].
  split; [by eapply only_directories_removed_trans|]. split; [done|].
  intros k Hk Hgone k' n Hk' Hpre.
  assert (k <> []) as Hne.
  { intros ->. by destruct (wf_fs_spec _ _ _ Hwf Hk) as (name & Hl & _). }
  assert (node_at pruned k = Some Dir) as Hkd.
  { rewrite <- Hpre. rewrite <- (firstn_skipn (length k) k') in Hk'.
    destruct (drop (length k) k') as [|x rest] eqn:Hdrop using rev_ind.
    - rewrite app_nil_r in Hk'. rewrite Hpre in Hk'. congruence.
    - clear IHrest. rewrite app_assoc in Hk'.
      pose proof (node_at_parent pruned _ x Hwf2 (ex_intro _ n Hk')) as Hpar.
      pose proof (prefixes_are_dirs pruned (take (length k) k') rest Hwf2 Hpar 0
                    ltac:(lia)) as H0.
      by rewrite take_0, app_nil_r in H0. }
  unfold node_at in Hkd. destruct k; [done|]. congruence.
Qed.

Lemma reorganize_cleanup_removes_only_empty_directories_witness :
  tree (_prune_empty_parents
          (fold_left (remove_if_empty "/lib/Z")
             (os_walk_bottomup library_fs "/lib/X/Y (2020)/extras") library_fs)
          "/lib/X/Y (2020)/extras" "/lib") !! ["lib"; "X"; "Y (2020)"; "Y .mp3"]
  = Some (File 0) /\
  tree (_prune_empty_parents
          (fold_left (remove_if_empty "/lib/Z")
             (os_walk_bottomup library_fs "/lib/X/Y (2020)/extras") library_fs)
          "/lib/X/Y (2020)/extras" "/lib") !! ["lib"; "X"; "Y (2020)"; "extras"] = None.
Proof.
  split; [|vm_compute; reflexivity].
  refine (proj2 (proj2 (proj2 (proj1 (proj2 (proj2
            (reorganize_cleanup_removes_only_empty_directories library_fs
               "/lib/X/Y (2020)/extras" "/lib/Z" "/lib" _))))))
            ["lib"; "X"; "Y (2020)"; "Y .mp3"] 0 _).
  - vm_compute. reflexivity.
  - vm_compute. reflexivity.
Defined.


(** ** The audio files below a directory *)

Lemma walk_topdown_below (fs : FS) (top : string) (depth : nat) (root : string)
    (names : list string) (e : walk_entry) :
  wf_fs fs = true -> below (cwd fs) top root names ->
  e ∈ walk_topdown depth fs root ->
  exists names', below (cwd fs) top e.1.1 names' /\
                 scandir fs e.1.1 = Some (e.1.2, e.2).
Proof.
  intros Hwf. revert root names. induction depth as [|depth IH]; intros root names Hb.
  - cbn. by intros ?%elem_of_nil.
  - cbn [walk_topdown]. destruct (scandir fs root) as [[dirs files]|] eqn:Hs;
      [|by intros ?%elem_of_nil].
    intros [->|Hin]%elem_of_cons; [by exists names|].
    apply list_elem_of_In, in_flat_map in Hin as (name & Hname & Hin).
    apply (IH (path_join root name) (names ++ [name])); [|by apply list_elem_of_In].
    apply below_child; [done|].
    apply (scandir_plain fs root dirs files Hwf Hs).
    apply elem_of_app. left. by apply list_elem_of_In.
Qed.

Lemma scandir_complete (fs : FS) (p : string) (dirs files : list string)
    (name : string) (n : node) :
  scandir fs p = Some (dirs, files) ->
  tree fs !! (resolve (cwd fs) p ++ [name]) = Some n ->
  name ∈ (if is_dir_node n then dirs else files).
Proof.
  unfold scandir. destruct (stat fs p) as [[|i]|]; try done.
  intros [= <- <-] Hn. apply entries_of_spec in Hn.
  destruct n as [|j]; cbn [is_dir_node]; apply list_elem_of_fmap.
  - exists (name, Dir). split; [done|]. by apply list_elem_of_filter.
  - exists (name, File j). split; [done|]. by apply list_elem_of_filter.
Qed.

Lemma walk_topdown_complete (fs : FS) (top : string) :
  wf_fs fs = true ->
  forall depth root names rest,
    below (cwd fs) top root names ->
    node_at fs (resolve (cwd fs) root ++ rest) = Some Dir ->
    length rest < depth ->
    exists e names',
      e ∈ walk_topdown depth fs root /\ below (cwd fs) top e.1.1 names' /\
      resolve (cwd fs) e.1.1 = resolve (cwd fs) root ++ rest /\
      scandir fs e.1.1 = Some (e.1.2, e.2).
Proof.
  intros Hwf. induction depth as [|depth IH]; intros root names rest Hb Hd Hlen; [lia|].
  cbn [walk_topdown].
  assert (stat fs root = Some Dir) as Hstat.
  { pose proof (prefixes_are_dirs fs _ rest Hwf Hd 0 ltac:(lia)) as H0.
    rewrite take_0, app_nil_r in H0. unfold stat.
    destruct Hb as (_ & _ & Hne & _). by destruct (String.eqb_spec root ""). }
  destruct (scandir fs root) as [[dirs files]|] eqn:Hs.
  2:{ unfold scandir in Hs. by rewrite Hstat in Hs. }
  destruct rest as [|x rest].
  - exists (root, dirs, files), names. rewrite app_nil_r.
    split; [apply elem_of_cons; by left|]. by split.
  - pose proof (prefixes_are_dirs fs _ (x :: rest) Hwf Hd 1 ltac:(cbn; lia)) as H1.
    cbn [take] in H1. rewrite take_0 in H1.
    assert (tree fs !! (resolve (cwd fs) root ++ [x]) = Some Dir) as Hx.
    { unfold node_at in H1. by destruct (resolve (cwd fs) root ++ [x]) eqn:E;
        [destruct (resolve (cwd fs) root)|]. }
    pose proof (scandir_complete _ _ _ _ _ _ Hs Hx) as Hin. cbn [is_dir_node] in Hin.
    assert (plain_name x = true) as Hplain.
    { destruct (wf_fs_spec _ _ _ Hwf Hx) as (name & Hl & Hp & _).
      rewrite last_snoc in Hl. by injection Hl as <-. }
    destruct (IH (path_join root x) (names ++ [x]) rest) as (e & names' & He & Hb' & Hr & Hsc).
    + by apply below_child.
    + rewrite resolve_join_plain by done. by rewrite <- app_assoc.
    + cbn in Hlen. lia.
    + exists e, names'. split; [|split; [done|split; [|done]]].
      * apply elem_of_cons. right. apply list_elem_of_In, in_flat_map.
        exists x. split; by apply list_elem_of_In.
      * rewrite Hr, resolve_join_plain by done. by rewrite <- app_assoc.
Qed.

Lemma audio_files_under_sound (fs : FS) (top p : string) :
  wf_fs fs = true -> top <> "" -> p ∈ audio_files_under fs top ->
  exists names f i,
    resolve (cwd fs) p = resolve (cwd fs) top ++ names ++ [f] /\
    stat fs p = Some (File i) /\ is_audio f = true.
Proof.
  intros Hwf Htop Hp. pose proof (below_top (cwd fs) top Htop) as Hb0.
  unfold audio_files_under in Hp.
  apply list_elem_of_In, in_flat_map in Hp as ([[root dirs] files] & He & Hp).
  apply list_elem_of_In in He.
  destruct (walk_topdown_below fs top _ top [] _ Hwf Hb0 He) as (names & Hb & Hs).
  cbn [fst snd] in Hb, Hs.
  apply in_map_iff in Hp as (f & <- & Hf). apply filter_In in Hf as [Hf Haudio].
  apply list_elem_of_In in Hf.
  pose proof (scandir_plain _ _ _ _ Hwf Hs f) as Hplain.
  rewrite elem_of_app in Hplain. specialize (Hplain (or_intror Hf)).
  destruct (scandir_spec _ _ _ _ Hs) as (_ & _ & Hfiles & _).
  destruct (Hfiles f Hf) as [i Hi].
  destruct Hb as (Hr & _ & Hne & _).
  exists names, f, i. rewrite resolve_join_plain, Hr by done.
  split; [by rewrite <- app_assoc|]. split; [|done].
  rewrite stat_tree.
  - by rewrite resolve_join_plain by done.
  - by apply path_join_nonempty.
  - rewrite resolve_join_plain by done. by destruct (resolve (cwd fs) root).
Qed.

Lemma audio_files_under_complete (fs : FS) (top : string) (names : list string)
    (f : string) (i : nat) :
  wf_fs fs = true -> top <> "" ->
  tree fs !! (resolve (cwd fs) top ++ names ++ [f]) = Some (File i) ->
  is_audio f = true ->
  exists p, p ∈ audio_files_under fs top /\
            resolve (cwd fs) p = resolve (cwd fs) top ++ names ++ [f].
Proof.
  intros Hwf Htop Hf Haudio. pose proof (below_top (cwd fs) top Htop) as Hb0.
  assert (node_at fs (resolve (cwd fs) top ++ names) = Some Dir) as Hd.
  { apply (node_at_parent fs _ f Hwf). rewrite <- app_assoc. by eexists. }
  assert (length names < S (max_depth fs)) as Hlen.
  { pose proof (max_depth_bound _ _ _ Hf) as H. rewrite !length_app in H. cbn in H. lia. }
  destruct (walk_topdown_complete fs top Hwf _ top [] names Hb0 Hd Hlen)
    as ([[root dirs] files] & names' & He & Hb & Hr & Hs).
  cbn [fst snd] in Hb, Hr, Hs.
  assert (plain_name f = true) as Hplain.
  { destruct (wf_fs_spec _ _ _ Hwf Hf) as (name & Hl & Hp & _).
    rewrite app_assoc, last_snoc in Hl. by injection Hl as <-. }
  assert (f ∈ files) as Hin.
  { apply (scandir_complete _ _ _ _ f (File i) Hs). by rewrite Hr, <- app_assoc. }
  exists (path_join root f). split.
  - unfold audio_files_under. apply list_elem_of_In, in_flat_map.
    exists (root, dirs, files). split; [by apply list_elem_of_In|].
    apply in_map. apply filter_In. split; [by apply list_elem_of_In | done].
  - rewrite resolve_join_plain, Hr by done. by rewrite <- app_assoc.
Qed.

(** X22.  In a well-formed file system, the audio files that both the
    processor and the reorganizer collect below a directory are exactly the
    files at any depth below it whose name ends, in any letter case, in one
    of the nine audio extensions: every collected path names such a file
    (under the directory, by lexical resolution), and every such file is
    collected. *)
Theorem audio_files_under_spec (fs : FS) (top : string) :
  wf_fs fs = true -> top <> "" ->
  (forall p, p ∈ audio_files_under fs top ->
     exists names f i,
       resolve (cwd fs) p = resolve (cwd fs) top ++ names ++ [f] /\
       stat fs p = Some (File i) /\ is_audio f = true) /\
  (forall names f i,
     tree fs !! (resolve (cwd fs) top ++ names ++ [f]) = Some (File i) ->
     is_audio f = true ->
     exists p, p ∈ audio_files_under fs top /\
               resolve (cwd fs) p = resolve (cwd fs) top ++ names ++ [f]).
Proof.
  intros Hwf Htop. split.
  - intros p. by apply audio_files_under_sound.
  - intros names f i. by apply audio_files_under_complete.
Qed.

Lemma audio_files_under_spec_witness :
  audio_files_under library_fs_full "/lib" = ["/lib/X/Y (2020)/Y .mp3"] /\
  exists p, p ∈ audio_files_under library_fs_full "/lib" /\
            resolve [] p = ["lib"; "X"; "Y (2020)"; "Y .mp3"].
Proof.
  split; [vm_compute; reflexivity|].
  refine (proj2 (audio_files_under_spec library_fs_full "/lib" _ _)
            ["X"; "Y (2020)"] "Y .mp3" 0 _ _).
  - vm_compute. reflexivity.
  - discriminate.
  - vm_compute. reflexivity.
  - vm_compute. reflexivity.
Defined.


(** X20.  reorganize_existing_book returns at once, with the file system as
    it was, without a move, without creating the destination folder and
    without writing metadata, when no library path is configured, when the
    book cannot be located (no current path given and none found), or when
    no file below the source path has an audio name. *)
Theorem reorganize_existing_book_nothing_to_do (fuel : nat) (P : ProcessorEnv)
    (session : Session) (fs : FS) (book : Audiobook) (current_path : option string) :
  wf_fs fs = true -> natural_sort P [] = [] ->
  get_library_path session = None \/
  (exists lib_root,
     get_library_path session = Some lib_root /\
     (reorg_source_path P fs book lib_root current_path = None \/
      exists source_path,
        reorg_source_path P fs book lib_root current_path = Some source_path /\
        no_audio_below fs source_path)) ->
  reorganize_existing_book fuel P session fs book current_path =
    Some (mkReorg fs [] None).
Proof.
  intros Hwf Hsort. unfold reorganize_existing_book.
  intros [->|(lib & -> & [->|(src & Hsrc & Hnone)])]; [done|done|].
  rewrite Hsrc. apply reorg_source_path_nonempty in Hsrc.
  assert (audio_files_under fs src = []) as ->.
  { destruct (audio_files_under fs src) as [|p l] eqn:E; [done|]. exfalso.
    destruct (audio_files_under_sound fs src p Hwf Hsrc) as (names & f & i & Hr & Hs & Ha).
    { rewrite E. apply elem_of_cons. by left. }
    apply stat_File in Hs as (_ & _ & Ht). rewrite Hr in Ht.
    by rewrite (Hnone _ _ _ Ht) in Ha. }
  by rewrite Hsort.
Qed.

Lemma reorganize_existing_book_nothing_to_do_witness :
  reorganize_existing_book 0 idle_processor single_book_session library_fs
    (sample_book "B001" false) (Some "/lib/X/Y (2020)/extras")
  = Some (mkReorg library_fs [] None).
Proof.
  apply reorganize_existing_book_nothing_to_do.
  - vm_compute. reflexivity.
  - reflexivity.
  - right. exists "/lib". split; [reflexivity|]. right.
    exists "/lib/X/Y (2020)/extras". split; [reflexivity|].
    intros names f i Ht.
    change (resolve (cwd library_fs) "/lib/X/Y (2020)/extras")
      with ["lib"; "X"; "Y (2020)"; "extras"] in Ht.
    exfalso. unfold library_fs in Ht. cbn [tree] in Ht.
    apply elem_of_list_to_map_2 in Ht.
    repeat (apply elem_of_cons in Ht as [Ht|Ht];
            [injection Ht as Ht _; by destruct names as [|? [|? ?]]|]).
    by apply elem_of_nil in Ht.
Defined.

(** ** The files handed to the copy loop *)

(** X23.  Every path process_completed_download hands to the copy loop is an
    existing regular file, provided the sort only reorders (well-formed file
    system).  Unless the download path is one directory, it is read as a
    list separated by "|" and taken as it is: a path that does not exist or
    is a directory is dropped, the order is kept, and the extension is not
    looked at. *)
Theorem audio_files_to_process_are_files (P : ProcessorEnv) (fs : FS)
    (download_path : string) :
  wf_fs fs = true -> (forall l, natural_sort P l ≡ₚ l) ->
  (forall p, p ∈ audio_files_to_process P fs download_path ->
             exists i, stat fs p = Some (File i)) /\
  (isdir fs download_path = false ->
   audio_files_to_process P fs download_path =
     List.filter (fun p => exists_ fs p && negb (isdir fs p))
       (split_on "|" download_path)) /\
  (isdir fs download_path = true -> str_in "|" download_path = false ->
   audio_files_to_process P fs download_path ≡ₚ audio_files_under fs download_path).
Proof.
  intros Hwf Hsort.
  assert (forall l p, p ∈ List.filter (fun p => exists_ fs p && negb (isdir fs p)) l ->
                      exists i, stat fs p = Some (File i)) as Hfilter.
  { intros l p Hp. apply list_elem_of_In, filter_In in Hp as [_ Hp].
    unfold exists_, isdir in Hp. destruct (stat fs p) as [[|i]|]; try done. by exists i. }
  assert (forall s, str_in "|" s = false -> split_on "|" s = [s]) as Hsingle.
  { induction s as [|c s IH]; [done|]. cbn [str_in split_on].
    rewrite str_prefix_cons, str_prefix_nil. intros [Hc Hs]%orb_false_iff.
    destruct (Ascii.eqb_spec c "|") as [->|_]; [by destruct (ascii_dec "|" "|")|].
    by rewrite (IH Hs). }
  assert (forall s, split_on "|" s = [] -> False) as Hnonempty.
  { intros [|c s]; [done|]. cbn [split_on].
    destruct (Ascii.eqb c "|"); [done|]. by destruct (split_on "|" s). }
  assert (forall s top, split_on "|" s = [top] -> top = s) as Hsame.
  { induction s as [|c s IH]; intros top; [by intros [= <-]|]. cbn [split_on].
    destruct (Ascii.eqb c "|").
    - intros [= <- Hs]. by apply Hnonempty in Hs.
    - destruct (split_on "|" s) as [|w ws] eqn:E; [by apply Hnonempty in E|].
      intros [= <- ->]. by rewrite (IH w eq_refl). }
  unfold audio_files_to_process. split; [|split].
  - intros p. destruct (split_on "|" download_path) as [|top [|second rest]] eqn:E.
    + by intros ?%elem_of_nil.
    + destruct (isdir fs top) eqn:Hd; [|apply Hfilter].
      rewrite (Hsort _). intros Hp.
      assert (top <> "") as Htop by (intros ->; by unfold isdir, stat in Hd).
      destruct (audio_files_under_sound fs top p Hwf Htop Hp) as (_ & _ & i & _ & Hs & _).
      by exists i.
    + apply Hfilter.
  - intros Hd. destruct (split_on "|" download_path) as [|top [|second rest]] eqn:E;
      try done.
    apply Hsame in E as ->. by rewrite Hd.
  - intros Hd Hpipe. rewrite (Hsingle _ Hpipe), Hd. apply Hsort.
Qed.

Lemma audio_files_to_process_are_files_witness :
  audio_files_to_process idle_processor sample_fs "/dl/a.mp3|/dl/missing.mp3|/lib"
  = ["/dl/a.mp3"].
Proof.
  assert (wf_fs sample_fs = true) as Hwf by (vm_compute; reflexivity).
  assert (forall l, natural_sort idle_processor l ≡ₚ l) as Hsort by reflexivity.
  rewrite (proj1 (proj2 (audio_files_to_process_are_files idle_processor sample_fs
                           "/dl/a.mp3|/dl/missing.mp3|/lib" Hwf Hsort)));
    vm_compute; reflexivity.
Defined.


(** ** Part labels are distinct *)

Lemma digit_value (n : nat) : nat_of_ascii (digit n) - 48 = n mod 10.
Proof.
  unfold digit. pose proof (Nat.mod_upper_bound n 10 ltac:(lia)) as H.
  rewrite nat_ascii_embedding by lia. lia.
Qed.

Lemma digits_from_value (fuel n : nat) (acc : string) :
  n < fuel ->
  digits_value_from 0 (digits_from fuel n acc) = digits_value_from n acc.
Proof.
  revert n acc. induction fuel as [|fuel IH]; intros n acc Hlt; [lia|].
  cbn [digits_from]. destruct (Nat.eqb_spec (n / 10) 0) as [Hz|Hnz].
  - cbn [digits_value_from]. rewrite digit_value.
    apply Nat.div_small_iff in Hz; [|lia]. rewrite Nat.mod_small by done.
    by rewrite Nat.mul_0_r.
  - assert (0 < n) as Hpos.
    { destruct n; [|lia]. by rewrite Nat.Div0.div_0_l in Hnz. }
    pose proof (Nat.div_lt n 10 Hpos ltac:(lia)) as Hdiv.
    rewrite IH by lia. cbn [digits_value_from]. rewrite digit_value.
    by rewrite <- Nat.div_mod_eq.
Qed.

Lemma zeros_value (k : nat) (s : string) :
  digits_value_from 0 (zeros k +:+ s) = digits_value_from 0 s.
Proof.
  induction k as [|k IH]; [done|]. cbn [zeros]. rewrite append_cons.
  cbn [digits_value_from]. exact IH.
Qed.

Lemma format_0d_value (width n : nat) : digits_value (format_0d width n) = n.
Proof.
  unfold digits_value, format_0d. rewrite zeros_value. unfold str_of_nat.
  by rewrite digits_from_value by lia.
Qed.

Lemma append_inj_l (p a b : string) : p +:+ a = p +:+ b -> a = b.
Proof.
  induction p as [|c p IH]; [done|]. rewrite !append_cons. intros [= H]. by apply IH.
Qed.

(** X24.  With more than one audio file, the files get different part
    labels: the number after "Part " reads back as the index of the file,
    whatever the padding, so two indices never share a label, in
    process_completed_download and in reorganize_existing_book alike. *)
Theorem part_labels_distinct (N i j : nat) :
  1 < N -> i <> j ->
  part_str_process N i = "Part " +:+ format_0d (padding_of N) i /\
  digits_value (format_0d (padding_of N) i) = i /\
  part_str_process N i <> part_str_process N j /\
  (forall audio_files : list string,
     length audio_files = N ->
     part_str_reorganize audio_files i <> part_str_reorganize audio_files j).
Proof.
  intros HN Hij.
  assert (part_str_process N i <> part_str_process N j) as Hne.
  { unfold part_str_process. destruct (Nat.ltb_spec 1 N); [|lia].
    intros Heq%append_inj_l. apply Hij.
    by rewrite <- (format_0d_value (padding_of N) i), Heq, format_0d_value. }
  split; [|split; [apply format_0d_value|split; [done|]]].
  - unfold part_str_process. by destruct (Nat.ltb_spec 1 N); [|lia].
  - intros audio_files <-. exact Hne.
Qed.

Lemma part_labels_distinct_witness :
  part_str_process 120 7 <> part_str_process 120 70.
Proof.
  apply (part_labels_distinct 120 7 70); [lia | lia].
Defined.


(** ** The extension of a renamed audio file *)

Lemma lower_ascii_dot (c : ascii) :
  Ascii.eqb (lower_ascii c) "." = Ascii.eqb c ".".
Proof. destruct c as [[] [] [] [] [] [] [] []]; reflexivity. Qed.

Lemma lower_eq_nil (s : string) : String.eqb (lower s) "" = String.eqb s "".
Proof. by destruct s. Qed.

Lemma split_last_dot_lower (s : string) :
  split_last_dot (lower s) = (lower (split_last_dot s).1, lower (split_last_dot s).2).
Proof.
  induction s as [|c s IH]; [done|]. cbn [lower split_last_dot]. rewrite IH.
  destruct (split_last_dot s) as [h t]. cbn [fst snd].
  rewrite lower_eq_nil, lower_ascii_dot.
  destruct (String.eqb t ""); [destruct (Ascii.eqb c ".")|]; done.
Qed.

Lemma all_dots_lower (s : string) : all_dots (lower s) = all_dots s.
Proof.
  induction s as [|c s IH]; [done|]. cbn [lower all_dots].
  by rewrite lower_ascii_dot, IH.
Qed.

Lemma split_last_dot_no_dot (s : string) :
  str_in "." s = false -> split_last_dot s = (s, "").
Proof.
  induction s as [|c s IH]; [done|]. cbn [str_in split_last_dot].
  rewrite str_prefix_cons, str_prefix_nil. intros [Hc Hs]%orb_false_iff.
  rewrite (IH Hs). cbn [String.eqb].
  destruct (Ascii.eqb_spec c ".") as [->|_]; [by destruct (ascii_dec "." ".")|done].
Qed.

Lemma split_last_dot_app (stem rest : string) :
  str_in "." rest = false ->
  split_last_dot (stem +:+ String "." rest) = (stem, String "." rest).
Proof.
  intros Hrest. induction stem as [|c stem IH].
  - rewrite append_nil_l. cbn [split_last_dot]. by rewrite (split_last_dot_no_dot _ Hrest).
  - rewrite append_cons. cbn [split_last_dot]. by rewrite IH.
Qed.

Lemma substring_all (s : string) : String.substring 0 (String.length s) s = s.
Proof. induction s as [|c s IH]; [done|]. cbn [String.length String.substring]. by rewrite IH. Qed.

Lemma substring_split (s : string) (k : nat) :
  k <= String.length s ->
  s = String.substring 0 k s +:+ String.substring k (String.length s - k) s.
Proof.
  revert k. induction s as [|c s IH]; intros k Hk.
  - cbn in Hk. by replace k with 0 by lia.
  - destruct k as [|k].
    + cbn [String.substring]. rewrite Nat.sub_0_r. cbn [String.length].
      change (String.substring 0 (S (String.length s)) (String c s))
        with (String c (String.substring 0 (String.length s) s)).
      by rewrite substring_all.
    + cbn [String.length] in *. rewrite substring_skip.
      change (String.substring 0 (S k) (String c s))
        with (String c (String.substring 0 k s)).
      rewrite append_cons. replace (S (String.length s) - S k)
        with (String.length s - k) by lia.
      f_equal. apply IH. lia.
Qed.

Lemma endswith_app (s suf : string) :
  endswith s suf = true -> exists stem, s = stem +:+ suf.
Proof.
  unfold endswith. destruct (Nat.leb_spec (String.length suf) (String.length s)); [|done].
  intros Heq%String.eqb_eq.
  exists (String.substring 0 (String.length s - String.length suf) s).
  pose proof (substring_split s (String.length s - String.length suf) ltac:(lia)) as Hs.
  replace (String.length s - (String.length s - String.length suf))
    with (String.length suf) in Hs by lia.
  by rewrite Heq in Hs.
Qed.

Lemma split_last_no_slash (f : string) :
  str_in "/" f = false -> split_last f = ("", f).
Proof.
  induction f as [|c f IH]; [done|]. intros [Hc Hf]%no_slash_cons.
  cbn [split_last]. rewrite (IH Hf). by destruct (Ascii.eqb_spec c "/").
Qed.

Lemma split_last_slash (r f : string) :
  str_in "/" f = false -> split_last (r +:+ String "/" f) = (r +:+ "/", f).
Proof.
  intros Hf. induction r as [|c r IH].
  - rewrite !append_nil_l. cbn [split_last]. by rewrite (split_last_no_slash _ Hf).
  - rewrite !append_cons. cbn [split_last]. rewrite IH.
    destruct (Ascii.eqb c "/"); [done|].
    by destruct r.
Qed.

Lemma basename_join_plain (root f : string) :
  plain_name f = true -> basename (path_join root f) = f.
Proof.
  intros Hp. destruct (plain_name_spec _ Hp) as (_ & _ & _ & Hslash).
  unfold basename, path_join. rewrite (plain_not_abs _ Hp).
  destruct (String.eqb_spec root "") as [->|Hr]; cbn [orb].
  - rewrite append_nil_l. by rewrite split_last_no_slash.
  - destruct (endswith root "/") eqn:He.
    + destruct (endswith_slash _ He) as [r ->].
      replace ((r +:+ "/") +:+ f) with (r +:+ String "/" f)
        by (by rewrite str_append_assoc).
      by rewrite split_last_slash.
    + change (root +:+ "/" +:+ f) with (root +:+ String "/" f).
      by rewrite split_last_slash.
Qed.

(** X25.  The extension a renamed audio file gets is the audio extension its
    name ends in, in lower case: for a file found by its audio name, the
    lower-cased name is a stem followed by one of the nine extensions, and
    the extension computed for the new name (splitext of the joined path,
    lower-cased) is that extension, unless the stem consists of dots only
    (a file named like ".mp3"), in which case the new name gets no
    extension. *)
Theorem audio_extension_kept (root f : string) :
  plain_name f = true -> is_audio f = true ->
  exists stem e,
    lower f = stem +:+ e /\ e ∈ audio_extensions /\
    lower (splitext_ext (path_join root f)) = if all_dots stem then "" else e.
Proof.
  intros Hp Ha. unfold is_audio in Ha. apply existsb_exists in Ha as (e & He & Hend).
  destruct (endswith_app _ _ Hend) as [stem Hstem].
  exists stem, e. split; [done|]. split; [by apply list_elem_of_In|].
  unfold splitext_ext. rewrite (basename_join_plain _ _ Hp).
  pose proof (split_last_dot_lower f) as Hl. rewrite Hstem in Hl.
  assert (split_last_dot (stem +:+ e) = (stem, e)) as Hsplit.
  { unfold audio_extensions in He. cbn [In] in He.
    repeat (destruct He as [<-|He]; [by apply split_last_dot_app|]). done. }
  rewrite Hsplit in Hl. destruct (split_last_dot f) as [h t]. cbn [fst snd] in Hl.
  injection Hl as Hh Ht. rewrite Hh, all_dots_lower.
  destruct (all_dots h); [done|]. by rewrite Ht.
Qed.

Lemma audio_extension_kept_witness :
  exists stem e,
    lower "Track.One.MP3" = stem +:+ e /\ e ∈ audio_extensions /\
    lower (splitext_ext (path_join "/dl" "Track.One.MP3")) =
      if all_dots stem then "" else e.
Proof.
  apply (audio_extension_kept "/dl" "Track.One.MP3"); vm_compute; reflexivity.
Defined.


(** ** Across the modules *)

(** X26.  Once a single-book run of process_completed_download has returned
    for a book, the download endpoints treat the book as done: whatever the
    book service and the library scan answer, create_download for its asin
    is refused with 400 (in a valid region in which the book is known), and
    start_download_source is answered 404 whatever the cache holds. *)
Theorem processed_book_is_closed (P : ProcessorEnv) (E : DownloadsEnv)
    (session : Session) (fs : FS) (book_request : AudiobookRequest)
    (download_path : string) (delete_source : bool) (collection_label : option string)
    (book : Audiobook) (region : option string) (q : Qbittorrent) (c : SourceCache)
    (body : DownloadSourceBody) :
  audiobooks session !! asin book_request = Some book ->
  book_asin book = asin book_request ->
  is_Some (get_library_path session) ->
  let run := process_completed_download P session fs book_request download_path
               delete_source false collection_label in
  run_raised run = None ->
  let a := asin book_request in
  (audible_regions E (effective_region E region) = true ->
   is_Some (get_book_by_asin E a (effective_region E region)) ->
   rejected_400 (create_download E (run_session run) a region).1.2 /\
   requests (create_download E (run_session run) a region).1.1 =
     requests (run_session run)) /\
  (start_download_source E (mkApp (run_session run) q c) a body).1.2 =
    HTTPException 404 "Active download for this audiobook not found.".
Proof.
  intros Hb Hkey [lib Hl]. cbv zeta. intros Hraised.
  pose proof (process_single_book_facts P session fs book_request download_path
                delete_source collection_label book lib Hb Hl) as H.
  cbv zeta in H.
  destruct (os_makedirs fs _).2 as [e|].
  { rewrite H in Hraised. discriminate. }
  rewrite Hraised in H. destruct H as (_ & _ & _ & _ & Hrec & _).
  destruct (Hrec Hkey) as (b & Hcat & Hdl). clear Hrec.
  set (s' := run_session _) in *. clearbody s'. split.
  - intros Hreg [fetched Hget]. unfold create_download, effective_region in *.
    pose proof (get_system_user_audiobooks s') as Hs1.
    pose proof (get_system_user_requests s') as Hr1.
    destruct (get_system_user s') as [s1 user]. cbn [fst snd] in *.
    rewrite Hreg, Hget. cbn [negb]. rewrite Hs1, Hcat, Hdl. cbn [negb].
    destruct (library_contains_asin E s1 (asin book_request)); cbn [andb fst snd];
      (split; [by eexists|done]).
  - unfold start_download_source. cbn [app_session app_qbit app_cache].
    pose proof (get_system_user_audiobooks s') as Hs1.
    destruct (get_system_user s') as [s1 user]. cbn [fst snd] in *.
    destruct (find _ (requests s1)) as [r|] eqn:Hf; [exfalso|done].
    apply find_some in Hf as [_ Hf]. apply andb_true_iff in Hf as [Ha Hd].
    apply String.eqb_eq in Ha. by rewrite Ha, Hs1, Hcat, Hdl in Hd.
Qed.

Lemma processed_book_is_closed_witness :
  (start_download_source nothing_on_disk
     (mkApp (run_session (process_completed_download idle_processor single_book_session
                            sample_fs collection_request "/dl" false false None))
        (mkQbittorrent true [] []) (mkSourceCache 0 ∅)) "B001" sample_body).1.2 =
  HTTPException 404 "Active download for this audiobook not found.".
Proof.
  refine (proj2 (processed_book_is_closed idle_processor nothing_on_disk
                   single_book_session sample_fs collection_request "/dl" false None
                   (sample_book "B001" false) None (mkQbittorrent true [] [])
                   (mkSourceCache 0 ∅) sample_body _ _ _ _)).
  - reflexivity.
  - reflexivity.
  - by eexists.
  - vm_compute. reflexivity.
Defined.

(** X27.  start_download_source answers 204 only when the download was
    started: a returned response is 204, the collaborator start_download was
    called for a request row of the asin with a source of the chosen guid
    and indexer id and reported success, the state is the one it left,
    and the media-server scan is scheduled exactly when the media server is
    configured in that state.  Every refusal is a 404 or a 500 and schedules
    nothing. *)
Theorem start_download_source_outcomes (E : DownloadsEnv) (app : App) (a : string)
    (body : DownloadSourceBody) :
  let out := start_download_source E app a body in
  let session := (get_system_user (app_session app)).1 in
  let user := (get_system_user (app_session app)).2 in
  match out.1.2 with
  | Returned code =>
      code = 204 /\
      exists r source,
        r ∈ requests (app_session app) /\ asin r = a /\
        guid source = body_guid body /\ indexer_id source = body_indexer_id body /\
        start_download E (mkApp session (app_qbit app) (app_cache app))
          (body_guid body) (body_indexer_id body) user r source
          (body_collection body) (body_collection_label body) =
          (out.1.1, Started true) /\
        out.2 = (if abs_is_valid (settings (app_session out.1.1))
                 then [background_abs_trigger_scan] else [])
  | HTTPException code _ => (code = 404 \/ code = 500) /\ out.2 = []
  end.
Proof.
  cbv zeta. unfold start_download_source.
  pose proof (get_system_user_requests (app_session app)) as Hreq.
  destruct (get_system_user (app_session app)) as [s1 user]. cbn [fst snd] in *.
  destruct (find _ (requests s1)) as [r|] eqn:Hf; [|cbn; auto].
  apply find_some in Hf as [Hin Hf]. apply andb_true_iff in Hf as [Ha _].
  apply String.eqb_eq in Ha. rewrite Hreq in Hin. apply list_elem_of_In in Hin.
  cbn [app_cache app_session].
  destruct (cache_get _ _ _) as [[|s l]|]; [cbn; auto| |cbn; auto].
  destruct (find _ (s :: l)) as [source|] eqn:Hsrc; [|cbn; auto].
  apply find_some in Hsrc as [_ Hsrc]. apply andb_true_iff in Hsrc as [Hg Hi].
  apply String.eqb_eq in Hg. apply Z.eqb_eq in Hi.
  destruct (start_download E _ _ _ user r source _ _) as [app' [[|]|msg]] eqn:Hstart;
    cbn [fst snd]; [|auto|auto].
  split; [done|]. exists r, source. by repeat split.
Qed.


(** ** Files that are not audio keep their place in the book folder *)

(** X28.  The second loop of reorganize_existing_book moves a file that is
    not among the renamed audio files to the same relative place below the
    destination folder: for a file named f in a directory reached from the
    source path through the sub-directories names, the target resolves to
    the destination path followed by names and f.  When the step returns,
    the file's path has been added to moved, and either that one move was
    performed or source and target are the same path and nothing was
    moved. *)
Theorem relocate_other_keeps_relative_path (source_path dest_path root f : string)
    (names : list string) (st st' : ReorgState) :
  dest_path <> "" ->
  below (cwd (rs_fs st)) source_path root names ->
  plain_name f = true ->
  path_join root f ∉ rs_moved st ->
  relocate_other source_path dest_path root f st = (st', None) ->
  let c := cwd (rs_fs st) in
  exists d_path,
    resolve c d_path = resolve c dest_path ++ names ++ [f] /\
    path_join root f ∈ rs_moved st' /\
    (rs_moves st' = rs_moves st ++ [(path_join root f, d_path)] \/
     (rs_moves st' = rs_moves st /\ rs_fs st' = (os_makedirs (rs_fs st)
        (if String.eqb (relpath c root source_path) "." then dest_path
         else path_join dest_path (relpath c root source_path))).1 /\
      abspath c (path_join root f) = abspath c d_path)).
Proof.
  intros Hdest (Hr & _ & _ & _ & Hp) Hf Hnew. cbv zeta. unfold relocate_other.
  rewrite bool_decide_eq_false_2 by done.
  rewrite (relpath_below _ _ _ _ Hr).
  set (rel := match names with [] => "." | _ :: _ => str_join "/" names end).
  set (d_dir := if String.eqb rel "." then dest_path else path_join dest_path rel).
  assert (resolve (cwd (rs_fs st)) d_dir = resolve (cwd (rs_fs st)) dest_path ++ names)
    as Hdir.
  { subst d_dir rel. destruct names as [|n names]; [by rewrite app_nil_r|].
    destruct (str_join_relative (n :: names) ltac:(done) Hp) as (Hrel0 & Hrel1 & Hrel2).
    destruct (String.eqb_spec (str_join "/" (n :: names)) "."); [done|].
    rewrite resolve_join by done. by rewrite split_on_join, fold_norm_plain by done. }
  destruct (os_makedirs (rs_fs st) d_dir) as [fs1 [e|]] eqn:Hm; [done|].
  apply os_makedirs_facts in Hm as (Hc & _).
  unfold move_unless_same. cbn [rs_fs rs_moves rs_moved]. rewrite Hc.
  exists (path_join d_dir f).
  split; [by rewrite resolve_join_plain, Hdir, <- app_assoc by done|].
  revert H. destruct (abspath_eqb _ _) eqn:Heq.
  - intros [= <-]. cbn [rs_moved rs_moves rs_fs]. split; [set_solver|]. right.
    split; [done|]. split; [done|]. by apply abspath_eqb_eq.
  - destruct (shutil_move fs1 _ _) as [fs2 [e|]]; [done|].
    intros [= <-]. cbn [rs_moved rs_moves rs_fs]. split; [set_solver|]. by left.
Qed.

Lemma relocate_other_keeps_relative_path_witness :
  exists d_path,
    resolve [] d_path = ["lib"; "X"; "Z"; "extras"; "booklet.pdf"] /\
    "/lib/X/Y (2020)/extras/booklet.pdf" ∈
      rs_moved (relocate_other "/lib/X/Y (2020)" "/lib/X/Z" "/lib/X/Y (2020)/extras"
                  "booklet.pdf" booklet_state).1.
Proof.
  destruct (relocate_other_keeps_relative_path "/lib/X/Y (2020)" "/lib/X/Z"
              "/lib/X/Y (2020)/extras" "booklet.pdf" ["extras"] booklet_state
              (relocate_other "/lib/X/Y (2020)" "/lib/X/Z" "/lib/X/Y (2020)/extras"
                 "booklet.pdf" booklet_state).1) as (d & Hd & Hin & _).
  - discriminate.
  - vm_compute. repeat split; discriminate.
  - reflexivity.
  - set_solver.
  - vm_compute. reflexivity.
  - exists d. split; [exact Hd | exact Hin].
Defined.

(** ** Hard links *)

Lemma os_makedirs_can_link (fs fs1 : FS) (p : string) (e : option exn) :
  os_makedirs fs p = (fs1, e) ->
  can_link fs1 = can_link fs /\ next_ino fs1 = next_ino fs.
Proof.
  unfold os_makedirs. destruct (String.eqb p ""); [by intros [= <- _]|].
  destruct (makedirs_from _ _ _). by intros [= <- _].
Qed.

Lemma smart_copy_link_or_copy (fs r : FS) (src dst : string) (del : bool)
    (i : nat) :
  stat fs src = Some (File i) -> dst <> "" ->
  stat (os_makedirs fs (dirname dst)).1 dst = None ->
  smart_copy fs src dst true del = (r, None) ->
  stat r src = (if del then None else Some (File i)) /\
  if can_link fs (resolve (cwd fs) src) (resolve (cwd fs) dst)
  then stat r dst = Some (File i) /\ data r = data fs /\ next_ino r = next_ino fs
  else stat r dst = Some (File (next_ino fs)) /\
       data r = <[next_ino fs := content fs i]> (data fs) /\
       next_ino r = S (next_ino fs).
Proof.
  intros Hsrc Hdst0 Hdst. unfold smart_copy.
  destruct (abspath_eqb _ _) eqn:Heq.
  { apply abspath_eqb_eq in Heq. injection Heq as _ Heq. intros [= <-]. exfalso.
    destruct (os_makedirs fs (dirname dst)) as [fs1 e1] eqn:Hm. cbn [fst] in Hdst.
    pose proof (os_makedirs_facts _ _ _ _ Hm) as (Hc & _ & Hmono & _).
    apply stat_File in Hsrc as (Hp & Hr & Ht). apply Hmono in Ht.
    apply stat_None in Hdst as [|[_ Hnone]]; [done|].
    rewrite Hc, <- Heq in Hnone. congruence. }
  destruct (os_makedirs fs (dirname dst)) as [fs1 [e1|]] eqn:Hm; [done|].
  cbn [fst] in Hdst.
  pose proof (os_makedirs_facts _ _ _ _ Hm) as (Hc & Hd & Hmono & _).
  pose proof (os_makedirs_can_link _ _ _ _ Hm) as (Hcl & Hino).
  assert (stat fs1 src = Some (File i)) as Hsrc1.
  { apply (stat_kept None fs); [|done|done]. split; [done|]. intros k n Hk _. by apply Hmono. }
  assert (content fs1 i = content fs i) as Hcont by (unfold content; by rewrite Hd).
  rewrite <- Hc, <- Hcl, <- Hino, <- Hd, <- Hcont. clear Hm Hmono Hsrc Hc Hd Hcl Hino Hcont Heq.
  pose proof (stat_File _ _ _ Hsrc1) as (Hp & Hr & Ht).
  pose proof Hdst as Hdst'. apply stat_None in Hdst' as [|[Hrd Htd]]; [done|].
  assert (resolve (cwd fs1) src <> resolve (cwd fs1) dst) as Hdiff by congruence.
  unfold os_link. rewrite Hsrc1, Hdst.
  destruct (negb (String.eqb dst "") && parent_is_dir fs1 (resolve (cwd fs1) dst)) eqn:Hpar.
  2:{ unfold copy_then_remove, shutil_copy2, isdir. rewrite Hdst, Hsrc1.
      unfold write_file. by rewrite Hdst, Hpar. }
  destruct (can_link fs1 _ _).
  - set (fs2 := set_tree fs1 _).
    assert (stat fs2 dst = Some (File i)) as Hdst2.
    { rewrite stat_tree by done. cbn [fs2 tree set_tree cwd]. by rewrite lookup_insert_eq. }
    assert (stat fs2 src = Some (File i)) as Hsrc2.
    { rewrite stat_tree by done. cbn [fs2 tree set_tree cwd]. by rewrite lookup_insert_ne. }
    destruct del.
    + unfold os_remove. rewrite Hsrc2. intros [= <-]. split; [|split; [|done]].
      * rewrite stat_tree by done. cbn [fs2 tree set_tree cwd]. by rewrite lookup_delete_eq.
      * rewrite stat_tree by done. cbn [fs2 tree set_tree cwd].
        rewrite lookup_delete_ne by done. by rewrite lookup_insert_eq.
    + by intros [= <-].
  - unfold copy_then_remove, shutil_copy2, isdir. rewrite Hdst, Hsrc1.
    unfold write_file. rewrite Hdst, Hpar.
    set (fs2 := mkFS _ _ _ _ _).
    assert (stat fs2 dst = Some (File (next_ino fs1))) as Hdst2.
    { rewrite stat_tree by done. cbn [fs2 tree cwd]. by rewrite lookup_insert_eq. }
    assert (stat fs2 src = Some (File i)) as Hsrc2.
    { rewrite stat_tree by done. cbn [fs2 tree cwd]. by rewrite lookup_insert_ne. }
    destruct del.
    + unfold os_remove. rewrite Hsrc2. intros [= <-]. split; [|split; [|done]].
      * rewrite stat_tree by done. cbn [fs2 tree set_tree cwd]. by rewrite lookup_delete_eq.
      * rewrite stat_tree by done. cbn [fs2 tree set_tree cwd].
        rewrite lookup_delete_ne by done. by rewrite lookup_insert_eq.
    + by intros [= <-].
Qed.

(** X29.  With hard links, a source that is a file and a destination that
    does not exist yet and whose directory can be made, smart_copy returns,
    having done one of two things.  Where the file system can make the
    link, it has linked the file and copied nothing: the destination has the
    inode of the source, no content was written and no inode allocated.
    Where the link is refused (another device), it has fallen back to a
    copy: the destination is a new file with the content of the source.
    With delete_source the source name is gone, otherwise it still names
    the same inode. *)
Theorem smart_copy_hardlink_shares_inode (fs fs1 : FS) (src dst : string) (del : bool)
    (i : nat) :
  stat fs src = Some (File i) -> dst <> "" ->
  os_makedirs fs (dirname dst) = (fs1, None) ->
  parent_is_dir fs1 (resolve (cwd fs) dst) = true ->
  stat fs1 dst = None ->
  let out := smart_copy fs src dst true del in
  out.2 = None /\
  stat out.1 src = (if del then None else Some (File i)) /\
  if can_link fs (resolve (cwd fs) src) (resolve (cwd fs) dst)
  then stat out.1 dst = Some (File i) /\ data out.1 = data fs /\
       next_ino out.1 = next_ino fs
  else stat out.1 dst = Some (File (next_ino fs)) /\
       data out.1 = <[next_ino fs := content fs i]> (data fs) /\
       next_ino out.1 = S (next_ino fs).
Proof.
  intros Hsrc Hdst0 Hm Hpar Hdst. cbv zeta.
  assert (abspath (cwd fs) src <> abspath (cwd fs) dst) as Hne.
  { intros [= _ Heq].
    pose proof (os_makedirs_facts _ _ _ _ Hm) as (Hc & _ & Hmono & _).
    pose proof (stat_File _ _ _ Hsrc) as (Hp & Hr & Ht). apply Hmono in Ht.
    apply stat_None in Hdst as [|[_ Hnone]]; [done|].
    rewrite Hc, <- Heq in Hnone. congruence. }
  destruct (smart_copy_succeeds fs fs1 src dst true del i Hne Hsrc Hm Hdst0 Hpar
              (or_introl Hdst)) as (r & j & Hout & _).
  rewrite Hout. cbn [fst snd]. split; [done|].
  apply (smart_copy_link_or_copy fs r src dst del i Hsrc Hdst0); [|exact Hout].
  by rewrite Hm.
Qed.

Lemma smart_copy_hardlink_shares_inode_witness :
  stat (smart_copy sample_fs "/dl/a.mp3" "/lib/X/b.mp3" true true).1 "/lib/X/b.mp3"
    = Some (File 0) /\
  stat (smart_copy other_device_fs "/dl/a.mp3" "/lib/X/b.mp3" true true).1 "/lib/X/b.mp3"
    = Some (File 1) /\
  (smart_copy other_device_fs "/dl/a.mp3" "/lib/X/b.mp3" true true).2 = None.
Proof.
  split; [|split].
  - refine (proj1 (proj2 (proj2 (smart_copy_hardlink_shares_inode sample_fs _ "/dl/a.mp3"
                                   "/lib/X/b.mp3" true 0 _ _ _ _ _))));
      [vm_compute; reflexivity | discriminate | vm_compute; reflexivity
      | vm_compute; reflexivity | vm_compute; reflexivity].
  - refine (proj1 (proj2 (proj2 (smart_copy_hardlink_shares_inode other_device_fs _
                                   "/dl/a.mp3" "/lib/X/b.mp3" true 0 _ _ _ _ _))));
      [vm_compute; reflexivity | discriminate | vm_compute; reflexivity
      | vm_compute; reflexivity | vm_compute; reflexivity].
  - refine (proj1 (smart_copy_hardlink_shares_inode other_device_fs _ "/dl/a.mp3"
                     "/lib/X/b.mp3" true 0 _ _ _ _ _));
      [vm_compute; reflexivity | discriminate | vm_compute; reflexivity
      | vm_compute; reflexivity | vm_compute; reflexivity].
Defined.
